(** * CogniWeave content-transformation engine: a shallow embedding

    The definitions below transcribe the decision logic of the backend
    services (transformationService.js: [transformText],
    [simplifyVocabulary], [chunkParagraphs], [splitIntoSentences],
    [addAnalogies], [analyzeVisuals], [getActionReasoning];
    bedrockService.js: [generateMockProfile]; sampleData.js:
    [vocabularyMappings]).  JavaScript strings are sequences of UTF-16 code
    units; thrown exceptions and non-termination are explicit outcomes. *)

From Stdlib Require Import List NArith ZArith Bool Lia String Ascii DecimalString.
From Stdlib Require DecimalNat.
Import ListNotations.

Set Implicit Arguments.

(* ===================================================================== *)
(** * Part I. Definitions                                                 *)
(* ===================================================================== *)

(** ** JavaScript strings *)

(** A code unit of a JavaScript string. *)
Definition char := N.

(** A JavaScript string. *)
Definition str := list char.

(** An ASCII literal of the source, as a JavaScript string. *)
Definition lit (x : string) : str := map N_of_ascii (list_ascii_of_string x).

Definition char_eqb (a b : char) : bool := N.eqb a b.

(** [a === b] on strings. *)
Fixpoint str_eqb (a b : str) : bool :=
  match a, b with
  | [], [] => true
  | x :: a', y :: b' => char_eqb x y && str_eqb a' b'
  | _, _ => false
  end.

(** [s.startsWith(p)]. *)
Fixpoint starts_with (p s : str) : bool :=
  match p, s with
  | [], _ => true
  | x :: p', y :: s' => char_eqb x y && starts_with p' s'
  | _ :: _, [] => false
  end.

(** [s.includes(p)]. *)
Fixpoint includes (s p : str) : bool :=
  starts_with p s ||
  match s with
  | [] => false
  | _ :: s' => includes s' p
  end.

(** [xs.join(sep)]. *)
Fixpoint join (sep : str) (xs : list str) : str :=
  match xs with
  | [] => []
  | [x] => x
  | x :: rest => x ++ sep ++ join sep rest
  end.

(** The double quote, the line feed, and a text between double quotes. *)
Definition dquote : str := [34%N].
Definition newline : str := [10%N].
Definition quoted (s : str) : str := dquote ++ s ++ dquote.

(** ** Outcomes of a call

    A call returns a value, throws, or exhausts the iteration budget it
    was given; a call that is [OutOfFuel] under every budget never
    returns. *)

Inductive exn : Type :=
| ReadOfUndefined (property : str)        (* TypeError: cannot read property of undefined *)
| DestructureUndefined (property : str).  (* TypeError: cannot destructure undefined *)

Inductive outcome (A : Type) : Type :=
| Returns (a : A)
| Throws (e : exn)
| OutOfFuel.

Arguments Throws {A} e.
Arguments OutOfFuel {A}.

Definition bind {A B : Type} (c : outcome A) (k : A -> outcome B) : outcome B :=
  match c with
  | Returns a => k a
  | Throws e => Throws e
  | OutOfFuel => OutOfFuel
  end.

Notation "x <- c ;; k" := (bind c (fun x => k))
  (at level 61, c at next level, right associativity).

(** [o.property] where [o] may be [undefined]. *)
Definition read {A : Type} (o : option A) (property : string) : outcome A :=
  match o with
  | Some a => Returns a
  | None => Throws (ReadOfUndefined (lit property))
  end.

(** ** The cognitive profile (validation.js, cognitiveProfileSchema)

    Sub-objects may be missing from a profile that did not go through the
    schema (a stored profile): reading through a missing one throws. *)

Record Chunking : Type := {
  strategy : str;
  maxLength : Z
}.

Record Vocabulary : Type := {
  simplificationLevel : str
}.

Record TextSettings : Type := {
  chunking : option Chunking;
  vocabulary : option Vocabulary
}.

Record Summarization : Type := {
  defaultState : str;
  summaryLength : Z
}.

Record Simplification : Type := {
  useAnalogies : bool;
  summarization : option Summarization
}.

Record DistractionFilter : Type := {
  enabled : bool;
  sensitivity : str
}.

Record Visuals : Type := {
  distractionFilter : option DistractionFilter
}.

Record Metadata : Type := {
  createdAt : str;
  updatedAt : str;
  version : str;
  generatedBy : str
}.

Record Preferences : Type := {
  fontSize : Z;
  lineHeightTenths : Z;     (* lineHeight 1.5 is kept as 15 tenths *)
  colorScheme : str
}.

Record CognitiveProfile : Type := {
  text : option TextSettings;
  simplification : option Simplification;
  visuals : option Visuals;
  metadata : option Metadata;
  preferences : option Preferences
}.

(** A stored profile that asks for basic vocabulary and lacks its
    [chunking] settings. *)
Definition profile_without_chunking : CognitiveProfile :=
  {| text := Some {| chunking := None;
                     vocabulary := Some {| simplificationLevel := lit "basic" |} |};
     simplification := Some {| useAnalogies := true; summarization := None |};
     visuals := None;
     metadata := None;
     preferences := None |}.

(** ** Visual classifier (transformationService.js, analyzeVisuals) *)

Module Visual.

(** An element of the request (validation.js, visualAnalysisSchema); the
    classifier never reads [size]. *)
Record VisualElement : Type := {
  id : str;
  type : str;
  semantic_context : str;
  position : option str
}.

(** The action literals assigned by the classifier. *)
Inductive Action : Type :=
| keep_visible
| hide
| fade_to_20_percent_opacity
| fade_to_30_percent_opacity
| fade_to_40_percent_opacity
| fade_to_50_percent_opacity.

Definition action_name (a : Action) : str :=
  match a with
  | keep_visible => lit "keep_visible"
  | hide => lit "hide"
  | fade_to_20_percent_opacity => lit "fade_to_20_percent_opacity"
  | fade_to_30_percent_opacity => lit "fade_to_30_percent_opacity"
  | fade_to_40_percent_opacity => lit "fade_to_40_percent_opacity"
  | fade_to_50_percent_opacity => lit "fade_to_50_percent_opacity"
  end.

Definition action_eqb (a b : Action) : bool := str_eqb (action_name a) (action_name b).

(** An entry of [visualActions]; the short-circuit branch builds entries
    without a [reasoning] property. *)
Record VisualAction : Type := {
  va_id : str;
  va_action : Action;
  va_reasoning : option str
}.

Record AnalysisMetadata : Type := {
  filterEnabled : bool;
  md_sensitivity : option str;
  elementsProcessed : option nat;
  actionsHide : option nat;
  actionsFade : option nat;
  actionsKeep : option nat
}.

Record VisualAnalysis : Type := {
  status : str;
  visualActions : list VisualAction;
  analysis_metadata : AnalysisMetadata
}.

(** A template substitution of a possibly missing property. *)
Definition show_optional (o : option str) : str :=
  match o with
  | Some s => s
  | None => lit "undefined"
  end.

(** getActionReasoning: every action literal has an entry in
    [reasoningMap], so the fallback after [||] is never taken. *)
Definition getActionReasoning (element : VisualElement) (action : Action)
    (sensitivity : str) : str :=
  match action with
  | hide =>
      lit "Hidden due to " ++ sensitivity ++ lit " sensitivity to "
        ++ semantic_context element
  | keep_visible =>
      lit "Kept visible - essential " ++ semantic_context element
  | fade_to_20_percent_opacity =>
      lit "Faded to reduce visual distraction from " ++ semantic_context element
  | fade_to_30_percent_opacity =>
      lit "Moderately faded - " ++ semantic_context element ++ lit " with "
        ++ sensitivity ++ lit " sensitivity"
  | fade_to_40_percent_opacity =>
      lit "Lightly faded - " ++ show_optional (position element)
        ++ lit " content with " ++ sensitivity ++ lit " sensitivity"
  | fade_to_50_percent_opacity =>
      lit "Reduced opacity - decorative content with " ++ sensitivity
        ++ lit " sensitivity"
  end.

(** The [switch (element.semantic_context)] of the enabled branch. *)
Definition decide_action (element : VisualElement) (sensitivity : str) : Action :=
  let ctx := semantic_context element in
  if str_eqb ctx (lit "sidebar_advertisement")
     || str_eqb ctx (lit "popup_advertisement")
     || str_eqb ctx (lit "newsletter_signup")
  then
    if str_eqb sensitivity (lit "high") then hide else fade_to_30_percent_opacity
  else if str_eqb ctx (lit "decorative_stock_photo") then
    if str_eqb sensitivity (lit "high") then fade_to_20_percent_opacity
    else if str_eqb sensitivity (lit "medium") then fade_to_50_percent_opacity
    else keep_visible
  else if str_eqb ctx (lit "main_article_figure")
          || str_eqb ctx (lit "educational_content")
  then keep_visible
  else
    if str_eqb sensitivity (lit "high")
       && match position element with
          | Some p => str_eqb p (lit "sidebar")
          | None => false
          end
    then fade_to_40_percent_opacity
    else keep_visible.

(** The body of [elements.forEach]: one pushed entry per element. *)
Definition classify_element (sensitivity : str) (element : VisualElement)
    : VisualAction :=
  let action := decide_action element sensitivity in
  {| va_id := id element;
     va_action := action;
     va_reasoning := Some (getActionReasoning element action sensitivity) |}.

Definition count_where (f : VisualAction -> bool) (l : list VisualAction) : nat :=
  List.length (filter f l).

(** analyzeVisuals; [processingTime] (a clock reading) is left out. *)
Definition analyzeVisuals (elements : list VisualElement)
    (profile : CognitiveProfile) : outcome VisualAnalysis :=
  v <- read (visuals profile) "distractionFilter" ;;
  match distractionFilter v with
  | None => Throws (DestructureUndefined (lit "enabled"))
  | Some df =>
      if negb (enabled df) then
        Returns
          {| status := lit "success";
             visualActions :=
               map (fun el => {| va_id := id el;
                                 va_action := keep_visible;
                                 va_reasoning := None |}) elements;
             analysis_metadata :=
               {| filterEnabled := false;
                  md_sensitivity := None;
                  elementsProcessed := None;
                  actionsHide := None;
                  actionsFade := None;
                  actionsKeep := None |} |}
      else
        let visualActions := map (classify_element (sensitivity df)) elements in
        Returns
          {| status := lit "success";
             visualActions := visualActions;
             analysis_metadata :=
               {| filterEnabled := true;
                  md_sensitivity := Some (sensitivity df);
                  elementsProcessed := Some (List.length elements);
                  actionsHide :=
                    Some (count_where (fun a => action_eqb (va_action a) hide)
                            visualActions);
                  actionsFade :=
                    Some (count_where
                            (fun a => includes (action_name (va_action a)) (lit "fade"))
                            visualActions);
                  actionsKeep :=
                    Some (count_where
                            (fun a => action_eqb (va_action a) keep_visible)
                            visualActions) |} |}
  end.

(** A profile whose distraction filter is present with the given
    settings. *)
Definition has_filter (profile : CognitiveProfile) (df : DistractionFilter) : Prop :=
  exists v, visuals profile = Some v /\ distractionFilter v = Some df.

(** The advertising contexts of the first [case] group. *)
Definition is_advertising (ctx : str) : Prop :=
  ctx = lit "sidebar_advertisement" \/ ctx = lit "popup_advertisement"
  \/ ctx = lit "newsletter_signup".

(** The contexts of the always-keep [case] group. *)
Definition is_essential (ctx : str) : Prop :=
  ctx = lit "main_article_figure" \/ ctx = lit "educational_content".

(** One row-set of the decision table, for the action [a] given to
    [el] under [sens]; [exempt] holds of the contexts the last
    (catch-all) rows do not cover. *)
Definition decision_table (exempt : str -> Prop) (sens : str)
    (el : VisualElement) (a : Action) : Prop :=
  let ctx := semantic_context el in
  let in_sidebar := position el = Some (lit "sidebar") in
  (is_advertising ctx ->
     (sens = lit "high" -> a = hide) /\
     (sens = lit "low" \/ sens = lit "medium" -> a = fade_to_30_percent_opacity))
  /\
  (ctx = lit "decorative_stock_photo" ->
     (sens = lit "high" -> a = fade_to_20_percent_opacity) /\
     (sens = lit "medium" -> a = fade_to_50_percent_opacity) /\
     (sens = lit "low" -> a = keep_visible))
  /\
  (~ is_advertising ctx -> ctx <> lit "decorative_stock_photo" -> ~ exempt ctx ->
     (sens = lit "high" /\ in_sidebar -> a = fade_to_40_percent_opacity) /\
     (~ (sens = lit "high" /\ in_sidebar) -> a = keep_visible)).

(** A schema-valid profile with the given distraction-filter settings. *)
Definition profile_with_filter (on : bool) (sens : str) : CognitiveProfile :=
  {| text := Some {| chunking := Some {| strategy := lit "sentence_limit";
                                         maxLength := 4 |};
                     vocabulary := Some {| simplificationLevel := lit "intermediate" |} |};
     simplification := Some {| useAnalogies := false;
                               summarization := Some {| defaultState := lit "expanded";
                                                        summaryLength := 25 |} |};
     visuals := Some {| distractionFilter := Some {| enabled := on;
                                                     sensitivity := sens |} |};
     metadata := None;
     preferences := None |}.

(** sampleData.js, sampleVisualElements: "sidebar-ad-1". *)
Definition sidebar_ad : VisualElement :=
  {| id := lit "sidebar-ad-1";
     type := lit "advertisement";
     semantic_context := lit "sidebar_advertisement";
     position := Some (lit "sidebar") |}.

(** An article figure laid out inside an [aside]: what
    extractVisualElements yields for an [img] with alt text "figure ..."
    placed in a sidebar. *)
Definition sidebar_figure : VisualElement :=
  {| id := lit "img-0";
     type := lit "image";
     semantic_context := lit "main_article_figure";
     position := Some (lit "sidebar") |}.

End Visual.

(** ** Profile generation fallback (bedrockService.js, generateMockProfile) *)

Module Fallback.

(** [toLowerCase] on one code unit.  Only the ASCII capitals are mapped.
    The full Unicode mapping also changes letters outside ASCII; none of
    them yields text in which one of the ASCII phrases probed below
    starts or continues (U+212A gives "k", which no phrase contains;
    U+0130 gives "i" followed by U+0307, while every "i" of a phrase is
    followed by a letter of the phrase), so the tests below decide as
    the source does. *)
Definition lower_char (c : char) : char :=
  if (65 <=? c)%N && (c <=? 90)%N then (c + 32)%N else c.

Definition toLowerCase (s : str) : str := map lower_char s.

(** The answers read by the generator (validation.js, onboardingSchema);
    a missing answer is [undefined]. *)
Record OnboardingAnswers : Type := {
  q1_reading_style : option str;
  q2_distractions : option str;
  q3_complex_topics : option str
}.

(** [answer?.toLowerCase().includes(phrase)]: the optional chain yields
    [undefined], which is falsy, when the answer is missing. *)
Definition answer_includes (answer : option str) (phrase : string) : bool :=
  match answer with
  | Some s => includes (toLowerCase s) (lit phrase)
  | None => false
  end.

(** generateMockProfile; [created] and [updated] are the two clock
    readings [new Date().toISOString()]. *)
Definition generateMockProfile (created updated : str)
    (answers : OnboardingAnswers) : CognitiveProfile :=
  let maxLength :=
    if answer_includes (q1_reading_style answers) "shorter"
       || answer_includes (q1_reading_style answers) "2-3 sentences"
    then 3%Z else 4%Z in
  let simplificationLevel :=
    if answer_includes (q3_complex_topics answers) "simple"
       || answer_includes (q3_complex_topics answers) "basic"
    then lit "basic" else lit "intermediate" in
  let useAnalogies :=
    if answer_includes (q3_complex_topics answers) "analog"
       || answer_includes (q3_complex_topics answers) "example"
    then true else false in
  let distractionFilter :=
    if answer_includes (q2_distractions answers) "very distracted"
       || answer_includes (q2_distractions answers) "completely derail"
    then {| enabled := true; sensitivity := lit "high" |}
    else if answer_includes (q2_distractions answers) "distract"
    then {| enabled := true; sensitivity := lit "medium" |}
    else {| enabled := false; sensitivity := lit "medium" |} in
  {| text := Some {| chunking := Some {| strategy := lit "sentence_limit";
                                         maxLength := maxLength |};
                     vocabulary :=
                       Some {| simplificationLevel := simplificationLevel |} |};
     simplification :=
       Some {| useAnalogies := useAnalogies;
               summarization := Some {| defaultState := lit "expanded";
                                        summaryLength := 25 |} |};
     visuals := Some {| distractionFilter := Some distractionFilter |};
     metadata := Some {| createdAt := created;
                         updatedAt := updated;
                         version := lit "1.0";
                         generatedBy := lit "intelligent-mock-fallback" |};
     preferences := Some {| fontSize := 16;
                            lineHeightTenths := 15;
                            colorScheme := lit "default" |} |}.

(** The distraction answer contains [phrase] as a substring, letter case
    aside. *)
Definition mentions (answer : option str) (phrase : string) : Prop :=
  exists s before m after,
    answer = Some s /\ s = before ++ m ++ after /\ toLowerCase m = lit phrase.

(** The derived distraction-filter settings of a generated profile. *)
Definition derived_filter (p : CognitiveProfile) : option DistractionFilter :=
  match visuals p with
  | Some v => distractionFilter v
  | None => None
  end.

Definition answers_about_distraction (q2 : string) : OnboardingAnswers :=
  {| q1_reading_style := Some (lit "I read long articles in one sitting.");
     q2_distractions := Some (lit q2);
     q3_complex_topics := Some (lit "I like to read the original papers.") |}.

Definition derail_answers : OnboardingAnswers :=
  answers_about_distraction "Pop-ups completely derail my focus.".

End Fallback.

(** ** The markup collaborator (jsdom)

    The engine hands the markup to jsdom and works on the paragraphs it
    finds.  The parser is an external library, taken here as an
    interface. *)

Class Dom : Type := {
  (** [p.textContent] for each [p] of
      [new JSDOM(content).window.document.querySelectorAll('p')], in
      document order. *)
  paragraph_texts : str -> list str;
  (** [document.body.innerHTML] of the document parsed from the content
      after [p.outerHTML = html] was assigned to the paragraphs whose
      entry is [Some html]. *)
  body_html : str -> list (option str) -> str
}.

(** A document that is one paragraph of plain text. *)
Definition one_paragraph_dom : Dom :=
  {| paragraph_texts := fun content => [content];
     body_html := fun content edits =>
       match edits with
       | [Some html] => html
       | _ => lit "<p>" ++ content ++ lit "</p>"
       end |}.

(** ** Sentence splitter and paragraph chunker
       (transformationService.js, splitIntoSentences, chunkParagraphs) *)

Module Chunker.

(** The class [[\.!?]] of the sentence pattern. *)
Definition is_terminator (c : char) : bool :=
  (c =? 46)%N || (c =? 33)%N || (c =? 63)%N.

(** [text.match(/[^\.!?]+[\.!?]+/g)], as the automaton of the pattern
    run over the text: [body] is the run of non-terminators read so far
    and [marks] the run of terminators after it.  A match is a non-empty
    [body] followed by a non-empty, maximal [marks]; terminators with no
    body before them are skipped, and a trailing body with no terminator
    is no match.  The result is empty where [match] returns [null]. *)
Fixpoint match_sentences (body marks : str) (text : str) : list str :=
  match text with
  | [] =>
      match marks with
      | [] => []
      | _ :: _ => [body ++ marks]
      end
  | c :: rest =>
      if is_terminator c then
        match body with
        | [] => match_sentences [] [] rest
        | _ :: _ => match_sentences body (marks ++ [c]) rest
        end
      else
        match marks with
        | [] => match_sentences (body ++ [c]) [] rest
        | _ :: _ => (body ++ marks) :: match_sentences [c] [] rest
        end
  end.

(** WhiteSpace and LineTerminator code units, as [String.prototype.trim]
    strips them. *)
Definition is_space (c : char) : bool :=
  ((9 <=? c) && (c <=? 13) || (c =? 32) || (c =? 160) || (c =? 5760)
   || (8192 <=? c) && (c <=? 8202) || (c =? 8232) || (c =? 8233)
   || (c =? 8239) || (c =? 8287) || (c =? 12288) || (c =? 65279))%N.

Fixpoint trimStart (s : str) : str :=
  match s with
  | [] => []
  | c :: rest => if is_space c then trimStart rest else s
  end.

Definition trimEnd (s : str) : str := rev (trimStart (rev s)).

Definition trim (s : str) : str := trimStart (trimEnd s).

(** splitIntoSentences: [text.match(...)?.map(s => s.trim()) || [text]]. *)
Definition splitIntoSentences (text : str) : list str :=
  match match_sentences [] [] text with
  | [] => [text]
  | m :: ms => map trim (m :: ms)
  end.

(** [xs.slice(start, end)], with the relative reading of negative
    indices. *)
Definition slice {A : Type} (xs : list A) (start stop : Z) : list A :=
  let len := Z.of_nat (List.length xs) in
  let k := if (start <? 0)%Z then Z.max (len + start) 0 else Z.min start len in
  let final := if (stop <? 0)%Z then Z.max (len + stop) 0 else Z.min stop len in
  firstn (Z.to_nat (final - k)) (skipn (Z.to_nat k) xs).

(** The markup pushed for one chunk. *)
Definition chunk_markup (chunk : str) : str :=
  lit "<p class=" ++ quoted (lit "chunked-paragraph") ++ lit ">" ++ chunk
    ++ lit "</p>".

(** The loop [for (let i = 0; i < sentences.length; i += maxSentences)]
    from the value [i] on; one unit of [fuel] per test of the condition. *)
Fixpoint chunk_loop (fuel : nat) (sentences : list str) (maxSentences i : Z)
    : outcome (list str) :=
  match fuel with
  | O => OutOfFuel
  | S fuel' =>
      if (i <? Z.of_nat (List.length sentences))%Z then
        let chunk := join (lit " ") (slice sentences i (i + maxSentences)) in
        chunks <- chunk_loop fuel' sentences maxSentences (i + maxSentences) ;;
        Returns (chunk_markup chunk :: chunks)
      else Returns []
  end.

(** The body of [paragraphs.forEach], threaded over the paragraphs with
    the counter [chunksCreated]: for each paragraph the markup assigned
    to its [outerHTML], if any. *)
Fixpoint forEach_paragraph (fuel : nat) (maxSentences : Z)
    (paragraphs : list str) (chunksCreated : nat)
    : outcome (list (option str) * nat) :=
  match paragraphs with
  | [] => Returns ([], chunksCreated)
  | text :: rest =>
      let sentences := splitIntoSentences text in
      if (Z.of_nat (List.length sentences) >? maxSentences)%Z then
        chunks <- chunk_loop fuel sentences maxSentences 0 ;;
        r <- forEach_paragraph fuel maxSentences rest (S chunksCreated) ;;
        Returns (Some (join newline chunks) :: fst r, snd r)
      else
        r <- forEach_paragraph fuel maxSentences rest chunksCreated ;;
        Returns (None :: fst r, snd r)
  end.

Record ChunkResult : Type := {
  content : str;
  chunksCreated : nat
}.

(** chunkParagraphs. *)
Definition chunkParagraphs {dom : Dom} (fuel : nat) (content : str)
    (maxSentences : Z) : outcome ChunkResult :=
  r <- forEach_paragraph fuel maxSentences (paragraph_texts content) 0 ;;
  let html := body_html content (fst r) in
  Returns {| content := match html with [] => content | _ :: _ => html end;
             chunksCreated := snd r |}.

(** [ceil(n / d)] for a positive [d]. *)
Definition ceil_div (n d : Z) : Z := ((n + d - 1) / d)%Z.

(** What chunking does to one paragraph: nothing when it has at most
    [maxSentences] sentences; otherwise its [outerHTML] becomes the
    markup of [ceil(n / maxSentences)] paragraphs, each the join of at
    most [maxSentences] sentences, the groups being consecutive and
    together exactly the sentences of the paragraph. *)
Definition chunked_as (maxSentences : Z) (text : str) (edit : option str) : Prop :=
  let sentences := splitIntoSentences text in
  let n := Z.of_nat (List.length sentences) in
  if (n >? maxSentences)%Z then
    exists groups : list (list str),
      edit = Some (join newline
                     (map (fun g => chunk_markup (join (lit " ") g)) groups))
      /\ List.concat groups = sentences
      /\ Z.of_nat (List.length groups) = ceil_div n maxSentences
      /\ Forall (fun g => (1 <= Z.of_nat (List.length g) <= maxSentences)%Z) groups
  else edit = None.

(** The paragraphs that get split. *)
Definition is_split (maxSentences : Z) (text : str) : bool :=
  (Z.of_nat (List.length (splitIntoSentences text)) >? maxSentences)%Z.

(** A sentence with text before its closing marks: a non-empty run of
    non-terminators that does not start with white space, then a
    non-empty run of terminators. *)
Definition proper_sentence (s : str) : Prop :=
  exists (c : char) (body marks : str),
    s = (c :: body) ++ marks
    /\ is_space c = false
    /\ forallb (fun x => negb (is_terminator x)) (c :: body) = true
    /\ marks <> [] /\ forallb is_terminator marks = true.

(** Seven sentences in one paragraph. *)
Definition seven_sentences : str :=
  lit "One. Two! Three? Four. Five. Six. Seven.".

End Chunker.

(** ** What chunking writes for a paragraph *)

Module ChunkedParagraphs.
Import Chunker.

(** One unit of the replacement: a paragraph of class chunked-paragraph
    holding the sentences of a group joined by single spaces, written
    into the markup as they are. *)
Definition paragraph_unit (group : list str) : str :=
  lit "<p class=" ++ quoted (lit "chunked-paragraph") ++ lit ">"
    ++ join (lit " ") group ++ lit "</p>".

(** The statement about one paragraph: a paragraph of at most
    [maxSentences] sentences gets no new markup; one of [n] sentences
    more gets the units of [ceil(n / maxSentences)] groups, joined by
    line feeds; the groups hold between one and [maxSentences]
    sentences and are, one after the other, exactly the sentences of
    the paragraph; and a unit whose sentences all have text before
    their closing marks splits into these sentences again. *)
Definition rewritten_as (maxSentences : Z) (text : str) (edit : option str) : Prop :=
  let sentences := splitIntoSentences text in
  let n := Z.of_nat (List.length sentences) in
  if (n >? maxSentences)%Z then
    exists groups : list (list str),
      edit = Some (join newline (map paragraph_unit groups))
      /\ List.concat groups = sentences
      /\ Z.of_nat (List.length groups) = ceil_div n maxSentences
      /\ Forall (fun g => (1 <= Z.of_nat (List.length g) <= maxSentences)%Z) groups
      /\ Forall (fun g => Forall proper_sentence g ->
                          splitIntoSentences (join (lit " ") g) = g) groups
  else edit = None.

End ChunkedParagraphs.

(** ** Whole-word patterns: [new RegExp(`\\b${key}\\b`, 'gi')]

    The keys interpolated into the pattern are the property names of the
    two static tables: non-empty runs of ASCII letters and spaces, so the
    pattern is the key as a literal between two word-boundary assertions
    (see [plain_key] and the checks on the tables below). *)

Module Pattern.

(** IsWordChar: [[A-Za-z0-9_]] (the pattern has no [u] flag). *)
Definition is_word_char (c : char) : bool :=
  ((48 <=? c) && (c <=? 57) || (65 <=? c) && (c <=? 90) || (c =? 95)
   || (97 <=? c) && (c <=? 122))%N.

(** Canonicalize under the [i] flag.  ASCII letters fold to upper case;
    a code unit outside ASCII never folds to an ASCII one, which is all
    that a comparison with the ASCII keys depends on. *)
Definition canonicalize (c : char) : char :=
  if (97 <=? c)%N && (c <=? 122)%N then (c - 32)%N else c.

Definition char_matches (p c : char) : bool :=
  char_eqb (canonicalize p) (canonicalize c).

Definition is_word (c : option char) : bool :=
  match c with
  | Some x => is_word_char x
  | None => false
  end.

(** The assertion [\b] between the code unit before the position and the
    one at it, either of which may be outside the text. *)
Definition at_boundary (prev next : option char) : bool :=
  xorb (is_word prev) (is_word next).

(** The key as a literal at the head of the text: the matched text and
    what follows it. *)
Fixpoint match_literal (key s : str) : option (str * str) :=
  match key with
  | [] => Some ([], s)
  | p :: key' =>
      match s with
      | [] => None
      | c :: s' =>
          if char_matches p c then
            match match_literal key' s' with
            | Some (m, rest) => Some (c :: m, rest)
            | None => None
            end
          else None
      end
  end.

(** The code unit before the position that follows [m]. *)
Definition before_rest (prev : option char) (m : str) : option char :=
  last (map Some m) prev.

(** The whole pattern at the position whose preceding code unit is
    [prev]. *)
Definition match_here (key : str) (prev : option char) (s : str)
    : option (str * str) :=
  if at_boundary prev (hd_error s) then
    match match_literal key s with
    | Some (m, rest) =>
        if at_boundary (before_rest prev m) (hd_error rest)
        then Some (m, rest) else None
    | None => None
    end
  else None.

(** A text cut by the successive matches of a global pattern. *)
Inductive segment : Type :=
| Kept (c : char)
| Matched (m : str).

Definition segment_text (g : segment) : str :=
  match g with
  | Kept c => [c]
  | Matched m => m
  end.

Definition is_matched (g : segment) : bool :=
  match g with
  | Kept _ => false
  | Matched _ => true
  end.

(** The successive matches from a position on, leftmost first, each
    search resuming where the previous match ended.  Every round
    consumes at least one code unit of a non-empty key's text, so
    [fuel] above the length of the text is never exhausted. *)
Fixpoint scan (fuel : nat) (key : str) (prev : option char) (s : str)
    : list segment :=
  match fuel with
  | O => map Kept s
  | S fuel' =>
      match match_here key prev s with
      | Some (m, rest) => Matched m :: scan fuel' key (before_rest prev m) rest
      | None =>
          match s with
          | [] => []
          | c :: s' => Kept c :: scan fuel' key (Some c) s'
          end
      end
  end.

Definition occurrences (key s : str) : list segment :=
  scan (S (List.length s)) key None s.

(** [regex.test(s)] on a fresh pattern. *)
Definition regex_test (key s : str) : bool :=
  existsb is_matched (occurrences key s).

(** [s.replace(regex, replacement)] for a replacement text without [$]. *)
Definition regex_replace (key replacement s : str) : str :=
  flat_map (fun g => match g with
                     | Kept c => [c]
                     | Matched _ => replacement
                     end) (occurrences key s).

(** The keys and replacement texts the model is exact for. *)
Definition plain_key (key : str) : bool :=
  match key with
  | [] => false
  | _ :: _ =>
      forallb (fun c => ((65 <=? c) && (c <=? 90) || (97 <=? c) && (c <=? 122)
                         || (c =? 32))%N) key
  end.

Definition plain_replacement (r : str) : bool :=
  negb (existsb (fun c => (c =? 36)%N) r).

(** Equality of two texts, letter case aside, as the pattern decides
    it. *)
Definition same_text (key m : str) : bool :=
  str_eqb (map canonicalize key) (map canonicalize m).

(** A text as words (maximal runs of word characters) and the code units
    between them. *)
Inductive token : Type :=
| Word (w : str)
| Other (c : char).

Definition token_text (t : token) : str :=
  match t with
  | Word w => w
  | Other c => [c]
  end.

Fixpoint tokens (s : str) : list token :=
  match s with
  | [] => []
  | c :: s' =>
      if is_word_char c then
        match tokens s' with
        | Word w :: ts => Word (c :: w) :: ts
        | ts => Word [c] :: ts
        end
      else Other c :: tokens s'
  end.

(** The token is a word equal to the key, letter case aside. *)
Definition is_term (key : str) (t : token) : bool :=
  match t with
  | Word w => same_text key w
  | Other _ => false
  end.

(** The key occurs in the text as a whole word. *)
Definition term_occurs (key s : str) : bool :=
  existsb (is_term key) (tokens s).

(** A word is a non-empty run of word characters; any other token is a
    code unit outside the word class. *)
Definition token_ok (t : token) : Prop :=
  match t with
  | Word w => w <> [] /\ forallb is_word_char w = true
  | Other c => is_word_char c = false
  end.

(** A key that is one word. *)
Definition word_key (key : str) : bool :=
  match key with
  | [] => false
  | _ :: _ => forallb is_word_char key
  end.

(** The segments a text is cut into when its words are compared with a
    one-word key. *)
Definition word_segments (key : str) (ts : list token) : list segment :=
  flat_map (fun t => match t with
                     | Word x => if same_text key x then [Matched x] else map Kept x
                     | Other c => [Kept c]
                     end) ts.

(** Token lists in which words are non-empty runs of word characters,
    no two words are adjacent, and the other tokens are not word
    characters. *)
Fixpoint well_formed (ts : list token) : Prop :=
  match ts with
  | [] => True
  | Word w :: rest =>
      w <> [] /\ forallb is_word_char w = true
      /\ match rest with Word _ :: _ => False | _ => True end
      /\ well_formed rest
  | Other c :: rest => is_word_char c = false /\ well_formed rest
  end.

(** Global matching as a relation: from a position, the leftmost match
    is taken wherever the pattern matches, and one code unit is kept
    wherever it does not. *)
Inductive cut (key : str) : option char -> str -> list segment -> Prop :=
| cut_end prev :
    match_here key prev [] = None ->
    cut key prev [] []
| cut_match prev s m rest segs :
    match_here key prev s = Some (m, rest) ->
    m <> [] ->
    cut key (before_rest prev m) rest segs ->
    cut key prev s (Matched m :: segs)
| cut_keep prev c s segs :
    match_here key prev (c :: s) = None ->
    cut key (Some c) s segs ->
    cut key prev (c :: s) (Kept c :: segs).

End Pattern.

(** ** Vocabulary simplifier
       (sampleData.js, vocabularyMappings;
        transformationService.js, simplifyVocabulary) *)

Module Vocabulary.
Import Pattern.

Definition entry (complex simple : string) : str * str := (lit complex, lit simple).

(** [Object.entries] lists the properties in the order they are written. *)
Definition basic : list (str * str) :=
  [ entry "ubiquitous" "everywhere";
    entry "proliferation" "spread";
    entry "pedagogical" "teaching";
    entry "paradigms" "methods";
    entry "necessitating" "requiring";
    entry "methodologies" "ways";
    entry "accommodate" "fit";
    entry "cognitive" "thinking";
    entry "frameworks" "structures";
    entry "leverage" "use";
    entry "emergent" "new";
    entry "ecosystems" "systems";
    entry "fundamental" "basic";
    entry "subatomic" "very tiny";
    entry "unprecedented" "never seen before";
    entry "epoch" "time period";
    entry "encapsulates" "shows";
    entry "antiquity" "ancient times";
    entry "epitomized" "showed perfectly";
    entry "intricate" "complex";
    entry "whereby" "where";
    entry "biochemical" "chemical in living things";
    entry "typically" "usually";
    entry "photophosphorylation" "light-powered chemical process" ].

Definition intermediate : list (str * str) :=
  [ entry "ubiquitous" "widespread";
    entry "proliferation" "growth";
    entry "pedagogical" "educational";
    entry "paradigms" "approaches";
    entry "methodologies" "techniques";
    entry "cognitive" "mental";
    entry "leverage" "utilize";
    entry "emergent" "emerging";
    entry "fundamental" "essential";
    entry "unprecedented" "extraordinary";
    entry "encapsulates" "represents";
    entry "epitomized" "represented";
    entry "intricate" "detailed";
    entry "biochemical" "biological chemical" ].

(** [Object.entries(vocabularyMappings[level] || {})]: the table has the
    two tiers below and nothing to list for any other level. *)
Definition vocabularyMappings (level : str) : list (str * str) :=
  if str_eqb level (lit "basic") then basic
  else if str_eqb level (lit "intermediate") then intermediate
  else [].

(** The right arrow U+2192 of the log entry. *)
Definition arrow : str := [8594%N].

(** The markup put in place of a matched word. *)
Definition simplified_span (complex simple : str) : str :=
  lit "<span class=" ++ quoted (lit "simplified-word")
    ++ lit " data-original=" ++ quoted complex
    ++ lit " title=" ++ quoted (lit "Original: " ++ complex)
    ++ lit ">" ++ simple ++ lit "</span>".

(** The log entry ["<complex>" -> "<simple>"]. *)
Definition replacement_entry (e : str * str) : str :=
  quoted (fst e) ++ lit " " ++ arrow ++ lit " " ++ quoted (snd e).

Record Simplified : Type := {
  content : str;
  replacements : list str
}.

(** The body of [Object.entries(mappings).forEach]. *)
Definition simplify_step (state : Simplified) (e : str * str) : Simplified :=
  if regex_test (fst e) (content state) then
    {| content := regex_replace (fst e) (simplified_span (fst e) (snd e))
                    (content state);
       replacements := replacements state ++ [replacement_entry e] |}
  else state.

(** simplifyVocabulary. *)
Definition simplifyVocabulary (content : str) (level : str) : Simplified :=
  fold_left simplify_step (vocabularyMappings level)
    {| content := content; replacements := [] |}.

(** The entry of the table whose term is the given word, letter case
    aside. *)
Definition lookup_term (table : list (str * str)) (w : str) : option (str * str) :=
  find (fun e => same_text (fst e) w) table.

(** What the simplifier leaves in place of one token of its input. *)
Definition simplify_token (table : list (str * str)) (t : token) : str :=
  match t with
  | Word w =>
      match lookup_term table w with
      | Some e => simplified_span (fst e) (snd e)
      | None => w
      end
  | Other c => [c]
  end.

(** The simplifier in closed form: every word of the content that is a
    term of the table, letter case aside, gives way to the markup of its
    entry, everything else stays, and the log has the entries of the
    terms that occur, in table order. *)
Definition whole_word_simplification (table : list (str * str)) (content : str)
    : Simplified :=
  {| content := flat_map (simplify_token table) (tokens content);
     replacements :=
       map replacement_entry
         (filter (fun e => term_occurs (fst e) content) table) |}.

(** No entry of [done] has the key as its term or as a word of its
    markup. *)
Definition unrelated (key : str) (done : list (str * str)) : Prop :=
  forall e', In e' done ->
    same_text key (fst e') = false
    /\ term_occurs key (simplified_span (fst e') (snd e')) = false.

(** The table can be applied entry after entry without one entry's
    markup being rewritten by a later one: the keys are single words,
    pairwise different, and no word of the markup of an entry is the key
    of a later entry. *)
Fixpoint independent (table : list (str * str)) : bool :=
  match table with
  | [] => true
  | e :: later =>
      word_key (fst e)
      && forallb (fun e' => negb (same_text (fst e') (fst e))
                            && negb (term_occurs (fst e')
                                       (simplified_span (fst e) (snd e))))
           later
      && independent later
  end.

End Vocabulary.

(** ** Analogy annotator (transformationService.js, addAnalogies) *)

Module Analogy.
Import Pattern.

Definition analogyMap : list (str * str) :=
  [ (lit "quantum mechanics",
     lit "Think of quantum mechanics like a coin that spins in the air - until it lands, it's both heads and tails at the same time.");
    (lit "photosynthesis",
     lit "Photosynthesis is like a plant's kitchen where sunlight is the energy source to cook sugar from air and water.");
    (lit "Renaissance",
     lit "The Renaissance was like Europe waking up from a long sleep and rediscovering the wisdom of ancient Greece and Rome.");
    (lit "biochemical process",
     lit "A biochemical process is like a recipe that living things follow to make the chemicals they need.");
    (lit "cognitive frameworks",
     lit "Cognitive frameworks are like different colored glasses - each person sees and understands the world through their own unique lens.") ].

(** The light-bulb sign U+1F4A1, a surrogate pair. *)
Definition bulb : str := [55357%N; 56481%N].

(** The marker appended to a matched concept. *)
Definition marker (analogy : str) : str :=
  lit " <span class=" ++ quoted (lit "analogy-tooltip")
    ++ lit " title=" ++ quoted analogy ++ lit ">" ++ bulb ++ lit "</span>".

(** The text put in place of a match: the key as the table spells it,
    then the marker. *)
Definition annotated (e : str * str) : str := fst e ++ marker (snd e).

Definition analogy_entry (e : str * str) : str :=
  lit "Added analogy for " ++ quoted (fst e).

Record Annotated : Type := {
  content : str;
  analogies : list str
}.

(** The body of [Object.entries(analogyMap).forEach]. *)
Definition annotate_step (state : Annotated) (e : str * str) : Annotated :=
  if regex_test (fst e) (content state) then
    {| content := regex_replace (fst e) (annotated e) (content state);
       analogies := analogies state ++ [analogy_entry e] |}
  else state.

(** addAnalogies. *)
Definition addAnalogies (content : str) : Annotated :=
  fold_left annotate_step analogyMap {| content := content; analogies := [] |}.

Definition photosynthesis : str * str :=
  (lit "photosynthesis",
   lit "Photosynthesis is like a plant's kitchen where sunlight is the energy source to cook sugar from air and water.").

End Analogy.

(** ** What annotating a text means

    The statement the annotator is compared with: whole-phrase
    occurrences of a concept, the text cut by them leftmost first, and
    the rounds of the table over the text. *)

Module AnnotationSpec.
Import Pattern.

(** The last code unit of a text, if it has one. *)
Definition last_unit (s : str) : option char := last (map Some s) None.

(** [m] lies between [before] and [after] as an occurrence of the
    concept: it is the concept, letter case aside, and there is a word
    boundary on either side of it. *)
Definition occurrence (key before m after : str) : Prop :=
  m <> []
  /\ same_text key m = true
  /\ at_boundary (last_unit before) (hd_error m) = true
  /\ at_boundary (last_unit m) (hd_error after) = true.

(** The text that follows [before], cut by the occurrences of the
    concept from left to right: where an occurrence starts it is taken
    whole and the cut goes on behind it; where none starts, one code
    unit is kept. *)
Inductive leftmost (key : str) : str -> str -> list segment -> Prop :=
| leftmost_end before :
    leftmost key before [] []
| leftmost_match before m after segs :
    occurrence key before m after ->
    leftmost key (before ++ m) after segs ->
    leftmost key before (m ++ after) (Matched m :: segs)
| leftmost_keep before c after segs :
    (forall m after', c :: after = m ++ after' -> ~ occurrence key before m after') ->
    leftmost key (before ++ [c]) after segs ->
    leftmost key before (c :: after) (Kept c :: segs).

(** The concept as the table spells it, followed by the marker: a span
    of class analogy-tooltip whose title is the analogy and whose text
    is the light-bulb sign U+1F4A1. *)
Definition concept_with_marker (concept analogy : str) : str :=
  concept ++ lit " <span class=" ++ quoted (lit "analogy-tooltip")
    ++ lit " title=" ++ quoted analogy ++ lit ">" ++ [55357%N; 56481%N]
    ++ lit "</span>".

(** The rounds of a table over a text, in table order, each on the text
    the rounds before it left: a concept with at least one occurrence
    has every occurrence replaced by the concept and its marker,
    everything else kept, and one log entry; a concept without
    occurrence changes neither text nor log. *)
Inductive annotated_by : list (str * str) -> str -> str -> list str -> Prop :=
| annotated_done text :
    annotated_by [] text text []
| annotated_hit e table text segs final log :
    leftmost (fst e) [] text segs ->
    (exists m, In (Matched m) segs) ->
    annotated_by table
      (flat_map (fun g => match g with
                          | Kept c => [c]
                          | Matched _ => concept_with_marker (fst e) (snd e)
                          end) segs)
      final log ->
    annotated_by (e :: table) text final
      ((lit "Added analogy for " ++ quoted (fst e)) :: log)
| annotated_miss e table text final log :
    (forall before m after,
       text = before ++ m ++ after -> ~ occurrence (fst e) before m after) ->
    annotated_by table text final log ->
    annotated_by (e :: table) text final log.

End AnnotationSpec.

(** ** Transformation orchestrator (transformationService.js, transformText) *)

Module Orchestrator.

(** The [metadata] of a successful result; [processingTime] (a clock
    reading) is left out. *)
Record TextMetadata : Type := {
  originalLength : nat;
  transformedLength : nat;
  transformations : list str;
  chunkingMaxLength : Z;
  vocabularyLevel : str;
  analogiesEnabled : bool
}.

(** The tagged result; [error] holds the caught exception (the source
    keeps its message) and is present exactly in an error result. *)
Record TextResult : Type := {
  status : str;
  error : option exn;
  transformedContent : str;
  metadata : option TextMetadata
}.

(** A count as a template literal prints it. *)
Definition show_count (n : nat) : str :=
  lit (NilEmpty.string_of_uint (Nat.to_uint n)).

(** The body of the [try] block.  The pair threaded through the three
    steps is [(transformedContent, transformationLog)]. *)
Definition transform_pipeline {dom : Dom} (fuel : nat) (content : str)
    (profile : CognitiveProfile) : outcome TextResult :=
  (* Step 1: vocabulary simplification *)
  t <- read (text profile) "vocabulary" ;;
  v <- read (vocabulary t) "simplificationLevel" ;;
  let step1 :=
    if negb (str_eqb (simplificationLevel v) (lit "none")) then
      let result := Vocabulary.simplifyVocabulary content (simplificationLevel v) in
      (Vocabulary.content result, Vocabulary.replacements result)
    else (content, []) in
  (* Step 2: paragraph chunking *)
  c <- read (chunking t) "strategy" ;;
  step2 <-
    (if str_eqb (strategy c) (lit "sentence_limit") then
       result <- Chunker.chunkParagraphs fuel (fst step1) (maxLength c) ;;
       Returns (Chunker.content result,
                snd step1 ++ [lit "Chunked " ++ show_count (Chunker.chunksCreated result)
                                ++ lit " paragraphs"])
     else Returns step1) ;;
  (* Step 3: analogies *)
  sm <- read (simplification profile) "useAnalogies" ;;
  let step3 :=
    if useAnalogies sm then
      let result := Analogy.addAnalogies (fst step2) in
      (Analogy.content result, snd step2 ++ Analogy.analogies result)
    else step2 in
  Returns
    {| status := lit "success";
       error := None;
       transformedContent := fst step3;
       metadata :=
         Some {| originalLength := List.length content;
                 transformedLength := List.length (fst step3);
                 transformations := snd step3;
                 chunkingMaxLength := maxLength c;
                 vocabularyLevel := simplificationLevel v;
                 analogiesEnabled := useAnalogies sm |} |}.

(** The result built by the [catch] block. *)
Definition error_result (e : exn) (content : str) : TextResult :=
  {| status := lit "error";
     error := Some e;
     transformedContent := content;
     metadata := None |}.

(** transformText: the pipeline inside [try], the fallback in [catch]. *)
Definition transformText {dom : Dom} (fuel : nat) (content : str)
    (profile : CognitiveProfile) : outcome TextResult :=
  match transform_pipeline fuel content profile with
  | Returns r => Returns r
  | Throws e => Returns (error_result e content)
  | OutOfFuel => OutOfFuel
  end.

(** The profile has every sub-object the pipeline reads through. *)
Definition complete (profile : CognitiveProfile) : Prop :=
  exists t v c sm,
    text profile = Some t /\ vocabulary t = Some v /\ chunking t = Some c
    /\ simplification profile = Some sm.

(** The sentence limit, where the pipeline gets to use it, is at least
    one. *)
Definition positive_limit (profile : CognitiveProfile) : Prop :=
  forall t c,
    text profile = Some t -> chunking t = Some c ->
    strategy c = lit "sentence_limit" -> (1 <= maxLength c)%Z.

End Orchestrator.

(** ** A profile of the schema without a vocabulary table *)

Module Levels.

(** A profile that validation.js accepts: the vocabulary level
    "advanced", the chunking strategy "none", no analogies. *)
Definition advanced_profile : CognitiveProfile :=
  {| text := Some {| chunking := Some {| strategy := lit "none"; maxLength := 4 |};
                     vocabulary := Some {| simplificationLevel := lit "advanced" |} |};
     simplification := Some {| useAnalogies := false;
                               summarization := Some {| defaultState := lit "expanded";
                                                        summaryLength := 25 |} |};
     visuals := Some {| distractionFilter := Some {| enabled := false;
                                                     sensitivity := lit "low" |} |};
     metadata := None;
     preferences := None |}.

(** A profile as a stored document can hold it: complete, with the
    sentence-limit strategy and a limit of 0. *)
Definition zero_limit_profile : CognitiveProfile :=
  {| text := Some {| chunking := Some {| strategy := lit "sentence_limit";
                                         maxLength := 0 |};
                     vocabulary := Some {| simplificationLevel := lit "basic" |} |};
     simplification := Some {| useAnalogies := true; summarization := None |};
     visuals := Some {| distractionFilter := Some {| enabled := false;
                                                     sensitivity := lit "medium" |} |};
     metadata := None;
     preferences := None |}.

End Levels.

(** ** The shape of a matched sentence *)

Module SentenceShape.
Import Chunker.

(** Text without terminators, then terminators: what the sentence
    pattern matches. *)
Definition terminated (m : str) : Prop :=
  exists body marks : str,
    m = body ++ marks
    /\ body <> [] /\ forallb (fun x => negb (is_terminator x)) body = true
    /\ marks <> [] /\ forallb is_terminator marks = true.

End SentenceShape.

(** ** Page transformation
       (transformationService.js: classifyImageContext,
        classifyIframeContext, getElementPosition, extractVisualElements,
        extractTextContent, transformPage) *)

Module Page.

(** A stored profile with its distraction filter on and without
    [chunking] settings. *)
Definition filter_without_chunking : CognitiveProfile :=
  {| text := Some {| chunking := None;
                     vocabulary := Some {| simplificationLevel := lit "basic" |} |};
     simplification := Some {| useAnalogies := true; summarization := None |};
     visuals := Some {| distractionFilter := Some {| enabled := true;
                                                     sensitivity := lit "high" |} |};
     metadata := None;
     preferences := None |}.

(** [toLowerCase] on one code unit, exact where the result has ASCII
    letters: the ASCII capitals, the Kelvin sign U+212A (which gives
    "k") and U+0130 (which gives "i" followed by U+0307).  Other letters
    outside ASCII give code units outside ASCII and are kept as they
    are, which decides every test for an ASCII phrase as the source
    does. *)
Definition lower_units (c : char) : str :=
  if (65 <=? c)%N && (c <=? 90)%N then [(c + 32)%N]
  else if (c =? 8490)%N then [107%N]
  else if (c =? 304)%N then [105%N; 775%N]
  else [c].

Definition toLowerCase (s : str) : str := flat_map lower_units s.

(** What [element.closest(selector)] finds for the selectors of
    getElementPosition. *)
Record Closest : Type := {
  aside_or_sidebar : bool;     (* closest('aside, .sidebar') *)
  header : bool;               (* closest('header') *)
  footer : bool;               (* closest('footer') *)
  article_or_main : bool       (* closest('article, main') *)
}.

(** An [img] element as the classifier reads it: the strings its
    properties [src], [alt] and [className] hold (empty where the
    attribute is missing, so the optional chaining and the [|| '']
    change nothing) and what [closest] finds.  [width] and [height] only
    go into the [size] the classifier never reads. *)
Record Image : Type := {
  src : str;
  alt : str;
  className : str;
  closest_article : bool;      (* img.closest('article') *)
  img_closest : Closest
}.

Record Iframe : Type := {
  iframe_src : str;
  iframe_closest : Closest
}.

(** The elements of a document that extractVisualElements visits, in
    document order per kind. *)
Record Elements : Type := {
  images : list Image;
  iframes : list Iframe;
  asides : nat
}.

(** classifyImageContext. *)
Definition classifyImageContext (img : Image) : str :=
  let src := toLowerCase (src img) in
  let alt := toLowerCase (alt img) in
  let className := toLowerCase (className img) in
  if includes src (lit "ad") || includes className (lit "ad")
  then lit "sidebar_advertisement"
  else if includes src (lit "stock") || includes alt (lit "decorative")
  then lit "decorative_stock_photo"
  else if closest_article img || includes alt (lit "figure")
  then lit "main_article_figure"
  else lit "general_image".

(** classifyIframeContext. *)
Definition classifyIframeContext (iframe : Iframe) : str :=
  let src := toLowerCase (iframe_src iframe) in
  if includes src (lit "youtube") || includes src (lit "vimeo")
  then lit "educational_content"
  else if includes src (lit "ads") || includes src (lit "doubleclick")
  then lit "sidebar_advertisement"
  else lit "embedded_content".

(** getElementPosition. *)
Definition getElementPosition (element : Closest) : str :=
  if aside_or_sidebar element then lit "sidebar"
  else if header element then lit "header"
  else if footer element then lit "footer"
  else if article_or_main element then lit "main"
  else lit "inline".

(** The elements of a list with their [forEach] index. *)
Definition indexed {A : Type} (l : list A) : list (nat * A) :=
  combine (seq 0 (List.length l)) l.

(** The template [`${prefix}${index}`]. *)
Definition element_id (prefix : string) (index : nat) : str :=
  lit prefix ++ Orchestrator.show_count index.

Definition image_element (entry : nat * Image) : Visual.VisualElement :=
  {| Visual.id := element_id "img-" (fst entry);
     Visual.type := lit "image";
     Visual.semantic_context := classifyImageContext (snd entry);
     Visual.position := Some (getElementPosition (img_closest (snd entry))) |}.

Definition iframe_element (entry : nat * Iframe) : Visual.VisualElement :=
  {| Visual.id := element_id "iframe-" (fst entry);
     Visual.type := lit "iframe";
     Visual.semantic_context := classifyIframeContext (snd entry);
     Visual.position := Some (getElementPosition (iframe_closest (snd entry))) |}.

Definition aside_element (index : nat) : Visual.VisualElement :=
  {| Visual.id := element_id "aside-" index;
     Visual.type := lit "aside";
     Visual.semantic_context := lit "sidebar_content";
     Visual.position := Some (lit "sidebar") |}.

(** extractVisualElements: images, then iframes, then asides. *)
Definition extractVisualElements (document : Elements) : list Visual.VisualElement :=
  map image_element (indexed (images document))
  ++ map iframe_element (indexed (iframes document))
  ++ map aside_element (seq 0 (asides document)).

(** The document side of transformPage, left to jsdom. *)
Class PageDom : Type := {
  (** [node.textContent] for each node of
      [document.querySelectorAll('p, h1, h2, h3, h4, h5, h6, div, span')],
      in document order.  A node comes after its ancestors in that
      order, and an assignment to an ancestor's [innerHTML] detaches the
      node with its content, so the text a node has when the loop gets
      to it is the text it had in the parsed document. *)
  selected_texts : str -> list str;
  (** The [img], [iframe] and [aside] elements of the document after
      [node.innerHTML = html] was assigned to the nodes that
      extractTextContent keeps, one entry per kept node: [Some html]
      where the assignment was made. *)
  elements_after : str -> list (option str) -> Elements;
  (** [dom.serialize()] after these assignments and after
      applyVisualActions ran with the given actions. *)
  serialize : str -> list (option str) -> list Visual.VisualAction -> str
}.

(** extractTextContent: the selected nodes whose trimmed text is not
    empty. *)
Definition extractTextContent {page : PageDom} (html : str) : list str :=
  filter (fun t => (0 <? List.length (Chunker.trim t))%nat) (selected_texts html).

(** The body of [textNodes.forEach], threaded over the nodes with the
    counter [textTransformations]: for each node the markup assigned to
    its [innerHTML], if any. *)
Fixpoint forEach_node {dom : Dom} (fuel : nat) (profile : CognitiveProfile)
    (nodes : list str) (textTransformations : nat)
    : outcome (list (option str) * nat) :=
  match nodes with
  | [] => Returns ([], textTransformations)
  | originalText :: rest =>
      transformed <- Orchestrator.transformText fuel originalText profile ;;
      if str_eqb (Orchestrator.status transformed) (lit "success") then
        r <- forEach_node fuel profile rest (S textTransformations) ;;
        Returns (Some (Orchestrator.transformedContent transformed) :: fst r, snd r)
      else
        r <- forEach_node fuel profile rest textTransformations ;;
        Returns (None :: fst r, snd r)
  end.

(** The [metadata] of a successful page result; [processingTime] is
    left out. *)
Record PageMetadata : Type := {
  textTransformations : nat;
  visualTransformations : nat;
  profile_chunking : option Chunking;
  profile_vocabulary : str;
  profile_analogies : bool;
  profile_distractionFilter : option DistractionFilter
}.

Record PageResult : Type := {
  status : str;
  error : option exn;
  transformedHtml : str;
  metadata : option PageMetadata
}.

(** The body of the [try] block of transformPage. *)
Definition page_pipeline {dom : Dom} {page : PageDom} (fuel : nat)
    (htmlContent : str) (profile : CognitiveProfile) : outcome PageResult :=
  r <- forEach_node fuel profile (extractTextContent htmlContent) 0 ;;
  let visualElements := extractVisualElements (elements_after htmlContent (fst r)) in
  visualAnalysis <- Visual.analyzeVisuals visualElements profile ;;
  let applied :=
    if str_eqb (Visual.status visualAnalysis) (lit "success")
    then Visual.visualActions visualAnalysis else [] in
  let transformedHtml := serialize htmlContent (fst r) applied in
  t <- read (text profile) "chunking" ;;
  v <- read (vocabulary t) "simplificationLevel" ;;
  sm <- read (simplification profile) "useAnalogies" ;;
  vis <- read (visuals profile) "distractionFilter" ;;
  Returns
    {| status := lit "success";
       error := None;
       transformedHtml := transformedHtml;
       metadata :=
         Some {| textTransformations := snd r;
                 visualTransformations :=
                   List.length (Visual.visualActions visualAnalysis);
                 profile_chunking := chunking t;
                 profile_vocabulary := simplificationLevel v;
                 profile_analogies := useAnalogies sm;
                 profile_distractionFilter := distractionFilter vis |} |}.

(** transformPage: the pipeline inside [try], the fallback in [catch]. *)
Definition transformPage {dom : Dom} {page : PageDom} (fuel : nat)
    (htmlContent : str) (profile : CognitiveProfile) : outcome PageResult :=
  match page_pipeline fuel htmlContent profile with
  | Returns r => Returns r
  | Throws e =>
      Returns {| status := lit "error";
                 error := Some e;
                 transformedHtml := htmlContent;
                 metadata := None |}
  | OutOfFuel => OutOfFuel
  end.

(** The profile has every sub-object the page pipeline reads through;
    the chunking settings are not among them. *)
Definition page_ready (profile : CognitiveProfile) : Prop :=
  exists t v sm vis df,
    text profile = Some t /\ vocabulary t = Some v
    /\ simplification profile = Some sm
    /\ visuals profile = Some vis /\ distractionFilter vis = Some df.

(** A document of three selected nodes (one of them blank), one image
    and one aside, whatever the markup. *)
Definition two_node_page : PageDom :=
  {| selected_texts := fun _ => [lit "A ubiquitous thing."; lit "   "; lit "Plain."];
     elements_after := fun _ _ =>
       {| images := [ {| src := lit "/uploads/figure-1.png";
                         alt := lit "Figure 1";
                         className := [];
                         closest_article := true;
                         img_closest := {| aside_or_sidebar := false;
                                           header := false;
                                           footer := false;
                                           article_or_main := true |} |} ];
          iframes := [];
          asides := 1 |};
     serialize := fun html _ _ => html |}.

End Page.

(** ** Demo authentication (config/aws.js, mockAuth, requireRole) *)

Module Auth.

Definition validDemoUsers : list str :=
  [ lit "alex-chen-2025"; lit "demo-user-2025"; lit "test-student-2025";
    lit "dr-lena-hassen-2025" ].

(** What a request holds under a name: nothing, a string, or (for a
    query parameter written with brackets or given twice) an array or
    object. *)
Inductive value : Type :=
| Undefined
| Text (s : str)
| Structured.

Definition truthy (v : value) : bool :=
  match v with
  | Undefined => false
  | Text [] => false
  | Text (_ :: _) => true
  | Structured => true
  end.

(** [a || b]. *)
Definition or_else (a b : value) : value := if truthy a then a else b.

(** [validDemoUsers.includes(userId)]: strict equality with one of the
    four strings. *)
Definition is_demo_user (userId : value) : bool :=
  match userId with
  | Text s => existsb (str_eqb s) validDemoUsers
  | _ => false
  end.

Record User : Type := {
  id : str;
  role : str;
  createdAt : str
}.

(** mockAuth: the user attached to the request, from the [x-user-id]
    header, the [userId] query parameter and the [userId] route
    parameter. *)
Definition mockAuth (header query param : value) : User :=
  let userId :=
    or_else (or_else (or_else header query) param) (Text (lit "alex-chen-2025")) in
  let userId :=
    match userId with
    | Text s => if is_demo_user userId then s else lit "alex-chen-2025"
    | _ => lit "alex-chen-2025"
    end in
  {| id := userId;
     role := if includes userId (lit "dr-") then lit "admin" else lit "student";
     createdAt := lit "2025-01-01T00:00:00.000Z" |}.

(** requireRole(roles): [true] where the middleware calls [next()],
    [false] where it answers 403. *)
Definition requireRole (roles : list str) (user : option User) : bool :=
  match user with
  | None => false
  | Some u => existsb (str_eqb (role u)) roles
  end.

End Auth.

(** ** Sentence breaks of the local fallback
       (claudeSimplificationService, fallbackSimplification: the
        replacement of line 380) *)

Module LocalFallback.

(** [s.replace(/([.!?])\s+/g, '$1\n\n')]: a terminator followed by white
    space keeps the terminator and gets two line feeds in place of the
    whole run of white space.  [pending] holds while the run of a match
    is being passed over. *)
Fixpoint break_sentences (pending : bool) (s : str) : str :=
  match s with
  | [] => []
  | c :: rest =>
      if pending && Chunker.is_space c then break_sentences true rest
      else if Chunker.is_terminator c
              && match rest with
                 | w :: _ => Chunker.is_space w
                 | [] => false
                 end
      then c :: 10%N :: 10%N :: break_sentences true rest
      else c :: break_sentences false rest
  end.

End LocalFallback.

(* ===================================================================== *)
(** * Part II. Properties                                                 *)
(* ===================================================================== *)

(** ** Strings *)

Lemma char_eqb_eq (a b : char) : char_eqb a b = true <-> a = b.
Proof. apply N.eqb_eq. Qed.

Lemma str_eqb_eq (a b : str) : str_eqb a b = true <-> a = b.
Proof.
  revert b; induction a as [|x a IH]; intros [|y b]; simpl; split;
    try congruence; try reflexivity.
  - rewrite andb_true_iff, char_eqb_eq, IH. intros [-> ->]; reflexivity.
  - intros E; injection E as -> ->.
    rewrite andb_true_iff, char_eqb_eq, IH; split; reflexivity.
Qed.

Lemma str_eqb_refl (a : str) : str_eqb a a = true.
Proof. apply str_eqb_eq; reflexivity. Qed.

Lemma str_eqb_neq (a b : str) : str_eqb a b = false <-> a <> b.
Proof.
  rewrite <- str_eqb_eq. destruct (str_eqb a b); split; congruence.
Qed.

Lemma Forall2_map_self (A B : Type) (f : A -> B) (P : A -> B -> Prop) (l : list A) :
  (forall x, In x l -> P x (f x)) -> Forall2 P l (map f l).
Proof.
  induction l as [|x l IH]; simpl; intros H; constructor.
  - apply H; left; reflexivity.
  - apply IH; intros y Hy; apply H; right; exact Hy.
Qed.

(** ** Visual classifier *)

Module VisualFacts.
Import Visual.

(** Evaluate comparisons between two literals of the source. *)
Ltac eval_lits :=
  repeat match goal with
  | |- context [str_eqb (lit ?a) (lit ?b)] =>
      let v := eval vm_compute in (str_eqb (lit a) (lit b)) in
      change (str_eqb (lit a) (lit b)) with v
  end.

(** Turn (dis)equalities of the context into values of [str_eqb]. *)
Ltac settle_eqb :=
  repeat match goal with
  | H : ?x <> ?y |- context [str_eqb ?x ?y] =>
      rewrite (proj2 (str_eqb_neq x y) H)
  | |- context [str_eqb ?x ?x] => rewrite (str_eqb_refl x)
  end.

Lemma analyzeVisuals_disabled elements profile df :
  has_filter profile df -> enabled df = false ->
  exists r, analyzeVisuals elements profile = Returns r /\
    visualActions r =
      map (fun el => {| va_id := id el; va_action := keep_visible;
                        va_reasoning := None |}) elements.
Proof.
  intros (v & Hv & Hdf) Hoff. unfold analyzeVisuals.
  rewrite Hv; simpl. rewrite Hdf, Hoff; simpl.
  eexists; split; reflexivity.
Qed.

Lemma analyzeVisuals_enabled elements profile df :
  has_filter profile df -> enabled df = true ->
  exists r, analyzeVisuals elements profile = Returns r /\
    visualActions r = map (classify_element (sensitivity df)) elements.
Proof.
  intros (v & Hv & Hdf) Hon. unfold analyzeVisuals.
  rewrite Hv; simpl. rewrite Hdf, Hon; simpl.
  eexists; split; reflexivity.
Qed.

Lemma decide_action_essential el sens :
  is_essential (semantic_context el) -> decide_action el sens = keep_visible.
Proof.
  unfold decide_action. intros [E | E]; rewrite E; eval_lits; reflexivity.
Qed.

Lemma not_advertising_eqb ctx :
  ~ is_advertising ctx ->
  str_eqb ctx (lit "sidebar_advertisement")
  || str_eqb ctx (lit "popup_advertisement")
  || str_eqb ctx (lit "newsletter_signup") = false.
Proof.
  unfold is_advertising; intros H.
  rewrite !orb_false_iff, !str_eqb_neq; tauto.
Qed.

Lemma not_essential_eqb ctx :
  ~ is_essential ctx ->
  str_eqb ctx (lit "main_article_figure")
  || str_eqb ctx (lit "educational_content") = false.
Proof.
  unfold is_essential; intros H.
  rewrite !orb_false_iff, !str_eqb_neq; tauto.
Qed.

Lemma decide_action_table el sens :
  decision_table is_essential sens el (decide_action el sens).
Proof.
  unfold decision_table, decide_action.
  destruct el as [i t ctx pos]; simpl. split; [|split].
  - intros Hadv.
    assert (str_eqb ctx (lit "sidebar_advertisement")
            || str_eqb ctx (lit "popup_advertisement")
            || str_eqb ctx (lit "newsletter_signup") = true) as ->.
    { destruct Hadv as [-> | [-> | ->]]; vm_compute; reflexivity. }
    split.
    + intros ->; eval_lits; reflexivity.
    + intros [-> | ->]; eval_lits; reflexivity.
  - intros ->; eval_lits; simpl. repeat split; intros ->; eval_lits; reflexivity.
  - intros Hadv Hdec Hess.
    rewrite (not_advertising_eqb Hadv), (not_essential_eqb Hess).
    rewrite (proj2 (str_eqb_neq _ _) Hdec).
    split.
    + intros [-> ->]. rewrite !str_eqb_refl; reflexivity.
    + intros Hn.
      destruct (str_eqb sens (lit "high")) eqn:Es; simpl; [|reflexivity].
      destruct pos as [p|]; [|reflexivity].
      destruct (str_eqb p (lit "sidebar")) eqn:Ep; [|reflexivity].
      apply str_eqb_eq in Es, Ep; subst. exfalso; apply Hn; split; reflexivity.
Qed.

(** C1. For every element list and every profile whose distraction filter
    is present (enabled or not, with any sensitivity, so in particular
    low, medium and high), analyzeVisuals returns one action per element,
    in order and under the element's id, and every element whose
    semantic context is main_article_figure or educational_content gets
    keep_visible (hence neither hide nor a fade). *)
Theorem essential_content_is_always_kept :
  forall (elements : list VisualElement) (profile : CognitiveProfile)
         (df : DistractionFilter),
    has_filter profile df ->
    exists r,
      analyzeVisuals elements profile = Returns r /\
      Forall2 (fun el a =>
                 va_id a = id el /\
                 (is_essential (semantic_context el) -> va_action a = keep_visible))
              elements (visualActions r).
Proof.
  intros elements profile df Hf.
  destruct (enabled df) eqn:Hen.
  - destruct (analyzeVisuals_enabled elements Hf Hen) as (r & Hr & Ha).
    exists r; split; [exact Hr|]. rewrite Ha.
    apply Forall2_map_self; intros el _; simpl; split; [reflexivity|].
    apply decide_action_essential.
  - destruct (analyzeVisuals_disabled elements Hf Hen) as (r & Hr & Ha).
    exists r; split; [exact Hr|]. rewrite Ha.
    apply Forall2_map_self; intros el _; simpl; split; reflexivity.
Qed.

Lemma essential_content_is_always_kept_witness :
  exists r,
    analyzeVisuals [sidebar_figure] (profile_with_filter true (lit "high")) = Returns r /\
    Forall2 (fun el a =>
               va_id a = id el /\
               (is_essential (semantic_context el) -> va_action a = keep_visible))
            [sidebar_figure] (visualActions r).
Proof.
  apply (@essential_content_is_always_kept [sidebar_figure]
           (profile_with_filter true (lit "high"))
           {| enabled := true; sensitivity := lit "high" |}).
  eexists; split; reflexivity.
Defined.

(** C6 as stated fails: a main_article_figure element positioned in the
    sidebar is none of the advertising contexts and not
    decorative_stock_photo, yet under an enabled filter of high
    sensitivity its action is keep_visible, not
    fade_to_40_percent_opacity. *)
Lemma catch_all_row_skips_essential_content :
  ~ is_advertising (semantic_context sidebar_figure) /\
  semantic_context sidebar_figure <> lit "decorative_stock_photo" /\
  position sidebar_figure = Some (lit "sidebar") /\
  exists r,
    analyzeVisuals [sidebar_figure] (profile_with_filter true (lit "high")) = Returns r /\
    map va_action (visualActions r) = [keep_visible] /\
    ~ decision_table (fun _ => False) (lit "high") sidebar_figure keep_visible.
Proof.
  assert (Hadv : ~ is_advertising (semantic_context sidebar_figure)).
  { intros [H | [H | H]]; apply str_eqb_eq in H; vm_compute in H; discriminate. }
  assert (Hdec : semantic_context sidebar_figure <> lit "decorative_stock_photo").
  { intros H; apply str_eqb_eq in H; vm_compute in H; discriminate. }
  repeat split; try assumption.
  eexists; split; [reflexivity|]. split; [reflexivity|].
  intros (_ & _ & H).
  destruct (H Hadv Hdec (fun f => f)) as [H40 _].
  discriminate H40. split; reflexivity.
Qed.

(** C6 (amended). With the distraction filter enabled, each element's
    action follows the decision table: advertising contexts give hide
    under high and fade_to_30_percent_opacity under low or medium;
    decorative_stock_photo gives fade_to_20 under high, fade_to_50 under
    medium and keep_visible under low; any other context except
    main_article_figure and educational_content gives
    fade_to_40_percent_opacity when sensitivity is high and position is
    sidebar, and keep_visible otherwise. *)
Theorem enabled_filter_follows_decision_table :
  forall (elements : list VisualElement) (profile : CognitiveProfile)
         (df : DistractionFilter),
    has_filter profile df -> enabled df = true ->
    exists r,
      analyzeVisuals elements profile = Returns r /\
      Forall2 (fun el a =>
                 va_id a = id el /\
                 decision_table is_essential (sensitivity df) el (va_action a))
              elements (visualActions r).
Proof.
  intros elements profile df Hf Hen.
  destruct (analyzeVisuals_enabled elements Hf Hen) as (r & Hr & Ha).
  exists r; split; [exact Hr|]. rewrite Ha.
  apply Forall2_map_self; intros el _; simpl; split; [reflexivity|].
  apply decide_action_table.
Qed.

Lemma enabled_filter_follows_decision_table_witness :
  exists r,
    analyzeVisuals [sidebar_ad; sidebar_figure]
      (profile_with_filter true (lit "low")) = Returns r /\
    Forall2 (fun el a =>
               va_id a = id el /\
               decision_table is_essential (lit "low") el (va_action a))
            [sidebar_ad; sidebar_figure] (visualActions r).
Proof.
  apply (@enabled_filter_follows_decision_table [sidebar_ad; sidebar_figure]
           (profile_with_filter true (lit "low"))
           {| enabled := true; sensitivity := lit "low" |}).
  - eexists; split; reflexivity.
  - reflexivity.
Defined.

(** C7. If the profile's distractionFilter.enabled is false then, for
    every element list, analyzeVisuals returns one action per element and
    every one of them is keep_visible. *)
Theorem disabled_filter_keeps_everything :
  forall (elements : list VisualElement) (profile : CognitiveProfile)
         (df : DistractionFilter),
    has_filter profile df -> enabled df = false ->
    exists r,
      analyzeVisuals elements profile = Returns r /\
      map va_id (visualActions r) = map id elements /\
      Forall (fun a => va_action a = keep_visible) (visualActions r).
Proof.
  intros elements profile df Hf Hoff.
  destruct (analyzeVisuals_disabled elements Hf Hoff) as (r & Hr & Ha).
  exists r; split; [exact Hr|]. rewrite Ha. split.
  - rewrite map_map; reflexivity.
  - apply Forall_forall; intros a Hin.
    apply in_map_iff in Hin; destruct Hin as (el & <- & _); reflexivity.
Qed.

Lemma disabled_filter_keeps_everything_witness :
  exists r,
    analyzeVisuals [sidebar_ad; sidebar_figure]
      (profile_with_filter false (lit "high")) = Returns r /\
    map va_id (visualActions r) = map id [sidebar_ad; sidebar_figure] /\
    Forall (fun a => va_action a = keep_visible) (visualActions r).
Proof.
  apply (@disabled_filter_keeps_everything [sidebar_ad; sidebar_figure]
           (profile_with_filter false (lit "high"))
           {| enabled := false; sensitivity := lit "high" |}).
  - eexists; split; reflexivity.
  - reflexivity.
Defined.

(** C8 as stated fails: with the filter disabled the returned entry for
    the sample sidebar advertisement has an id and an action but no
    reasoning. *)
Lemma disabled_filter_gives_no_reasoning :
  exists r,
    analyzeVisuals [sidebar_ad] (profile_with_filter false (lit "high")) = Returns r /\
    visualActions r =
      [ {| va_id := lit "sidebar-ad-1"; va_action := keep_visible;
           va_reasoning := None |} ].
Proof. eexists; split; reflexivity. Qed.

(** C8 (amended). Every VisualAction returned with the distraction filter
    enabled carries, next to its id and action, the reasoning string
    getActionReasoning builds for its element, action and sensitivity;
    with the filter disabled the entries carry an id and an action only,
    and no reasoning. *)
Theorem reasoning_present_iff_filter_enabled :
  forall (elements : list VisualElement) (profile : CognitiveProfile)
         (df : DistractionFilter),
    has_filter profile df ->
    exists r,
      analyzeVisuals elements profile = Returns r /\
      Forall2 (fun el a =>
                 va_id a = id el /\
                 va_reasoning a =
                   if enabled df
                   then Some (getActionReasoning el (va_action a) (sensitivity df))
                   else None)
              elements (visualActions r).
Proof.
  intros elements profile df Hf.
  destruct (enabled df) eqn:Hen.
  - destruct (analyzeVisuals_enabled elements Hf Hen) as (r & Hr & Ha).
    exists r; split; [exact Hr|]. rewrite Ha.
    apply Forall2_map_self; intros el _; simpl; split; reflexivity.
  - destruct (analyzeVisuals_disabled elements Hf Hen) as (r & Hr & Ha).
    exists r; split; [exact Hr|]. rewrite Ha.
    apply Forall2_map_self; intros el _; simpl; split; reflexivity.
Qed.

Lemma reasoning_present_iff_filter_enabled_witness :
  exists r,
    analyzeVisuals [sidebar_ad] (profile_with_filter true (lit "medium")) = Returns r /\
    Forall2 (fun el a =>
               va_id a = id el /\
               va_reasoning a =
                 Some (getActionReasoning el (va_action a) (lit "medium")))
            [sidebar_ad] (visualActions r).
Proof.
  apply (@reasoning_present_iff_filter_enabled [sidebar_ad]
           (profile_with_filter true (lit "medium"))
           {| enabled := true; sensitivity := lit "medium" |}).
  eexists; split; reflexivity.
Defined.

End VisualFacts.

(** ** Substring search *)

Lemma starts_with_spec (p s : str) :
  starts_with p s = true <-> exists rest, s = p ++ rest.
Proof.
  revert s; induction p as [|x p IH]; intros s; simpl.
  - split; [intros _; exists s; reflexivity | reflexivity].
  - destruct s as [|y s].
    + split; [discriminate | intros (rest & E); discriminate E].
    + rewrite andb_true_iff, char_eqb_eq, IH. split.
      * intros (-> & rest & ->); exists rest; reflexivity.
      * intros (rest & E); injection E as -> ->. split; [reflexivity|].
        exists rest; reflexivity.
Qed.

Lemma includes_spec (s p : str) :
  includes s p = true <-> exists before after, s = before ++ p ++ after.
Proof.
  induction s as [|c s IH].
  - simpl. rewrite orb_false_r, starts_with_spec. split.
    + intros (rest & E); exists [], rest; exact E.
    + intros (before & after & E).
      destruct before as [|b before]; [|discriminate E].
      exists after; exact E.
  - cbn [includes]. rewrite orb_true_iff, starts_with_spec, IH. split.
    + intros [(rest & E) | (before & after & E)].
      * exists [], rest; exact E.
      * exists (c :: before), after; rewrite E; reflexivity.
    + intros (before & after & E). destruct before as [|b before].
      * left; exists after; exact E.
      * right; injection E as -> ->. exists before, after; reflexivity.
Qed.

(** ** Profile generation fallback *)

Module FallbackFacts.
Import Fallback.

Lemma answer_includes_mentions (answer : option str) (phrase : string) :
  answer_includes answer phrase = true <-> mentions answer phrase.
Proof.
  unfold answer_includes, mentions. destruct answer as [s|].
  - rewrite includes_spec. unfold toLowerCase. split.
    + intros (before & after & E).
      apply map_eq_app in E; destruct E as (b0 & r0 & -> & Hb & Hr).
      apply map_eq_app in Hr; destruct Hr as (m0 & a0 & -> & Hm & Ha).
      exists (b0 ++ m0 ++ a0), b0, m0, a0. repeat split. exact Hm.
    + intros (s0 & before & m & after & E & -> & Hm).
      injection E as ->. rewrite !map_app, Hm.
      eexists _, _; reflexivity.
  - split; [discriminate|]. intros (s & b & m & a & E & _); discriminate E.
Qed.

Lemma answer_includes_not_mentions (answer : option str) (phrase : string) :
  answer_includes answer phrase = false <-> ~ mentions answer phrase.
Proof.
  rewrite <- answer_includes_mentions.
  destruct (answer_includes answer phrase); split; congruence.
Qed.

(** C10 as stated fails: an answer with the phrase "completely derail"
    contains neither "very distracted" nor "distract", so the claim sends
    it to the default (disabled, medium); the generator returns enabled
    with sensitivity high. *)
Lemma completely_derail_gives_high :
  ~ mentions (q2_distractions derail_answers) "very distracted" /\
  ~ mentions (q2_distractions derail_answers) "distract" /\
  derived_filter (generateMockProfile [] [] derail_answers)
    = Some {| enabled := true; sensitivity := lit "high" |} /\
  derived_filter (generateMockProfile [] [] derail_answers)
    <> Some {| enabled := false; sensitivity := lit "medium" |}.
Proof.
  repeat split.
  - apply answer_includes_not_mentions; vm_compute; reflexivity.
  - apply answer_includes_not_mentions; vm_compute; reflexivity.
  - vm_compute; discriminate.
Qed.

(** C10 (amended). For every onboarding answer set: if the distraction
    answer contains "very distracted" or "completely derail" (letter case
    aside) the generated profile has distractionFilter.enabled = true and
    sensitivity = "high"; if it contains "distract" but neither of those
    two phrases it has enabled = true and sensitivity = "medium"; if it
    contains neither "distract" nor "completely derail" (in particular
    when the answer is missing) the filter keeps its default, disabled
    with sensitivity "medium". *)
Theorem distraction_answer_tiers_the_filter :
  forall (created updated : str) (answers : OnboardingAnswers),
    let q2 := q2_distractions answers in
    let filter := derived_filter (generateMockProfile created updated answers) in
    (mentions q2 "very distracted" \/ mentions q2 "completely derail" ->
       filter = Some {| enabled := true; sensitivity := lit "high" |})
    /\
    (mentions q2 "distract" ->
     ~ mentions q2 "very distracted" -> ~ mentions q2 "completely derail" ->
       filter = Some {| enabled := true; sensitivity := lit "medium" |})
    /\
    (~ mentions q2 "distract" -> ~ mentions q2 "completely derail" ->
       filter = Some {| enabled := false; sensitivity := lit "medium" |}).
Proof.
  intros created updated answers q2 filter.
  unfold filter, derived_filter, generateMockProfile; cbn [visuals distractionFilter].
  fold q2. repeat split.
  - intros H.
    assert (answer_includes q2 "very distracted"
            || answer_includes q2 "completely derail" = true) as ->.
    { rewrite orb_true_iff, !answer_includes_mentions; exact H. }
    reflexivity.
  - intros Hd Hv Hc.
    apply answer_includes_mentions in Hd.
    apply answer_includes_not_mentions in Hv, Hc.
    rewrite Hv, Hc, Hd; reflexivity.
  - intros Hd Hc.
    assert (Hv : ~ mentions q2 "very distracted").
    { intros (s & b & m & a & E & -> & Hm). apply Hd.
      change (lit "very distracted") with (lit "very " ++ lit "distract" ++ lit "ed") in Hm.
      unfold toLowerCase in Hm.
      apply map_eq_app in Hm; destruct Hm as (m1 & r & -> & H1 & Hr).
      apply map_eq_app in Hr; destruct Hr as (m2 & m3 & -> & H2 & H3).
      exists ((b ++ m1) ++ m2 ++ (m3 ++ a)), (b ++ m1), m2, (m3 ++ a).
      repeat split; [|exact H2].
      rewrite E; f_equal. rewrite <- !app_assoc; reflexivity. }
    apply answer_includes_not_mentions in Hd, Hv, Hc.
    rewrite Hv, Hc, Hd; reflexivity.
Qed.

Lemma distraction_answer_tiers_the_filter_witness :
  derived_filter
    (generateMockProfile [] []
       (answers_about_distraction "I get VERY distracted by moving banners."))
  = Some {| enabled := true; sensitivity := lit "high" |}.
Proof.
  apply (distraction_answer_tiers_the_filter [] []
           (answers_about_distraction "I get VERY distracted by moving banners.")).
  left. apply answer_includes_mentions. vm_compute. reflexivity.
Defined.

End FallbackFacts.

(** ** Sentence splitter and paragraph chunker *)

Module ChunkerFacts.
Import Chunker.

Lemma splitIntoSentences_nonempty (text : str) :
  (1 <= List.length (splitIntoSentences text))%nat.
Proof.
  unfold splitIntoSentences.
  destruct (match_sentences [] [] text); simpl; lia.
Qed.

(** Inside the array and with a positive width, [slice] is [firstn] after
    [skipn]. *)
Lemma slice_window (A : Type) (xs : list A) (i width : Z) :
  (0 <= i <= Z.of_nat (List.length xs))%Z -> (0 <= width)%Z ->
  slice xs i (i + width) = firstn (Z.to_nat width) (skipn (Z.to_nat i) xs).
Proof.
  intros Hi Hw. unfold slice.
  destruct (Z.ltb_spec i 0) as [?|_]; [lia|].
  destruct (Z.ltb_spec (i + width) 0) as [?|_]; [lia|].
  rewrite (Z.min_l i) by lia.
  set (rest := skipn (Z.to_nat i) xs).
  assert (Hlen : List.length rest = (List.length xs - Z.to_nat i)%nat)
    by (unfold rest; apply length_skipn).
  destruct (Z.le_ge_cases (i + width) (Z.of_nat (List.length xs))) as [Hle|Hge].
  - rewrite Z.min_l by lia. f_equal; lia.
  - rewrite Z.min_r by lia.
    rewrite !firstn_all2 by lia. reflexivity.
Qed.

Lemma ceil_div_zero (d : Z) : (1 <= d)%Z -> ceil_div 0 d = 0%Z.
Proof. intros Hd. unfold ceil_div. apply Z.div_small; lia. Qed.

Lemma ceil_div_step (n d : Z) :
  (1 <= d)%Z -> (1 <= n)%Z ->
  ceil_div n d = (1 + ceil_div (Z.max 0 (n - d)) d)%Z.
Proof.
  intros Hd Hn. unfold ceil_div.
  destruct (Z.le_ge_cases n d) as [Hle|Hge].
  - rewrite Z.max_l by lia.
    replace (n + d - 1)%Z with (1 * d + (n - 1))%Z by lia.
    rewrite Z.div_add_l by lia.
    rewrite (Z.div_small (n - 1)) by lia.
    rewrite (Z.div_small (0 + d - 1)) by lia. reflexivity.
  - rewrite Z.max_r by lia.
    replace (n + d - 1)%Z with (1 * d + (n - d + d - 1))%Z by lia.
    rewrite Z.div_add_l by lia. reflexivity.
Qed.

(** The loop, started at an index [i >= 0] with a limit of at least one
    and more fuel than sentences left, returns the markup of consecutive
    groups that make up the sentences from [i] on. *)
Lemma chunk_loop_groups (sentences : list str) (maxSentences : Z) :
  (1 <= maxSentences)%Z ->
  forall (left : nat) (i : Z) (fuel : nat),
    (0 <= i)%Z ->
    (Z.of_nat (List.length sentences) - i <= Z.of_nat left)%Z ->
    (left < fuel)%nat ->
    exists groups : list (list str),
      chunk_loop fuel sentences maxSentences i
        = Returns (map (fun g => chunk_markup (join (lit " ") g)) groups)
      /\ List.concat groups = skipn (Z.to_nat i) sentences
      /\ Z.of_nat (List.length groups)
         = ceil_div (Z.max 0 (Z.of_nat (List.length sentences) - i)) maxSentences
      /\ Forall (fun g => (1 <= Z.of_nat (List.length g) <= maxSentences)%Z) groups.
Proof.
  intros Hmax. set (n := Z.of_nat (List.length sentences)).
  induction left as [|left IH]; intros i fuel Hi Hleft Hfuel;
    (destruct fuel as [|fuel]; [lia|]); cbn [chunk_loop]; fold n.
  - (* nothing left *)
    destruct (Z.ltb_spec i n) as [?|Hge]; [lia|].
    exists []. cbn. repeat split.
    + symmetry; apply skipn_all2. subst n; lia.
    + rewrite Z.max_l by lia. symmetry; apply ceil_div_zero; exact Hmax.
    + constructor.
  - destruct (Z.ltb_spec i n) as [Hlt|Hge].
    + destruct (IH (i + maxSentences)%Z fuel) as (groups & Hrun & Hcat & Hcount & Hsize);
        [lia | lia | lia |].
      rewrite Hrun; cbn [bind].
      rewrite slice_window by (fold n; lia).
      set (g := firstn (Z.to_nat maxSentences) (skipn (Z.to_nat i) sentences)).
      exists (g :: groups). cbn [map List.concat List.length]. repeat split.
      * rewrite Hcat. unfold g.
        replace (Z.to_nat (i + maxSentences))
          with (Z.to_nat maxSentences + Z.to_nat i)%nat by lia.
        rewrite <- skipn_skipn. apply firstn_skipn.
      * rewrite Nat2Z.inj_succ, Hcount.
        rewrite (@ceil_div_step (Z.max 0 (n - i)) maxSentences) by lia.
        replace (Z.max 0 (Z.max 0 (n - i) - maxSentences))
          with (Z.max 0 (n - (i + maxSentences))) by lia.
        lia.
      * constructor; [|exact Hsize].
        unfold g. rewrite length_firstn, length_skipn. subst n. lia.
    + exists []. cbn. repeat split.
      * symmetry; apply skipn_all2. subst n; lia.
      * rewrite Z.max_l by lia. symmetry; apply ceil_div_zero; exact Hmax.
      * constructor.
Qed.

(** With a non-positive step the index never passes the length. *)
Lemma chunk_loop_stuck (sentences : list str) (maxSentences : Z) :
  (maxSentences <= 0)%Z -> sentences <> [] ->
  forall (fuel : nat) (i : Z), (i <= 0)%Z ->
    chunk_loop fuel sentences maxSentences i = OutOfFuel.
Proof.
  intros Hmax Hne. induction fuel as [|fuel IH]; intros i Hi; cbn [chunk_loop].
  - reflexivity.
  - destruct (Z.ltb_spec i (Z.of_nat (List.length sentences))) as [_|Hge].
    + rewrite IH by lia. reflexivity.
    + destruct sentences; [congruence | cbn in Hge; lia].
Qed.

Lemma forEach_paragraph_chunks (maxSentences : Z) (paragraphs : list str) :
  (1 <= maxSentences)%Z ->
  exists fuel0 : nat, forall fuel : nat, (fuel0 <= fuel)%nat ->
    forall created : nat,
    exists edits : list (option str),
      forEach_paragraph fuel maxSentences paragraphs created
        = Returns (edits,
                   (created + List.length (filter (is_split maxSentences) paragraphs))%nat)
      /\ Forall2 (chunked_as maxSentences) paragraphs edits.
Proof.
  intros Hmax. induction paragraphs as [|text rest (fuel1 & IH)].
  - exists 0%nat; intros fuel _ created. exists []. cbn. split.
    + f_equal; f_equal; lia.
    + constructor.
  - exists (Nat.max fuel1 (S (List.length (splitIntoSentences text)))).
    intros fuel Hfuel created. cbn [forEach_paragraph filter].
    unfold is_split at 1.
    destruct (Z.of_nat (List.length (splitIntoSentences text)) >? maxSentences)%Z eqn:Hgt.
    + destruct (@chunk_loop_groups (splitIntoSentences text) maxSentences Hmax
                  (List.length (splitIntoSentences text)) 0%Z fuel)
        as (groups & Hrun & Hcat & Hcount & Hsize); [lia | lia | lia |].
      rewrite Hrun; cbn [bind].
      destruct (IH fuel ltac:(lia) (S created)) as (edits & Hrest & Hall).
      rewrite Hrest; cbn [bind fst snd].
      eexists; split.
      * f_equal; f_equal. cbn [List.length]; lia.
      * constructor; [|exact Hall].
        unfold chunked_as. rewrite Hgt. exists groups. repeat split.
        -- exact Hcat.
        -- rewrite Hcount. f_equal. lia.
        -- exact Hsize.
    + destruct (IH fuel ltac:(lia) created) as (edits & Hrest & Hall).
      rewrite Hrest; cbn [bind fst snd].
      eexists; split; [reflexivity|].
      constructor; [|exact Hall].
      unfold chunked_as. rewrite Hgt. reflexivity.
Qed.

(** C4 (the code's behaviour at the claim's inputs). For every content
    that has at least one paragraph and every maxSentences <= 0,
    chunkParagraphs is out of fuel under every budget: the call neither
    clamps the limit, nor rejects it with an error, nor returns at all. *)
Theorem nonpositive_limit_never_returns :
  forall (dom : Dom) (content : str) (maxSentences : Z) (fuel : nat),
    (maxSentences <= 0)%Z ->
    paragraph_texts content <> [] ->
    chunkParagraphs fuel content maxSentences = OutOfFuel.
Proof.
  intros dom content maxSentences fuel Hmax Hne. unfold chunkParagraphs.
  destruct (paragraph_texts content) as [|text rest]; [congruence|].
  cbn [forEach_paragraph].
  pose proof (splitIntoSentences_nonempty text) as Hlen.
  destruct (Z.gtb_spec (Z.of_nat (List.length (splitIntoSentences text))) maxSentences)
    as [_|Hle]; [|lia].
  rewrite chunk_loop_stuck; [reflexivity | exact Hmax | | lia].
  intros E; rewrite E in Hlen; cbn in Hlen; lia.
Qed.

Lemma nonpositive_limit_never_returns_witness :
  @chunkParagraphs one_paragraph_dom 1000 (lit "One. Two.") 0 = OutOfFuel.
Proof.
  apply (@nonpositive_limit_never_returns one_paragraph_dom (lit "One. Two.") 0%Z 1000%nat).
  - lia.
  - discriminate.
Defined.

(** In particular the call returns. *)
Lemma chunkParagraphs_returns (dom : Dom) (content : str) (maxSentences : Z) :
  (1 <= maxSentences)%Z ->
  exists fuel0 : nat, forall fuel : nat, (fuel0 <= fuel)%nat ->
    exists r, chunkParagraphs fuel content maxSentences = Returns r.
Proof.
  intros Hmax.
  destruct (@forEach_paragraph_chunks maxSentences (paragraph_texts content) Hmax)
    as (fuel0 & Hrun).
  exists fuel0; intros fuel Hfuel.
  destruct (Hrun fuel Hfuel 0%nat) as (edits & Heach & _).
  unfold chunkParagraphs. rewrite Heach; cbn [bind fst snd].
  eexists; reflexivity.
Qed.

(** The second concrete scenario of the specification: seven sentences
    under a limit of three give paragraphs of 3, 3 and 1 sentences and
    chunksCreated = 1. *)
Example seven_sentences_limit_three :
  @chunkParagraphs one_paragraph_dom 8 seven_sentences 3 =
    Returns
      {| content :=
           lit "<p class=" ++ quoted (lit "chunked-paragraph")
             ++ lit ">One. Two! Three?</p>" ++ newline
           ++ lit "<p class=" ++ quoted (lit "chunked-paragraph")
             ++ lit ">Four. Five. Six.</p>" ++ newline
           ++ lit "<p class=" ++ quoted (lit "chunked-paragraph")
             ++ lit ">Seven.</p>";
         chunksCreated := 1 |}.
Proof. vm_compute. reflexivity. Qed.

(** *** Splitting a chunk again

    The paragraphs written by the chunker are joins of sentences; the
    splitter finds these sentences again in a chunk whose sentences all
    have text before their closing marks. *)

Lemma terminator_not_space (c : char) : is_terminator c = true -> is_space c = false.
Proof.
  unfold is_terminator. rewrite !orb_true_iff, !N.eqb_eq.
  intros [[-> | ->] | ->]; reflexivity.
Qed.

Lemma match_sentences_body (body : str) :
  forallb (fun x => negb (is_terminator x)) body = true ->
  forall before rest : str,
    match_sentences before [] (body ++ rest) = match_sentences (before ++ body) [] rest.
Proof.
  induction body as [|c body IH]; intros Hbody before rest.
  - rewrite app_nil_r. reflexivity.
  - cbn [forallb] in Hbody. apply andb_true_iff in Hbody. destruct Hbody as [Hc Hbody].
    apply negb_true_iff in Hc. cbn [app match_sentences]. rewrite Hc.
    rewrite (IH Hbody). rewrite <- app_assoc. reflexivity.
Qed.

Lemma match_sentences_marks (marks : str) :
  forallb is_terminator marks = true ->
  forall (body seen rest : str), body <> [] ->
    match_sentences body seen (marks ++ rest) = match_sentences body (seen ++ marks) rest.
Proof.
  induction marks as [|c marks IH]; intros Hmarks body seen rest Hbody.
  - rewrite app_nil_r. reflexivity.
  - cbn [forallb] in Hmarks. apply andb_true_iff in Hmarks. destruct Hmarks as [Hc Hmarks].
    cbn [app match_sentences]. rewrite Hc.
    destruct body as [|b body]; [congruence|].
    rewrite (IH Hmarks) by discriminate. rewrite <- app_assoc. reflexivity.
Qed.

Lemma match_sentences_join (g : list str) :
  Forall proper_sentence g ->
  forall before : str,
    forallb (fun x => negb (is_terminator x)) before = true ->
    match_sentences before [] (join (lit " ") g)
      = match g with
        | [] => []
        | s :: rest => (before ++ s) :: map (fun x => lit " " ++ x) rest
        end.
Proof.
  induction 1 as [|s g (c & body & marks & -> & Hc & Hbody & Hne & Hmarks) Hg IH];
    intros before Hbefore; [reflexivity|].
  destruct g as [|s2 g].
  - cbn [join map]. rewrite (@match_sentences_body (c :: body) Hbody).
    rewrite <- (app_nil_r marks) at 1.
    rewrite (@match_sentences_marks marks Hmarks) by (destruct before; discriminate).
    cbn [app match_sentences]. destruct marks as [|m marks]; [congruence|].
    rewrite <- app_assoc. reflexivity.
  - change (join (lit " ") (((c :: body) ++ marks) :: s2 :: g))
      with (((c :: body) ++ marks) ++ lit " " ++ join (lit " ") (s2 :: g)).
    rewrite <- app_assoc.
    rewrite (@match_sentences_body (c :: body) Hbody).
    rewrite (@match_sentences_marks marks Hmarks) by (destruct before; discriminate).
    change (lit " " ++ join (lit " ") (s2 :: g))
      with (32%N :: join (lit " ") (s2 :: g)).
    cbn [app match_sentences]. change (is_terminator 32%N) with false. cbv iota.
    destruct marks as [|m marks]; [congruence|].
    rewrite IH by reflexivity.
    rewrite <- app_assoc. reflexivity.
Qed.

Lemma trimStart_proper (s : str) : proper_sentence s -> trimStart s = s.
Proof.
  intros (c & body & marks & -> & Hc & _). cbn [app trimStart]. rewrite Hc. reflexivity.
Qed.

Lemma trimEnd_proper (before s : str) :
  proper_sentence s -> trimEnd (before ++ s) = before ++ s.
Proof.
  intros (c & body & marks & -> & _ & _ & Hne & Hmarks). unfold trimEnd.
  destruct (@exists_last _ marks Hne) as (front & m & ->).
  rewrite forallb_app in Hmarks. apply andb_true_iff in Hmarks.
  destruct Hmarks as [_ Hm]. cbn in Hm. rewrite andb_true_r in Hm.
  rewrite !app_assoc, rev_app_distr. cbn [rev app trimStart].
  rewrite (terminator_not_space _ Hm).
  rewrite <- rev_unit, rev_involutive. reflexivity.
Qed.

Lemma trim_proper (s : str) :
  proper_sentence s -> trim s = s /\ trim (lit " " ++ s) = s.
Proof.
  intros Hs. unfold trim. split.
  - pose proof (@trimEnd_proper [] s Hs) as Hend. cbn [app] in Hend.
    rewrite Hend. apply trimStart_proper; exact Hs.
  - rewrite (@trimEnd_proper (lit " ") s Hs).
    change (lit " " ++ s) with (32%N :: s). cbn [trimStart].
    change (is_space 32%N) with true. cbv iota. apply trimStart_proper; exact Hs.
Qed.

(** A chunk made of sentences that have text before their closing marks
    splits into those sentences again. *)
Lemma splitIntoSentences_join (g : list str) :
  g <> [] -> Forall proper_sentence g ->
  splitIntoSentences (join (lit " ") g) = g.
Proof.
  intros Hne Hg. unfold splitIntoSentences.
  rewrite (@match_sentences_join g Hg []) by reflexivity.
  destruct g as [|s rest]; [congruence|].
  apply Forall_cons_iff in Hg. destruct Hg as [Hs Hrest].
  cbn [app map]. f_equal; [apply trim_proper; exact Hs|].
  rewrite map_map. rewrite <- (map_id rest) at 2.
  apply map_ext_in. intros x Hx. apply trim_proper.
  rewrite Forall_forall in Hrest. apply Hrest; exact Hx.
Qed.

(** A sentence of closing marks alone is not found again at the head of
    a chunk: the pattern needs text before the marks. *)
Example bare_marks_merge_when_split_again :
  splitIntoSentences (lit "Wait . . . what?")
    = [lit "Wait ."; lit "."; lit "."; lit "what?"]
  /\ splitIntoSentences (join (lit " ") [lit "."; lit "what?"]) = [lit "what?"].
Proof. split; vm_compute; reflexivity. Qed.

Lemma chunked_as_rewritten (maxSentences : Z) (text : str) (edit : option str) :
  chunked_as maxSentences text edit ->
  ChunkedParagraphs.rewritten_as maxSentences text edit.
Proof.
  unfold chunked_as, ChunkedParagraphs.rewritten_as.
  destruct (Z.of_nat (List.length (splitIntoSentences text)) >? maxSentences)%Z;
    [|exact (fun H => H)].
  intros (groups & Hedit & Hcat & Hcount & Hsize).
  exists groups. split; [|split; [exact Hcat | split; [exact Hcount | split]]].
  - rewrite Hedit. do 2 f_equal.
  - exact Hsize.
  - rewrite Forall_forall in *. intros g Hin Hproper.
    apply splitIntoSentences_join; [|exact Hproper].
    specialize (Hsize g Hin). destruct g; [cbn in Hsize; lia | discriminate].
Qed.

(** C5 as stated fails: the sentences of the output paragraphs are not
    always the sentences of the input paragraph.  "Wait . . . what?" has
    four sentences for the splitter, two of them closing marks alone;
    under a limit of 2 it is rewritten to two paragraphs, "Wait . ." and
    ". what?", and these hold three sentences: the mark that opens the
    second paragraph has no text before it and belongs to no sentence. *)
Lemma sentences_of_bare_marks_are_not_conserved :
  splitIntoSentences (lit "Wait . . . what?")
    = [lit "Wait ."; lit "."; lit "."; lit "what?"]
  /\ @chunkParagraphs one_paragraph_dom 10 (lit "Wait . . . what?") 2
     = Returns
         {| content :=
              lit "<p class=" ++ quoted (lit "chunked-paragraph")
                ++ lit ">Wait . .</p>" ++ newline
              ++ lit "<p class=" ++ quoted (lit "chunked-paragraph")
                ++ lit ">. what?</p>";
            chunksCreated := 1 |}
  /\ splitIntoSentences (lit "Wait . .") ++ splitIntoSentences (lit ". what?")
     = [lit "Wait ."; lit "."; lit "what?"]
  /\ splitIntoSentences (lit "Wait . .") ++ splitIntoSentences (lit ". what?")
     <> splitIntoSentences (lit "Wait . . . what?")
  /\ List.length (splitIntoSentences (lit "Wait . .")
                  ++ splitIntoSentences (lit ". what?"))
     <> List.length (splitIntoSentences (lit "Wait . . . what?")).
Proof.
  split; [vm_compute; reflexivity|]. split; [vm_compute; reflexivity|].
  split; [vm_compute; reflexivity|]. split; vm_compute; discriminate.
Qed.

(** C5 (amended). For every content and every maxSentences >= 1,
    chunkParagraphs returns (given enough fuel) the document in which,
    paragraph by paragraph: a paragraph in whose text the splitter finds
    at most maxSentences sentences is left as it is; one with
    n > maxSentences sentences has its markup replaced by exactly
    ceil(n / maxSentences) units [<p class="chunked-paragraph">...</p>]
    joined by line feeds, each holding at least one and at most
    maxSentences of the sentences joined by single spaces, the groups
    being consecutive and together exactly the sentences of the
    paragraph (none lost, added or reordered).  The text of a unit splits
    into its sentences again when each of them has text before its
    closing marks.  chunksCreated is the number of paragraphs that were
    split. *)
Theorem chunking_conserves_sentences :
  forall (dom : Dom) (content : str) (maxSentences : Z),
    (1 <= maxSentences)%Z ->
    exists fuel0 : nat, forall fuel : nat, (fuel0 <= fuel)%nat ->
      exists edits : list (option str),
        Forall2 (ChunkedParagraphs.rewritten_as maxSentences)
          (paragraph_texts content) edits /\
        chunkParagraphs fuel content maxSentences =
          Returns
            {| content := match body_html content edits with
                          | [] => content
                          | _ :: _ => body_html content edits
                          end;
               chunksCreated :=
                 List.length (filter (is_split maxSentences) (paragraph_texts content)) |}.
Proof.
  intros dom content maxSentences Hmax.
  destruct (@forEach_paragraph_chunks maxSentences (paragraph_texts content) Hmax)
    as (fuel0 & Hrun).
  exists fuel0; intros fuel Hfuel.
  destruct (Hrun fuel Hfuel 0%nat) as (edits & Heach & Hall).
  exists edits; split.
  - clear Heach Hrun. induction Hall as [|text edit texts edits' H _ IH]; constructor.
    + apply chunked_as_rewritten; exact H.
    + exact IH.
  - unfold chunkParagraphs. rewrite Heach; cbn [bind fst snd]. reflexivity.
Qed.

Lemma chunking_conserves_sentences_witness :
  exists fuel0 : nat, forall fuel : nat, (fuel0 <= fuel)%nat ->
    exists edits : list (option str),
      Forall2 (ChunkedParagraphs.rewritten_as 3)
        (@paragraph_texts one_paragraph_dom seven_sentences) edits /\
      @chunkParagraphs one_paragraph_dom fuel seven_sentences 3 =
        Returns
          {| content := match @body_html one_paragraph_dom seven_sentences edits with
                        | [] => seven_sentences
                        | _ :: _ => @body_html one_paragraph_dom seven_sentences edits
                        end;
             chunksCreated :=
               List.length (filter (is_split 3)
                              (@paragraph_texts one_paragraph_dom seven_sentences)) |}.
Proof.
  apply (@chunking_conserves_sentences one_paragraph_dom seven_sentences 3%Z).
  lia.
Defined.

End ChunkerFacts.

(** ** Whole-word patterns *)

Module PatternFacts.
Import Pattern.

Lemma is_word_char_spec (c : char) :
  is_word_char c = true <->
  (48 <= c <= 57 \/ 65 <= c <= 90 \/ c = 95 \/ 97 <= c <= 122)%N.
Proof.
  unfold is_word_char.
  rewrite !orb_true_iff, !andb_true_iff, !N.leb_le, N.eqb_eq. tauto.
Qed.

(** Folding case keeps a code unit inside or outside the word class. *)
Lemma char_matches_word (p c : char) :
  char_matches p c = true -> is_word_char p = is_word_char c.
Proof.
  unfold char_matches, char_eqb, canonicalize. intros H.
  apply N.eqb_eq in H. apply eq_true_iff_eq. rewrite !is_word_char_spec.
  destruct (N.leb_spec 97 p), (N.leb_spec p 122), (N.leb_spec 97 c),
    (N.leb_spec c 122); cbn [andb] in H; lia.
Qed.

Lemma same_text_eq (a b : str) :
  same_text a b = true <-> map canonicalize a = map canonicalize b.
Proof. unfold same_text. apply str_eqb_eq. Qed.

Lemma same_text_false (a b : str) :
  same_text a b = false <-> map canonicalize a <> map canonicalize b.
Proof. unfold same_text. apply str_eqb_neq. Qed.

Lemma match_literal_sound (key s m rest : str) :
  match_literal key s = Some (m, rest) ->
  s = m ++ rest /\ same_text key m = true.
Proof.
  rewrite same_text_eq. revert s m rest.
  induction key as [|p key IH]; intros s m rest; cbn [match_literal].
  - intros E; injection E as <- <-. split; reflexivity.
  - destruct s as [|c s]; [discriminate|].
    destruct (char_matches p c) eqn:Hpc; [|discriminate].
    destruct (match_literal key s) as [[m' rest']|] eqn:Hm; [|discriminate].
    intros E; injection E as <- <-.
    destruct (IH _ _ _ Hm) as [-> Hsame]. split; [reflexivity|].
    cbn [map]. f_equal; [|exact Hsame].
    apply N.eqb_eq; exact Hpc.
Qed.

Lemma match_literal_complete (key m rest : str) :
  same_text key m = true -> match_literal key (m ++ rest) = Some (m, rest).
Proof.
  rewrite same_text_eq. revert m.
  induction key as [|p key IH]; intros [|c m] E; try discriminate E.
  - reflexivity.
  - cbn [map] in E. injection E as Hc Hm. cbn [match_literal app].
    unfold char_matches, char_eqb. rewrite Hc, N.eqb_refl.
    rewrite (IH _ Hm). reflexivity.
Qed.

Lemma same_text_length (key m : str) :
  same_text key m = true -> List.length m = List.length key.
Proof.
  rewrite same_text_eq. intros E.
  apply (f_equal (@List.length _)) in E. rewrite !length_map in E. congruence.
Qed.

Lemma same_text_word (key m : str) :
  same_text key m = true ->
  forallb is_word_char key = true -> forallb is_word_char m = true.
Proof.
  rewrite same_text_eq. revert m.
  induction key as [|p key IH]; intros [|c m] E; try discriminate E; [reflexivity|].
  cbn [map] in E. injection E as Hc Hm. cbn [forallb].
  rewrite !andb_true_iff. intros [Hp Hkey]. split; [|apply IH; assumption].
  rewrite <- (@char_matches_word p c); [exact Hp|].
  apply N.eqb_eq; exact Hc.
Qed.

(** What a successful match says about the text. *)
Lemma match_here_sound (key : str) (prev : option char) (s m rest : str) :
  match_here key prev s = Some (m, rest) ->
  s = m ++ rest /\ same_text key m = true
  /\ at_boundary prev (hd_error s) = true
  /\ at_boundary (before_rest prev m) (hd_error rest) = true.
Proof.
  unfold match_here.
  destruct (at_boundary prev (hd_error s)) eqn:Hb; [|discriminate].
  destruct (match_literal key s) as [[m' rest']|] eqn:Hm; [|discriminate].
  destruct (at_boundary (before_rest prev m') (hd_error rest')) eqn:Ha; [|discriminate].
  intros E; injection E as <- <-.
  destruct (match_literal_sound _ _ Hm) as [-> Hsame]. repeat split; assumption.
Qed.

Lemma plain_key_nonempty (key : str) : plain_key key = true -> key <> [].
Proof. destruct key; [discriminate | discriminate]. Qed.

(** The cut computed with fuel above the length of the text is the
    leftmost-first cut: the fuel is never exhausted. *)
Lemma scan_cut (key : str) :
  key <> [] ->
  forall (fuel : nat) (prev : option char) (s : str),
    (List.length s < fuel)%nat -> cut key prev s (scan fuel key prev s).
Proof.
  intros Hkey. induction fuel as [|fuel IH]; intros prev s Hlen; [lia|].
  cbn [scan]. destruct (match_here key prev s) as [[m rest]|] eqn:Hm.
  - destruct (match_here_sound _ _ _ Hm) as (-> & Hsame & _).
    assert (Hm' : m <> []).
    { intros ->. apply same_text_length in Hsame. destruct key; [congruence|discriminate]. }
    apply cut_match with (rest := rest); [exact Hm | exact Hm' |].
    apply IH. rewrite length_app in Hlen.
    destruct m; [congruence | cbn in Hlen; lia].
  - destruct s as [|c s].
    + apply cut_end; exact Hm.
    + apply cut_keep; [exact Hm|]. apply IH. cbn in Hlen; lia.
Qed.

Lemma occurrences_cut (key s : str) :
  key <> [] -> cut key None s (occurrences key s).
Proof. intros Hkey. apply scan_cut; [exact Hkey | lia]. Qed.

(** A cut loses nothing: its segments, read in order, are the text. *)
Lemma cut_partition (key : str) (prev : option char) (s : str) (segs : list segment) :
  cut key prev s segs -> flat_map segment_text segs = s.
Proof.
  induction 1 as [prev _ | prev s m rest segs Hm _ _ IH | prev c s segs _ _ IH];
    cbn [flat_map segment_text].
  - reflexivity.
  - rewrite IH. destruct (match_here_sound _ _ _ Hm) as (-> & _). reflexivity.
  - rewrite IH. reflexivity.
Qed.

(** Every match of a cut is the key, letter case aside. *)
Lemma cut_matches (key : str) (prev : option char) (s : str) (segs : list segment) :
  cut key prev s segs ->
  Forall (fun g => is_matched g = true -> same_text key (segment_text g) = true) segs.
Proof.
  induction 1 as [prev _ | prev s m rest segs Hm _ _ IH | prev c s segs _ _ IH];
    constructor; try assumption.
  - intros _. apply (match_here_sound _ _ _ Hm).
  - discriminate.
Qed.

(** *** One-word keys: matches are whole words *)

Lemma last_default (A : Type) (l : list A) (d d' : A) :
  l <> [] -> last l d = last l d'.
Proof.
  induction l as [|a l IH]; [congruence|]. intros _.
  destruct l as [|b l]; [reflexivity|]. cbn [last] in *. apply IH; discriminate.
Qed.

Lemma before_rest_cons (prev : option char) (c : char) (m : str) :
  before_rest prev (c :: m) = before_rest (Some c) m.
Proof.
  destruct m as [|b m]; [reflexivity|]. unfold before_rest.
  change (last (map Some (c :: b :: m)) prev)
    with (last (map Some (b :: m)) prev).
  apply last_default. discriminate.
Qed.

Lemma before_rest_word (prev : option char) (m : str) :
  is_word prev = true -> forallb is_word_char m = true ->
  is_word (before_rest prev m) = true.
Proof.
  revert prev; induction m as [|c m IH]; intros prev Hp Hm; [exact Hp|].
  rewrite before_rest_cons. cbn [forallb] in Hm. apply andb_true_iff in Hm.
  apply IH; [apply Hm | apply Hm].
Qed.

Lemma word_split (s : str) :
  exists x rest, s = x ++ rest /\ forallb is_word_char x = true
                 /\ is_word (hd_error rest) = false.
Proof.
  induction s as [|c s (x & rest & -> & Hx & Hr)].
  - exists [], []. repeat split.
  - destruct (is_word_char c) eqn:Hc.
    + exists (c :: x), rest. cbn [forallb]. rewrite Hc, Hx. repeat split. exact Hr.
    + exists [], (c :: x ++ rest). repeat split. exact Hc.
Qed.

Lemma run_unique (m x r1 r2 : str) :
  m ++ r1 = x ++ r2 ->
  forallb is_word_char m = true -> forallb is_word_char x = true ->
  is_word (hd_error r1) = false -> is_word (hd_error r2) = false ->
  m = x /\ r1 = r2.
Proof.
  revert x; induction m as [|a m IH]; intros [|b x] E Hm Hx H1 H2; cbn in *.
  - split; [reflexivity | exact E].
  - subst r1. cbn in H1. apply andb_true_iff in Hx. destruct Hx; congruence.
  - subst r2. cbn in H2. apply andb_true_iff in Hm. destruct Hm; congruence.
  - injection E as -> E. apply andb_true_iff in Hm, Hx.
    assert (m = x /\ r1 = r2) as [-> ->] by (apply IH; tauto).
    split; reflexivity.
Qed.

Lemma tokens_head (s : str) :
  is_word (hd_error s) = false ->
  match tokens s with Word _ :: _ => False | _ => True end.
Proof.
  destruct s as [|c s]; cbn; [trivial|]. intros ->. trivial.
Qed.

Lemma tokens_run (x rest : str) :
  x <> [] -> forallb is_word_char x = true -> is_word (hd_error rest) = false ->
  tokens (x ++ rest) = Word x :: tokens rest.
Proof.
  intros Hx Hall Hrest. induction x as [|c x IH]; [congruence|].
  cbn [forallb] in Hall. apply andb_true_iff in Hall. destruct Hall as [Hc Hall].
  cbn [app tokens]. rewrite Hc. destruct x as [|d x].
  - cbn [app]. pose proof (@tokens_head rest Hrest) as Hhd.
    destruct (tokens rest) as [|[w|o] ts]; [reflexivity | contradiction | reflexivity].
  - rewrite IH; [reflexivity | discriminate | exact Hall].
Qed.

Lemma word_key_spec (key : str) :
  word_key key = true -> key <> [] /\ forallb is_word_char key = true.
Proof. destruct key; [discriminate|]. intros H; split; [discriminate | exact H]. Qed.

(** At a position that does not start a word, a one-word key does not
    match. *)
Lemma match_here_not_word (key : str) (prev : option char) (s : str) :
  word_key key = true -> is_word (hd_error s) = false ->
  match_here key prev s = None.
Proof.
  intros Hkey Hs. apply word_key_spec in Hkey. destruct Hkey as [Hne Hall].
  unfold match_here. destruct (at_boundary prev (hd_error s)); [|reflexivity].
  destruct key as [|p key]; [congruence|]. cbn [match_literal].
  destruct s as [|c s]; [reflexivity|].
  destruct (char_matches p c) eqn:Hpc; [|reflexivity].
  apply char_matches_word in Hpc. cbn in Hs, Hall.
  apply andb_true_iff in Hall. destruct Hall; congruence.
Qed.

(** At the start of a word, a one-word key matches exactly when the
    whole word is the key, letter case aside. *)
Lemma match_here_word (key : str) (prev : option char) (x rest : str) :
  word_key key = true -> is_word prev = false ->
  x <> [] -> forallb is_word_char x = true -> is_word (hd_error rest) = false ->
  match_here key prev (x ++ rest)
    = if same_text key x then Some (x, rest) else None.
Proof.
  intros Hkey Hprev Hx Hall Hrest.
  apply word_key_spec in Hkey. destruct Hkey as [Hne Hkall].
  assert (Hafter : forall m r, forallb is_word_char m = true -> m <> [] ->
            at_boundary (before_rest prev m) (hd_error r) = negb (is_word (hd_error r))).
  { intros m r Hm Hm'. unfold at_boundary.
    destruct m as [|c m]; [congruence|]. rewrite before_rest_cons.
    cbn in Hm. apply andb_true_iff in Hm.
    rewrite before_rest_word; [reflexivity | apply Hm | apply Hm]. }
  unfold match_here.
  assert (at_boundary prev (hd_error (x ++ rest)) = true) as ->.
  { unfold at_boundary. rewrite Hprev. destruct x as [|c x]; [congruence|].
    cbn in *. apply andb_true_iff in Hall. destruct Hall as [-> _]. reflexivity. }
  destruct (same_text key x) eqn:Hsame.
  - rewrite (@match_literal_complete key x rest Hsame).
    rewrite Hafter, Hrest by assumption. reflexivity.
  - destruct (match_literal key (x ++ rest)) as [[m r]|] eqn:Hm; [|reflexivity].
    destruct (match_literal_sound _ _ Hm) as [E Hkm].
    assert (Hmall : forallb is_word_char m = true)
      by (apply (@same_text_word key m Hkm); exact Hkall).
    assert (Hmne : m <> []).
    { intros ->. apply same_text_length in Hkm. destruct key; [congruence|discriminate]. }
    rewrite Hafter by assumption.
    destruct (is_word (hd_error r)) eqn:Hr; [reflexivity|].
    symmetry in E. destruct (@run_unique m x r rest E Hmall Hall Hr Hrest) as [-> _].
    congruence.
Qed.

(** Inside a word nothing matches: the rest of the word is kept. *)
Lemma scan_inside_word (key : str) (rest : str) (x : str) :
  forall (fuel : nat) (prev : option char),
    is_word prev = true -> forallb is_word_char x = true ->
    (List.length x <= fuel)%nat ->
    scan fuel key prev (x ++ rest)
      = map Kept x ++ scan (fuel - List.length x) key (before_rest prev x) rest.
Proof.
  induction x as [|c x IH]; intros fuel prev Hprev Hall Hfuel.
  - cbn. rewrite Nat.sub_0_r. reflexivity.
  - destruct fuel as [|fuel]; [cbn in Hfuel; lia|].
    cbn [forallb] in Hall. apply andb_true_iff in Hall. destruct Hall as [Hc Hall].
    cbn [app scan]. unfold match_here at 1, at_boundary at 1.
    cbn [hd_error is_word]. rewrite Hprev, Hc. cbn [xorb].
    rewrite IH; [|exact Hc | exact Hall | cbn in Hfuel; lia].
    rewrite before_rest_cons. reflexivity.
Qed.

(** The cut of a text by a one-word key, read off its words. *)
Lemma scan_as_tokens (key : str) :
  word_key key = true ->
  forall (n : nat) (s : str) (fuel : nat) (prev : option char),
    (List.length s <= n)%nat -> (List.length s < fuel)%nat ->
    is_word prev && is_word (hd_error s) = false ->
    scan fuel key prev s = word_segments key (tokens s).
Proof.
  intros Hkey. induction n as [|n IH]; intros s fuel prev Hn Hfuel Hedge.
  - destruct s; [|cbn in Hn; lia]. destruct fuel; [lia|].
    cbn [scan]. rewrite match_here_not_word by (exact Hkey || reflexivity).
    reflexivity.
  - destruct fuel as [|fuel]; [lia|].
    destruct s as [|c s].
    { cbn [scan]. rewrite match_here_not_word by (exact Hkey || reflexivity).
      reflexivity. }
    destruct (is_word_char c) eqn:Hc.
    + (* a word starts here *)
      assert (Hprev : is_word prev = false).
      { cbn in Hedge. rewrite Hc, andb_true_r in Hedge. exact Hedge. }
      destruct (word_split s) as (x & rest & -> & Hx & Hrest).
      change (c :: x ++ rest) with ((c :: x) ++ rest) in *.
      assert (Hall : forallb is_word_char (c :: x) = true)
        by (cbn; rewrite Hc, Hx; reflexivity).
      rewrite tokens_run by (discriminate || assumption).
      cbn [scan word_segments flat_map].
      rewrite (@match_here_word key prev (c :: x) rest)
        by (discriminate || assumption).
      rewrite length_app in Hn, Hfuel. cbn [List.length] in Hn, Hfuel.
      destruct (same_text key (c :: x)) eqn:Hsame.
      * cbn [app]. f_equal. apply IH; [lia | lia |].
        rewrite Hrest. apply andb_false_r.
      * cbn [app map]. f_equal.
        rewrite scan_inside_word by (reflexivity || assumption || lia).
        f_equal. apply IH; [lia | lia |].
        rewrite Hrest. apply andb_false_r.
    + cbn [scan tokens]. rewrite Hc.
      rewrite match_here_not_word by (exact Hkey || (cbn; exact Hc)).
      cbn [word_segments flat_map app]. f_equal.
      apply IH; [cbn in Hn; lia | cbn in Hfuel; lia |].
      cbn [is_word]. rewrite Hc. reflexivity.
Qed.

Lemma occurrences_as_tokens (key s : str) :
  word_key key = true -> occurrences key s = word_segments key (tokens s).
Proof.
  intros Hkey. unfold occurrences.
  apply (@scan_as_tokens key Hkey (List.length s)); [lia | lia | reflexivity].
Qed.

(** *** Words of a text and of its rewritings *)

Lemma flat_map_ext_in (A B : Type) (f g : A -> list B) (l : list A) :
  (forall x, In x l -> f x = g x) -> flat_map f l = flat_map g l.
Proof.
  induction l as [|x l IH]; intros H; cbn; [reflexivity|].
  rewrite (H x) by (left; reflexivity). f_equal.
  apply IH; intros y Hy; apply H; right; exact Hy.
Qed.

Lemma flat_map_flat_map (A B C : Type) (f : B -> list C) (g : A -> list B) (l : list A) :
  flat_map f (flat_map g l) = flat_map (fun x => flat_map f (g x)) l.
Proof.
  induction l as [|x l IH]; cbn; [reflexivity|].
  rewrite flat_map_app, IH. reflexivity.
Qed.

Lemma existsb_flat_map (A B : Type) (f : B -> bool) (g : A -> list B) (l : list A) :
  existsb f (flat_map g l) = existsb (fun x => existsb f (g x)) l.
Proof.
  induction l as [|x l IH]; cbn; [reflexivity|].
  rewrite existsb_app, IH. reflexivity.
Qed.

Lemma existsb_ext_in (A : Type) (f g : A -> bool) (l : list A) :
  (forall x, In x l -> f x = g x) -> existsb f l = existsb g l.
Proof.
  induction l as [|x l IH]; intros H; cbn; [reflexivity|].
  rewrite (H x) by (left; reflexivity). f_equal.
  apply IH; intros y Hy; apply H; right; exact Hy.
Qed.

Lemma tokens_text (s : str) : flat_map token_text (tokens s) = s.
Proof.
  induction s as [|c s IH]; [reflexivity|]. cbn [tokens].
  destruct (is_word_char c).
  - destruct (tokens s) as [|[w|o] ts]; cbn in *; rewrite <- IH; reflexivity.
  - cbn. rewrite IH. reflexivity.
Qed.

Lemma tokens_well_formed (s : str) : well_formed (tokens s).
Proof.
  induction s as [|c s IH]; [exact I|]. cbn [tokens].
  destruct (is_word_char c) eqn:Hc.
  - destruct (tokens s) as [|[w|o] ts]; cbn in *.
    + rewrite Hc. repeat split. discriminate.
    + rewrite Hc. destruct IH as (_ & Hw & Hnext & Hwf).
      repeat split; [discriminate | exact Hw | exact Hnext | exact Hwf].
    + rewrite Hc. repeat split; [discriminate | apply IH | apply IH].
  - cbn. split; [exact Hc | exact IH].
Qed.

Lemma well_formed_ok (ts : list token) :
  well_formed ts -> forall t, In t ts -> token_ok t.
Proof.
  induction ts as [|[w|c] ts IH]; cbn; [contradiction| |].
  - intros (Hne & Hw & _ & Hwf) t [<- | Hin]; [split; assumption | apply IH; assumption].
  - intros (Hc & Hwf) t [<- | Hin]; [exact Hc | apply IH; assumption].
Qed.

Lemma tokens_word (w : str) :
  w <> [] -> forallb is_word_char w = true -> tokens w = [Word w].
Proof.
  intros Hne Hw. rewrite <- (app_nil_r w) at 1.
  rewrite tokens_run by (assumption || reflexivity). reflexivity.
Qed.

Lemma tokens_nonempty (s : str) : s <> [] -> tokens s <> [].
Proof.
  destruct s as [|c s]; [congruence|]. intros _. cbn [tokens].
  destruct (is_word_char c); [|discriminate].
  destruct (tokens s) as [|[w|o] ts]; discriminate.
Qed.

Lemma before_rest_tail (c d : char) (a : str) (prev : option char) :
  before_rest prev (c :: d :: a) = before_rest None (d :: a).
Proof. rewrite !before_rest_cons. reflexivity. Qed.

(** Tokens of a concatenation whose junction is not inside a word. *)
Lemma tokens_app (a b : str) :
  is_word (before_rest None a) && is_word (hd_error b) = false ->
  tokens (a ++ b) = tokens a ++ tokens b.
Proof.
  induction a as [|c a IH]; intros Hedge; [reflexivity|].
  destruct a as [|d a].
  - cbn [app tokens]. destruct (is_word_char c) eqn:Hc; [|reflexivity].
    cbn in Hedge. rewrite Hc in Hedge. cbn in Hedge.
    pose proof (@tokens_head b Hedge) as Hhd.
    destruct (tokens b) as [|[w|o] ts]; [reflexivity | contradiction | reflexivity].
  - rewrite before_rest_tail in Hedge. specialize (IH Hedge).
    change ((c :: d :: a) ++ b) with (c :: ((d :: a) ++ b)).
    cbn [tokens] in *. rewrite IH.
    pose proof (@tokens_nonempty (d :: a)) as Hne. cbn [tokens] in Hne.
    destruct (is_word_char c); [|reflexivity].
    destruct (if is_word_char d
              then match tokens a with
                   | Word w :: ts => Word (d :: w) :: ts
                   | ts => Word [d] :: ts
                   end
              else Other d :: tokens a) as [|[w|o] ts];
      [exfalso; apply Hne; [discriminate | reflexivity] | reflexivity | reflexivity].
Qed.

(** Rewriting token by token, keeping the tokens between words, commutes
    with cutting into tokens. *)
Lemma tokens_flat_map (r : token -> str) (ts : list token) :
  well_formed ts -> (forall c, r (Other c) = [c]) ->
  tokens (flat_map r ts) = flat_map (fun t => tokens (r t)) ts.
Proof.
  intros Hwf Hr. induction ts as [|t ts IH]; [reflexivity|].
  cbn [flat_map]. rewrite tokens_app.
  - f_equal. apply IH. destruct t; cbn in Hwf; tauto.
  - destruct t as [w|c]; cbn in Hwf.
    + destruct Hwf as (_ & _ & Hnext & Hrest).
      destruct ts as [|[w'|c'] ts]; [apply andb_false_r | contradiction |].
      cbn [flat_map]. rewrite Hr. cbn [app hd_error is_word].
      cbn in Hrest. destruct Hrest as [-> _]. apply andb_false_r.
    + rewrite Hr. cbn. destruct Hwf as [-> _]. reflexivity.
Qed.

(** The pattern of a one-word key, on the words of the text. *)
Lemma regex_test_tokens (key s : str) :
  word_key key = true -> regex_test key s = term_occurs key s.
Proof.
  intros Hkey. unfold regex_test, term_occurs.
  rewrite occurrences_as_tokens by exact Hkey.
  unfold word_segments. rewrite existsb_flat_map. apply existsb_ext_in.
  intros [w|c] _; cbn; [|reflexivity].
  destruct (same_text key w); cbn; [reflexivity|].
  induction w as [|a w IH]; [reflexivity | exact IH].
Qed.

Lemma regex_replace_tokens (key replacement s : str) :
  word_key key = true ->
  regex_replace key replacement s
    = flat_map (fun t => if is_term key t then replacement else token_text t)
        (tokens s).
Proof.
  intros Hkey. unfold regex_replace.
  rewrite occurrences_as_tokens by exact Hkey.
  unfold word_segments. rewrite flat_map_flat_map. apply flat_map_ext_in.
  intros [w|c] _; cbn; [|reflexivity].
  destruct (same_text key w); cbn; [apply app_nil_r|].
  rewrite ?app_nil_r.
  induction w as [|a w IH]; [reflexivity | cbn; f_equal; exact IH].
Qed.

End PatternFacts.

(** ** Vocabulary simplifier *)

Module VocabularyFacts.
Import Pattern PatternFacts Vocabulary.

Lemma lookup_term_app (table : list (str * str)) (e : str * str) (w : str) :
  lookup_term (table ++ [e]) w
    = match lookup_term table w with
      | Some e' => Some e'
      | None => if same_text (fst e) w then Some e else None
      end.
Proof.
  unfold lookup_term. induction table as [|a table IH]; cbn.
  - destruct (same_text (fst e) w); reflexivity.
  - destruct (same_text (fst a) w); [reflexivity | exact IH].
Qed.

Lemma lookup_term_some (table : list (str * str)) (w : str) (e : str * str) :
  lookup_term table w = Some e -> In e table /\ same_text (fst e) w = true.
Proof. unfold lookup_term. intros H. apply find_some in H. exact H. Qed.

Lemma not_term_in (key : str) (ts : list token) (t : token) :
  existsb (is_term key) ts = false -> In t ts -> is_term key t = false.
Proof.
  intros Hno Hin. destruct (is_term key t) eqn:Ht; [|reflexivity].
  rewrite <- Hno. symmetry. apply existsb_exists. exists t; split; assumption.
Qed.

(** After the entries of [done] were applied, an unrelated key is found
    in what became of a token exactly when it was that token. *)
Lemma token_after_test (key : str) (done : list (str * str)) (t : token) :
  token_ok t -> unrelated key done ->
  existsb (is_term key) (tokens (simplify_token done t)) = is_term key t.
Proof.
  destruct t as [w|c]; cbn [simplify_token token_ok is_term].
  - intros [Hne Hw] Hun. destruct (lookup_term done w) as [e'|] eqn:Hl.
    + destruct (lookup_term_some _ _ Hl) as [Hin Hs].
      destruct (Hun e' Hin) as [Hk Ho].
      unfold term_occurs in Ho. rewrite Ho. symmetry.
      apply same_text_false. intros E. apply same_text_false in Hk. apply Hk.
      rewrite E. symmetry. apply same_text_eq. exact Hs.
    + rewrite tokens_word by assumption. cbn. apply orb_false_r.
  - intros Hc _. cbn. rewrite Hc. reflexivity.
Qed.

(** Applying one more, unrelated entry to what became of a token. *)
Lemma token_after_replace (e : str * str) (done : list (str * str)) (t : token) :
  token_ok t -> unrelated (fst e) done ->
  flat_map (fun t' => if is_term (fst e) t'
                      then simplified_span (fst e) (snd e)
                      else token_text t')
    (tokens (simplify_token done t))
  = simplify_token (done ++ [e]) t.
Proof.
  destruct t as [w|c]; cbn [simplify_token token_ok].
  - intros [Hne Hw] Hun. rewrite lookup_term_app.
    destruct (lookup_term done w) as [e'|] eqn:Hl.
    + destruct (lookup_term_some _ _ Hl) as [Hin Hs].
      destruct (Hun e' Hin) as [_ Ho]. unfold term_occurs in Ho.
      rewrite <- (tokens_text (simplified_span (fst e') (snd e'))) at 2.
      apply flat_map_ext_in. intros t' Hin'.
      rewrite (@not_term_in (fst e) _ t' Ho Hin'). reflexivity.
    + rewrite tokens_word by assumption. cbn. rewrite app_nil_r.
      destruct (same_text (fst e) w); reflexivity.
  - intros Hc _. cbn. rewrite Hc. reflexivity.
Qed.

(** One round of the loop, on the closed form. *)
Lemma simplify_step_closed (done : list (str * str)) (e : str * str) (input : str) :
  word_key (fst e) = true -> unrelated (fst e) done ->
  simplify_step (whole_word_simplification done input) e
    = whole_word_simplification (done ++ [e]) input.
Proof.
  intros Hkey Hun. unfold simplify_step, whole_word_simplification.
  cbn [content replacements].
  assert (Hok : forall t, In t (tokens input) -> token_ok t)
    by (apply well_formed_ok, tokens_well_formed).
  assert (Htok : tokens (flat_map (simplify_token done) (tokens input))
                 = flat_map (fun t => tokens (simplify_token done t)) (tokens input))
    by (apply tokens_flat_map; [apply tokens_well_formed | reflexivity]).
  assert (Htest : regex_test (fst e) (flat_map (simplify_token done) (tokens input))
                  = term_occurs (fst e) input).
  { rewrite regex_test_tokens by exact Hkey. unfold term_occurs.
    rewrite Htok, existsb_flat_map. apply existsb_ext_in.
    intros t Hin. apply token_after_test; [apply Hok; exact Hin | exact Hun]. }
  rewrite Htest. rewrite filter_app, map_app. cbn [filter].
  destruct (term_occurs (fst e) input) eqn:Hocc.
  - f_equal.
    rewrite regex_replace_tokens by exact Hkey.
    rewrite Htok, flat_map_flat_map. apply flat_map_ext_in.
    intros t Hin. apply token_after_replace; [apply Hok; exact Hin | exact Hun].
  - cbn [map]. rewrite app_nil_r. f_equal.
    apply flat_map_ext_in. intros [w|c] Hin; [|reflexivity].
    cbn [simplify_token]. rewrite lookup_term_app.
    destruct (lookup_term done w); [reflexivity|].
    pose proof (@not_term_in (fst e) _ (Word w) Hocc Hin) as Hno.
    cbn in Hno. rewrite Hno. reflexivity.
Qed.

Lemma fold_simplify_closed (todo : list (str * str)) :
  forall (done : list (str * str)) (input : str),
    independent todo = true ->
    (forall e, In e todo -> unrelated (fst e) done) ->
    fold_left simplify_step todo (whole_word_simplification done input)
      = whole_word_simplification (done ++ todo) input.
Proof.
  induction todo as [|e later IH]; intros done input Hind Hun.
  - rewrite app_nil_r. reflexivity.
  - cbn [fold_left]. cbn [independent] in Hind.
    apply andb_true_iff in Hind. destruct Hind as [Hind Hlater].
    apply andb_true_iff in Hind. destruct Hind as [Hkey Hcross].
    rewrite simplify_step_closed; [| exact Hkey | apply Hun; left; reflexivity].
    rewrite IH; [rewrite <- app_assoc; reflexivity | exact Hlater |].
    intros e2 Hin2 e' Hin'. apply in_app_or in Hin'.
    destruct Hin' as [Hin' | [<- | []]].
    + apply (Hun e2); [right; exact Hin2 | exact Hin'].
    + rewrite forallb_forall in Hcross. specialize (Hcross e2 Hin2).
      apply andb_true_iff in Hcross. rewrite !negb_true_iff in Hcross. exact Hcross.
Qed.

Lemma whole_word_simplification_nil (input : str) :
  whole_word_simplification [] input = {| content := input; replacements := [] |}.
Proof.
  unfold whole_word_simplification. cbn [filter map]. f_equal.
  rewrite <- (tokens_text input) at 2. apply flat_map_ext_in.
  intros [w|c] _; reflexivity.
Qed.

Lemma vocabularyMappings_independent (level : str) :
  independent (vocabularyMappings level) = true.
Proof.
  unfold vocabularyMappings.
  destruct (str_eqb level (lit "basic")); [vm_compute; reflexivity|].
  destruct (str_eqb level (lit "intermediate")); vm_compute; reflexivity.
Qed.

(** C3 as stated fails: a matched term does not give way to its simple
    replacement but to markup that wraps it, and the markup carries the
    complex term, so the term is still in the output. *)
Lemma replacement_is_wrapped_in_markup :
  content (simplifyVocabulary (lit "ubiquitous") (lit "basic"))
    = simplified_span (lit "ubiquitous") (lit "everywhere")
  /\ content (simplifyVocabulary (lit "ubiquitous") (lit "basic")) <> lit "everywhere"
  /\ includes (content (simplifyVocabulary (lit "ubiquitous") (lit "basic")))
       (lit "ubiquitous") = true.
Proof.
  split; [vm_compute; reflexivity|]. split; [|vm_compute; reflexivity].
  intros E. apply str_eqb_eq in E. vm_compute in E. discriminate E.
Qed.

(** C3 (amended). For every input text and every simplification level,
    simplifyVocabulary rewrites exactly the whole words of the text (the
    maximal runs of letters, digits and underscores) that equal a complex
    term of the level's table, letter case aside: every such word gives
    way to the span markup of its entry, which wraps the simple
    replacement and carries the complex term in its attributes; every
    other word and every code unit between words stays as it is, so a
    term never matches inside a larger word.  The replacements list has
    exactly one entry, of the form "<complex>" -> "<simple>" (with the
    arrow U+2192), per term of the table that occurs in the text as a
    whole word, in table order, however often it occurs. *)
Theorem simplifyVocabulary_rewrites_whole_words :
  forall (input level : str),
    content (simplifyVocabulary input level)
      = flat_map (simplify_token (vocabularyMappings level)) (tokens input)
    /\ replacements (simplifyVocabulary input level)
      = map replacement_entry
          (filter (fun e => term_occurs (fst e) input) (vocabularyMappings level)).
Proof.
  intros input level. unfold simplifyVocabulary.
  rewrite <- whole_word_simplification_nil.
  rewrite fold_simplify_closed.
  - split; reflexivity.
  - apply vocabularyMappings_independent.
  - intros e _ e' [].
Qed.

(** The markup keeps the complex term in its attributes, where a second
    application finds it again: the simplifier is not idempotent. *)
Example second_application_rewrites_the_markup :
  let once := content (simplifyVocabulary (lit "ubiquitous") (lit "basic")) in
  content (simplifyVocabulary once (lit "basic")) <> once.
Proof.
  cbv zeta. intros E. apply str_eqb_eq in E. vm_compute in E. discriminate E.
Qed.

(** The first concrete scenario of the specification, and the
    word-boundary property: "ubiquitously" is left alone. *)
Example scenario_ubiquitous_proliferation :
  simplifyVocabulary (lit "The ubiquitous proliferation, ubiquitously.") (lit "basic")
  = {| content :=
         lit "The " ++ simplified_span (lit "ubiquitous") (lit "everywhere")
           ++ lit " " ++ simplified_span (lit "proliferation") (lit "spread")
           ++ lit ", ubiquitously.";
       replacements :=
         [ quoted (lit "ubiquitous") ++ lit " " ++ arrow ++ lit " "
             ++ quoted (lit "everywhere");
           quoted (lit "proliferation") ++ lit " " ++ arrow ++ lit " "
             ++ quoted (lit "spread") ] |}.
Proof. vm_compute. reflexivity. Qed.

End VocabularyFacts.

(** ** Analogy annotator *)

Module AnalogyFacts.
Import Pattern PatternFacts Analogy.

(** The keys and the texts put in place of matches are within the reach
    of the pattern model: plain keys, no [$] in a replacement. *)
Lemma tables_are_plain :
  forallb (fun e => plain_key (fst e) && plain_replacement (annotated e)) analogyMap
  && forallb (fun e => plain_key (fst e)
                       && plain_replacement
                            (Vocabulary.simplified_span (fst e) (snd e)))
       (Vocabulary.basic ++ Vocabulary.intermediate) = true.
Proof. vm_compute. reflexivity. Qed.

Lemma analogy_keys_nonempty (e : str * str) : In e analogyMap -> fst e <> [].
Proof.
  intros Hin. apply plain_key_nonempty.
  pose proof tables_are_plain as H. apply andb_true_iff in H. destruct H as [H _].
  rewrite forallb_forall in H. specialize (H e Hin).
  apply andb_true_iff in H. apply H.
Qed.

(** C2 as stated fails: with two occurrences of a concept, the later
    one is not left as it was; both are rewritten to the concept followed
    by the marker, and one entry is logged. *)
Lemma later_occurrences_are_annotated_too :
  addAnalogies (lit "photosynthesis and photosynthesis")
  = {| content := annotated photosynthesis ++ lit " and " ++ annotated photosynthesis;
       analogies := [lit "Added analogy for " ++ quoted (lit "photosynthesis")] |}
  /\ annotated photosynthesis <> lit "photosynthesis".
Proof.
  split; [vm_compute; reflexivity|].
  intros E. apply str_eqb_eq in E. vm_compute in E. discriminate E.
Qed.

(** *** The cut of the pattern model is the leftmost cut *)

Lemma last_cons (A : Type) (l : list A) :
  forall x d : A, last (x :: l) d = last l x.
Proof.
  induction l as [|y l IH]; intros x d; [reflexivity|].
  change (last (x :: y :: l) d) with (last (y :: l) d).
  rewrite !IH. reflexivity.
Qed.

Lemma last_append (A : Type) (l1 l2 : list A) :
  forall d : A, last (l1 ++ l2) d = last l2 (last l1 d).
Proof.
  induction l1 as [|x l1 IH]; intros d; [reflexivity|].
  cbn [app]. rewrite !last_cons. apply IH.
Qed.

Lemma last_unit_after (before m : str) :
  m <> [] -> AnnotationSpec.last_unit (before ++ m) = AnnotationSpec.last_unit m.
Proof.
  intros Hne. unfold AnnotationSpec.last_unit. rewrite map_app, last_append.
  apply last_default. destruct m; [congruence | discriminate].
Qed.

Lemma before_rest_last_unit (prev : option char) (m : str) :
  m <> [] -> before_rest prev m = AnnotationSpec.last_unit m.
Proof.
  intros Hne. unfold before_rest, AnnotationSpec.last_unit.
  apply last_default. destruct m; [congruence | discriminate].
Qed.

Lemma hd_error_app (A : Type) (m rest : list A) :
  m <> [] -> hd_error (m ++ rest) = hd_error m.
Proof. destruct m; [congruence | reflexivity]. Qed.

(** A match of the model at a position is an occurrence there. *)
Lemma match_here_occurrence (key before s m rest : str) :
  m <> [] ->
  match_here key (AnnotationSpec.last_unit before) s = Some (m, rest) ->
  s = m ++ rest /\ AnnotationSpec.occurrence key before m rest.
Proof.
  intros Hne H. apply match_here_sound in H.
  destruct H as (-> & Hsame & Hb1 & Hb2). split; [reflexivity|].
  split; [exact Hne|]. split; [exact Hsame|].
  rewrite (@hd_error_app _ m rest Hne) in Hb1.
  rewrite (@before_rest_last_unit _ m Hne) in Hb2. split; assumption.
Qed.

(** Where the model finds no match, no occurrence starts. *)
Lemma no_match_no_occurrence (key before s : str) :
  match_here key (AnnotationSpec.last_unit before) s = None ->
  forall m rest, s = m ++ rest -> ~ AnnotationSpec.occurrence key before m rest.
Proof.
  intros Hnone m rest -> (Hne & Hsame & Hb1 & Hb2).
  unfold match_here in Hnone.
  rewrite (@hd_error_app _ m rest Hne), Hb1 in Hnone.
  rewrite (@match_literal_complete key m rest Hsame) in Hnone.
  rewrite (@before_rest_last_unit _ m Hne), Hb2 in Hnone. discriminate Hnone.
Qed.

Lemma cut_leftmost (key : str) (prev : option char) (s : str) (segs : list segment) :
  cut key prev s segs ->
  forall before : str,
    prev = AnnotationSpec.last_unit before ->
    AnnotationSpec.leftmost key before s segs.
Proof.
  induction 1 as [prev _ | prev s m rest segs Hm Hne _ IH | prev c s segs Hm _ IH];
    intros before ->.
  - constructor.
  - destruct (@match_here_occurrence key before s m rest Hne Hm) as [-> Hocc].
    constructor; [exact Hocc|].
    apply IH. rewrite (@before_rest_last_unit _ m Hne).
    symmetry. apply last_unit_after; exact Hne.
  - constructor.
    + apply no_match_no_occurrence; exact Hm.
    + apply IH. unfold AnnotationSpec.last_unit.
      rewrite map_app, last_append. reflexivity.
Qed.

Lemma occurrences_leftmost (key s : str) :
  key <> [] -> AnnotationSpec.leftmost key [] s (occurrences key s).
Proof.
  intros Hkey.
  apply (@cut_leftmost key None s _ (@occurrences_cut key s Hkey)). reflexivity.
Qed.

Lemma matched_exists (segs : list segment) :
  existsb is_matched segs = true <-> exists m, In (Matched m) segs.
Proof.
  rewrite existsb_exists. split.
  - intros ([c|m] & Hin & Hm); [discriminate Hm|]. exists m; exact Hin.
  - intros (m & Hin). exists (Matched m). split; [exact Hin | reflexivity].
Qed.

(** *** Properties of the leftmost cut *)

Lemma leftmost_matched (key : str) (pre s : str) (segs : list segment) :
  AnnotationSpec.leftmost key pre s segs ->
  forall m, In (Matched m) segs ->
    exists before after,
      s = before ++ m ++ after
      /\ AnnotationSpec.occurrence key (pre ++ before) m after.
Proof.
  induction 1 as [pre | pre m0 after0 segs Hocc _ IH | pre c after0 segs _ _ IH];
    intros m Hin.
  - destruct Hin.
  - destruct Hin as [E | Hin].
    + injection E as <-. exists [], after0. rewrite app_nil_r.
      split; [reflexivity | exact Hocc].
    + destruct (IH m Hin) as (before & after & -> & Hm).
      exists (m0 ++ before), after. rewrite <- !app_assoc. split; [reflexivity|].
      rewrite <- app_assoc in Hm. exact Hm.
  - destruct Hin as [E | Hin]; [discriminate E|].
    destruct (IH m Hin) as (before & after & -> & Hm).
    exists (c :: before), after. split; [reflexivity|].
    rewrite <- app_assoc in Hm. exact Hm.
Qed.

Lemma leftmost_none (key : str) (pre s : str) (segs : list segment) :
  AnnotationSpec.leftmost key pre s segs ->
  (forall m, ~ In (Matched m) segs) ->
  forall before m after,
    s = before ++ m ++ after ->
    ~ AnnotationSpec.occurrence key (pre ++ before) m after.
Proof.
  induction 1 as [pre | pre m0 after0 segs _ _ _ | pre c after0 segs Hno _ IH];
    intros Hnone before m after E.
  - intros (Hne & _). destruct before; [|discriminate E].
    destruct m; [congruence | discriminate E].
  - exfalso. apply (Hnone m0). left; reflexivity.
  - destruct before as [|b before].
    + rewrite app_nil_r. apply Hno. exact E.
    + cbn [app] in E. injection E as <- E.
      replace (pre ++ c :: before) with ((pre ++ [c]) ++ before)
        by (rewrite <- app_assoc; reflexivity).
      apply IH; [|exact E].
      intros m' Hin. apply (Hnone m'). right; exact Hin.
Qed.

Lemma occurrence_length (key before m after : str) :
  AnnotationSpec.occurrence key before m after -> List.length m = List.length key.
Proof. intros (_ & Hsame & _). apply same_text_length; exact Hsame. Qed.

Lemma app_same_length (A : Type) (m1 m2 r1 r2 : list A) :
  m1 ++ r1 = m2 ++ r2 -> List.length m1 = List.length m2 -> m1 = m2 /\ r1 = r2.
Proof.
  revert m2. induction m1 as [|x m1 IH]; intros [|y m2] E Hlen;
    try discriminate Hlen.
  - split; [reflexivity | exact E].
  - cbn [app] in E. injection E as -> E. cbn in Hlen.
    destruct (IH m2 E ltac:(lia)) as [-> ->]. split; reflexivity.
Qed.

(** What a leftmost cut can be, by the text it cuts. *)
Lemma leftmost_cases (key : str) (pre s : str) (segs : list segment) :
  AnnotationSpec.leftmost key pre s segs ->
  (s = [] /\ segs = [])
  \/ (exists m after segs',
        s = m ++ after /\ AnnotationSpec.occurrence key pre m after
        /\ AnnotationSpec.leftmost key (pre ++ m) after segs'
        /\ segs = Matched m :: segs')
  \/ (exists c after segs',
        s = c :: after
        /\ (forall m after', c :: after = m ++ after' ->
                             ~ AnnotationSpec.occurrence key pre m after')
        /\ AnnotationSpec.leftmost key (pre ++ [c]) after segs'
        /\ segs = Kept c :: segs').
Proof.
  intros H. destruct H as [pre | pre m after segs Hocc Hrest | pre c after segs Hno Hrest].
  - left. split; reflexivity.
  - right; left. exists m, after, segs.
    split; [reflexivity|]. split; [exact Hocc|]. split; [exact Hrest | reflexivity].
  - right; right. exists c, after, segs.
    split; [reflexivity|]. split; [exact Hno|]. split; [exact Hrest | reflexivity].
Qed.

(** The leftmost cut of a text is unique. *)
Lemma leftmost_unique (key : str) (pre s : str) (segs1 : list segment) :
  AnnotationSpec.leftmost key pre s segs1 ->
  forall segs2, AnnotationSpec.leftmost key pre s segs2 -> segs1 = segs2.
Proof.
  induction 1 as [pre | pre m after segs Hocc _ IH | pre c after segs Hno _ IH];
    intros segs2 H2; apply leftmost_cases in H2.
  - destruct H2 as [[_ ->] | [(m2 & after2 & segs2' & E & Hocc2 & _)
                             | (c2 & after2 & segs2' & E & _)]];
      [reflexivity | | discriminate E].
    destruct Hocc2 as (Hne & _). destruct m2; [congruence | discriminate E].
  - assert (Hne : m <> []) by apply Hocc.
    destruct H2 as [[E _] | [(m2 & after2 & segs2' & E & Hocc2 & Hrest2 & ->)
                            | (c2 & after2 & segs2' & E & Hno2 & _)]].
    + destruct m; [congruence | discriminate E].
    + destruct (@app_same_length _ m m2 after after2 E) as [<- <-].
      { rewrite (@occurrence_length _ _ _ _ Hocc2), (@occurrence_length _ _ _ _ Hocc).
        reflexivity. }
      f_equal. apply IH; exact Hrest2.
    + exfalso. apply (Hno2 m after); [symmetry; exact E | exact Hocc].
  - destruct H2 as [[E _] | [(m2 & after2 & segs2' & E & Hocc2 & _)
                            | (c2 & after2 & segs2' & E & _ & Hrest2 & ->)]].
    + discriminate E.
    + exfalso. apply (Hno m2 after2); [exact E | exact Hocc2].
    + injection E as <- <-. f_equal. apply IH; exact Hrest2.
Qed.

(** *** The rounds of the annotator *)

Lemma fold_annotated (table : list (str * str)) :
  (forall e, In e table -> fst e <> []) ->
  forall state : Annotated,
  exists log : list str,
    analogies (fold_left annotate_step table state) = analogies state ++ log
    /\ AnnotationSpec.annotated_by table (content state)
         (content (fold_left annotate_step table state)) log.
Proof.
  induction table as [|e table IH]; intros Hkeys state; cbn [fold_left].
  - exists []. split; [rewrite app_nil_r; reflexivity | constructor].
  - assert (Hkey : fst e <> []) by (apply Hkeys; left; reflexivity).
    pose proof (@occurrences_leftmost (fst e) (content state) Hkey) as Hcut.
    destruct (IH (fun e' H => Hkeys e' (or_intror H)) (annotate_step state e))
      as (log & Hlog & Hrounds).
    unfold annotate_step in *. unfold regex_test, regex_replace in *.
    destruct (existsb is_matched (occurrences (fst e) (content state))) eqn:Hany.
    + exists ((lit "Added analogy for " ++ quoted (fst e)) :: log). split.
      * rewrite Hlog. cbn [analogies]. rewrite <- app_assoc. reflexivity.
      * apply (@AnnotationSpec.annotated_hit e table (content state) _ _ log Hcut).
        -- apply matched_exists; exact Hany.
        -- exact Hrounds.
    + exists log. split; [exact Hlog|].
      apply AnnotationSpec.annotated_miss; [|exact Hrounds].
      intros before m after E.
      apply (@leftmost_none _ [] _ _ Hcut); [|exact E].
      intros m' Hin.
      assert (Hyes : existsb is_matched (occurrences (fst e) (content state)) = true)
        by (apply matched_exists; exists m'; exact Hin).
      congruence.
Qed.

(** The rounds determine the text and the log. *)
Lemma annotated_by_unique (table : list (str * str)) (text final1 : str)
    (log1 : list str) :
  AnnotationSpec.annotated_by table text final1 log1 ->
  forall final2 log2,
    AnnotationSpec.annotated_by table text final2 log2 ->
    final1 = final2 /\ log1 = log2.
Proof.
  induction 1 as [text | e table text segs final log Hcut Hany _ IH
                 | e table text final log Hno _ IH];
    intros final2 log2 H2.
  - inversion H2; subst. split; reflexivity.
  - inversion H2 as [ | ? ? ? segs2 ? log2' Hcut2 Hany2 Hrest2
                    | ? ? ? ? ? Hno2 Hrest2 ]; subst.
    + rewrite (@leftmost_unique _ _ _ _ Hcut2 _ Hcut) in Hrest2.
      destruct (IH _ _ Hrest2) as [-> ->]. split; reflexivity.
    + exfalso. destruct Hany as (m & Hin).
      destruct (@leftmost_matched _ _ _ _ Hcut m Hin) as (before & after & E & Hocc).
      exact (Hno2 before m after E Hocc).
  - inversion H2 as [ | ? ? ? segs2 ? log2' Hcut2 Hany2 Hrest2
                    | ? ? ? ? ? Hno2 Hrest2 ]; subst.
    + exfalso. destruct Hany2 as (m & Hin).
      destruct (@leftmost_matched _ _ _ _ Hcut2 m Hin) as (before & after & E & Hocc).
      exact (Hno before m after E Hocc).
    + apply IH; exact Hrest2.
Qed.

(** C2 (amended). For every content, addAnalogies goes through the
    concepts of the table in order, each on the text the earlier rounds
    left.  A concept that occurs in that text (as a whole phrase, letter
    case aside) has every occurrence, taken from left to right and not
    only the first, replaced by the concept as the table spells it
    followed by the analogy marker, everything else being kept, and
    gets exactly one log entry however often it occurs; a concept that
    does not occur changes neither text nor log.  The returned content
    and log are the only ones that fit this description. *)
Theorem annotation_marks_every_occurrence :
  forall input : str,
    AnnotationSpec.annotated_by analogyMap input
      (content (addAnalogies input)) (analogies (addAnalogies input))
    /\ (forall (final : str) (log : list str),
          AnnotationSpec.annotated_by analogyMap input final log ->
          final = content (addAnalogies input)
          /\ log = analogies (addAnalogies input)).
Proof.
  intros input.
  destruct (@fold_annotated analogyMap analogy_keys_nonempty
              {| content := input; analogies := [] |}) as (log & Hlog & Hrounds).
  cbn [content analogies app] in Hlog, Hrounds.
  assert (Hown : AnnotationSpec.annotated_by analogyMap input
                   (content (addAnalogies input)) (analogies (addAnalogies input))).
  { unfold addAnalogies. rewrite Hlog. exact Hrounds. }
  split; [exact Hown|].
  intros final other Hother.
  destruct (@annotated_by_unique _ _ _ _ Hother _ _ Hown) as [-> ->].
  split; reflexivity.
Qed.

(** Two occurrences of one concept, the first capitalised: both give
    way to the table's spelling with the marker, and the log has one
    entry. *)
Lemma annotation_marks_every_occurrence_witness :
  AnnotationSpec.annotated_by analogyMap (lit "Photosynthesis, photosynthesis!")
    (AnnotationSpec.concept_with_marker (lit "photosynthesis") (snd photosynthesis)
     ++ lit ", "
     ++ AnnotationSpec.concept_with_marker (lit "photosynthesis") (snd photosynthesis)
     ++ lit "!")
    [lit "Added analogy for " ++ quoted (lit "photosynthesis")].
Proof.
  exact (proj1 (annotation_marks_every_occurrence
                  (lit "Photosynthesis, photosynthesis!"))).
Defined.

End AnalogyFacts.

(** ** Transformation orchestrator *)

Lemma Returns_eq (A : Type) (x y : A) : Returns x = Returns y -> x = y.
Proof. intros E; injection E as E; exact E. Qed.

Module OrchestratorFacts.
Import Orchestrator.

Lemma chunk_loop_no_throw (sentences : list str) (maxSentences : Z) (e : exn) :
  forall (fuel : nat) (i : Z),
    Chunker.chunk_loop fuel sentences maxSentences i <> Throws e.
Proof.
  induction fuel as [|fuel IH]; intros i; cbn [Chunker.chunk_loop]; [discriminate|].
  destruct (i <? Z.of_nat (List.length sentences))%Z; [|discriminate].
  specialize (IH (i + maxSentences)%Z).
  destruct (Chunker.chunk_loop fuel sentences maxSentences (i + maxSentences));
    cbn; congruence.
Qed.

Lemma forEach_paragraph_no_throw (fuel : nat) (maxSentences : Z) (e : exn) :
  forall (paragraphs : list str) (created : nat),
    Chunker.forEach_paragraph fuel maxSentences paragraphs created <> Throws e.
Proof.
  induction paragraphs as [|p rest IH]; intros created;
    cbn [Chunker.forEach_paragraph]; [discriminate|].
  destruct (Z.of_nat (List.length (Chunker.splitIntoSentences p)) >? maxSentences)%Z.
  - pose proof (@chunk_loop_no_throw (Chunker.splitIntoSentences p) maxSentences e
                  fuel 0%Z) as Hloop.
    destruct (Chunker.chunk_loop fuel (Chunker.splitIntoSentences p) maxSentences 0);
      cbn; [|congruence|discriminate].
    specialize (IH (S created)).
    destruct (Chunker.forEach_paragraph fuel maxSentences rest (S created));
      cbn; congruence.
  - specialize (IH created).
    destruct (Chunker.forEach_paragraph fuel maxSentences rest created);
      cbn; congruence.
Qed.

Lemma chunkParagraphs_no_throw (dom : Dom) (fuel : nat) (content : str)
    (maxSentences : Z) (e : exn) :
  Chunker.chunkParagraphs fuel content maxSentences <> Throws e.
Proof.
  unfold Chunker.chunkParagraphs.
  pose proof (@forEach_paragraph_no_throw fuel maxSentences e
                (paragraph_texts content) 0%nat) as H.
  destruct (Chunker.forEach_paragraph fuel maxSentences (paragraph_texts content) 0);
    cbn; congruence.
Qed.

(** A complete profile never makes the pipeline throw. *)
Lemma pipeline_complete_no_throw (dom : Dom) (fuel : nat) (content : str)
    (profile : CognitiveProfile) (e : exn) :
  complete profile -> transform_pipeline fuel content profile <> Throws e.
Proof.
  intros (t & v & c & sm & Ht & Hv & Hc & Hsm). unfold transform_pipeline.
  rewrite Ht; cbn [read bind]. rewrite Hv; cbn [read bind].
  rewrite Hc; cbn [read bind].
  destruct (str_eqb (strategy c) (lit "sentence_limit")).
  - match goal with
    | |- context [Chunker.chunkParagraphs ?f ?x ?m] =>
        pose proof (@chunkParagraphs_no_throw dom f x m e) as Hno;
        destruct (Chunker.chunkParagraphs f x m)
    end; cbn [bind]; [|congruence|discriminate].
    rewrite Hsm; cbn [read bind]. discriminate.
  - cbn [bind]. rewrite Hsm; cbn [read bind]. discriminate.
Qed.

(** A returning pipeline read through every sub-object and tags its
    result as a success. *)
Lemma pipeline_returns_complete (dom : Dom) (fuel : nat) (content : str)
    (profile : CognitiveProfile) (r : TextResult) :
  transform_pipeline fuel content profile = Returns r ->
  complete profile /\ status r = lit "success".
Proof.
  unfold transform_pipeline.
  destruct (text profile) as [t|] eqn:Ht; cbn [read bind]; [|discriminate].
  destruct (vocabulary t) as [v|] eqn:Hv; cbn [read bind]; [|discriminate].
  destruct (chunking t) as [c|] eqn:Hc; cbn [read bind]; [|discriminate].
  intros H.
  assert (Hsm : exists sm, simplification profile = Some sm /\ status r = lit "success").
  { destruct (simplification profile) as [sm|].
    - exists sm. split; [reflexivity|].
      destruct (str_eqb (strategy c) (lit "sentence_limit")).
      + match type of H with
        | context [Chunker.chunkParagraphs ?f ?x ?m] =>
            destruct (Chunker.chunkParagraphs f x m)
        end; cbn [read bind] in H; try discriminate H.
        apply Returns_eq in H. rewrite <- H. reflexivity.
      + cbn [read bind] in H. apply Returns_eq in H. rewrite <- H. reflexivity.
    - exfalso. destruct (str_eqb (strategy c) (lit "sentence_limit")).
      + match type of H with
        | context [Chunker.chunkParagraphs ?f ?x ?m] =>
            destruct (Chunker.chunkParagraphs f x m)
        end; cbn [read bind] in H; discriminate H.
      + cbn [read bind] in H. discriminate H. }
  destruct Hsm as (sm & Hsm & Hst). split; [|exact Hst].
  exists t, v, c, sm. repeat split; assumption.
Qed.

(** With a positive sentence limit the pipeline ends, given enough
    fuel. *)
Lemma pipeline_ends (dom : Dom) (content : str) (profile : CognitiveProfile) :
  positive_limit profile ->
  exists fuel0 : nat, forall fuel : nat, (fuel0 <= fuel)%nat ->
    transform_pipeline fuel content profile <> OutOfFuel.
Proof.
  intros Hlimit. unfold transform_pipeline.
  destruct (text profile) as [t|] eqn:Ht; cbn [read bind];
    [|exists 0%nat; intros; discriminate].
  destruct (vocabulary t) as [v|]; cbn [read bind];
    [|exists 0%nat; intros; discriminate].
  destruct (chunking t) as [c|] eqn:Hc; cbn [read bind];
    [|exists 0%nat; intros; discriminate].
  destruct (str_eqb (strategy c) (lit "sentence_limit")) eqn:Hs.
  - apply str_eqb_eq in Hs.
    match goal with
    | |- context [Chunker.chunkParagraphs _ ?x ?m] =>
        destruct (@ChunkerFacts.chunkParagraphs_returns dom x m
                    (Hlimit t c Ht Hc Hs)) as (fuel0 & Hrun)
    end.
    exists fuel0. intros fuel Hfuel. destruct (Hrun fuel Hfuel) as (r & ->).
    cbn [bind]. destruct (simplification profile); cbn [read bind]; discriminate.
  - exists 0%nat. intros fuel _. cbn [bind].
    destruct (simplification profile); cbn [read bind]; discriminate.
Qed.

(** With a non-positive step, a paragraph list that is not empty
    exhausts every budget. *)
Lemma forEach_paragraph_stuck (maxSentences : Z) (paragraphs : list str) :
  (maxSentences <= 0)%Z -> paragraphs <> [] ->
  forall fuel created : nat,
    Chunker.forEach_paragraph fuel maxSentences paragraphs created = OutOfFuel.
Proof.
  intros Hmax Hne fuel created. destruct paragraphs as [|para rest]; [congruence|].
  cbn [Chunker.forEach_paragraph].
  pose proof (ChunkerFacts.splitIntoSentences_nonempty para) as Hlen.
  destruct (Z.gtb_spec (Z.of_nat (List.length (Chunker.splitIntoSentences para)))
              maxSentences) as [_|Hle]; [|lia].
  rewrite ChunkerFacts.chunk_loop_stuck; [reflexivity | exact Hmax | | lia].
  intros E; rewrite E in Hlen; cbn in Hlen; lia.
Qed.

(** C9 (the code's behaviour at the failing inputs). The fail-safe of
    transformText does not cover every profile: for every profile that
    has its text, vocabulary and chunking settings with the strategy
    sentence_limit and a limit of 0 or less, and every content in which
    the chunking step finds at least one paragraph, the call is out of
    fuel under every budget.  It returns no result at all, neither one
    tagged "error" that carries the original content nor one tagged
    "success": the chunking loop inside the try block never ends, and
    there is no exception for the catch block to turn into the
    fallback. *)
Theorem nonpositive_limit_defeats_the_fail_safe :
  forall (dom : Dom) (content : str) (profile : CognitiveProfile)
         (t : TextSettings) (v : Vocabulary) (c : Chunking),
    text profile = Some t -> vocabulary t = Some v -> chunking t = Some c ->
    strategy c = lit "sentence_limit" -> (maxLength c <= 0)%Z ->
    paragraph_texts
      (if negb (str_eqb (simplificationLevel v) (lit "none"))
       then Vocabulary.content
              (Vocabulary.simplifyVocabulary content (simplificationLevel v))
       else content) <> [] ->
    forall fuel : nat,
      transformText fuel content profile = OutOfFuel
      /\ (forall r : TextResult, transformText fuel content profile <> Returns r)
      /\ (forall e : exn, transform_pipeline fuel content profile <> Throws e).
Proof.
  intros dom content profile t v c Ht Hv Hc Hs Hmax Hne fuel.
  assert (Hp : transform_pipeline fuel content profile = OutOfFuel).
  { unfold transform_pipeline.
    rewrite Ht; cbn [read bind]. rewrite Hv; cbn [read bind].
    rewrite Hc; cbn [read bind]. rewrite Hs, str_eqb_refl.
    unfold Chunker.chunkParagraphs.
    destruct (negb (str_eqb (simplificationLevel v) (lit "none"))); cbn [fst];
      rewrite (@forEach_paragraph_stuck (maxLength c) _ Hmax Hne fuel 0%nat);
      reflexivity. }
  unfold transformText. rewrite Hp.
  split; [reflexivity|]. split; intros; discriminate.
Qed.

Lemma nonpositive_limit_defeats_the_fail_safe_witness :
  @transformText one_paragraph_dom 1000 (lit "One. Two.") Levels.zero_limit_profile
    = OutOfFuel
  /\ (forall r : TextResult,
        @transformText one_paragraph_dom 1000 (lit "One. Two.")
          Levels.zero_limit_profile <> Returns r)
  /\ (forall e : exn,
        @transform_pipeline one_paragraph_dom 1000 (lit "One. Two.")
          Levels.zero_limit_profile <> Throws e).
Proof.
  apply (@nonpositive_limit_defeats_the_fail_safe one_paragraph_dom
           (lit "One. Two.") Levels.zero_limit_profile
           {| chunking := Some {| strategy := lit "sentence_limit"; maxLength := 0 |};
              vocabulary := Some {| simplificationLevel := lit "basic" |} |}
           {| simplificationLevel := lit "basic" |}
           {| strategy := lit "sentence_limit"; maxLength := 0 |}).
  - reflexivity.
  - reflexivity.
  - reflexivity.
  - reflexivity.
  - simpl. lia.
  - discriminate.
Defined.

End OrchestratorFacts.

(* ===================================================================== *)
(** * Part III. Further properties of the services                        *)
(* ===================================================================== *)

(** ** Counters of the visual analysis *)

Module VisualCounts.
Import Visual.

(** Every action literal is of exactly one of the three counted kinds. *)
Lemma action_kind (a : Action) :
  (if action_eqb a hide then 1 else 0)
  + (if includes (action_name a) (lit "fade") then 1 else 0)
  + (if action_eqb a keep_visible then 1 else 0) = 1.
Proof. destruct a; vm_compute; reflexivity. Qed.

Lemma counts_partition (l : list VisualAction) :
  count_where (fun a => action_eqb (va_action a) hide) l
  + count_where (fun a => includes (action_name (va_action a)) (lit "fade")) l
  + count_where (fun a => action_eqb (va_action a) keep_visible) l
  = List.length l.
Proof.
  unfold count_where. induction l as [|a l IH]; [reflexivity|].
  cbn [filter List.length]. pose proof (action_kind (va_action a)) as Hk.
  destruct (action_eqb (va_action a) hide),
    (includes (action_name (va_action a)) (lit "fade")),
    (action_eqb (va_action a) keep_visible);
    cbn [List.length]; cbn in Hk; lia.
Qed.

(** With the filter enabled the metadata counters are consistent: the
    numbers of hidden, faded and kept elements add up to
    [elementsProcessed], the number of elements passed in. *)
Theorem counters_add_up :
  forall (elements : list VisualElement) (profile : CognitiveProfile)
         (df : DistractionFilter),
    has_filter profile df -> enabled df = true ->
    exists (r : VisualAnalysis) (h f k : nat),
      analyzeVisuals elements profile = Returns r
      /\ elementsProcessed (analysis_metadata r) = Some (List.length elements)
      /\ actionsHide (analysis_metadata r) = Some h
      /\ actionsFade (analysis_metadata r) = Some f
      /\ actionsKeep (analysis_metadata r) = Some k
      /\ h + f + k = List.length elements.
Proof.
  intros elements profile df (v & Hv & Hdf) Hon. unfold analyzeVisuals.
  rewrite Hv; simpl. rewrite Hdf, Hon; simpl.
  eexists _, _, _, _. repeat split.
  rewrite counts_partition. apply length_map.
Qed.

Lemma counters_add_up_witness :
  exists (r : VisualAnalysis) (h f k : nat),
    analyzeVisuals [sidebar_ad; sidebar_figure]
      (profile_with_filter true (lit "high")) = Returns r
    /\ elementsProcessed (analysis_metadata r) = Some 2
    /\ actionsHide (analysis_metadata r) = Some h
    /\ actionsFade (analysis_metadata r) = Some f
    /\ actionsKeep (analysis_metadata r) = Some k
    /\ h + f + k = 2.
Proof.
  apply (@counters_add_up [sidebar_ad; sidebar_figure]
           (profile_with_filter true (lit "high"))
           {| enabled := true; sensitivity := lit "high" |}).
  - eexists; split; reflexivity.
  - reflexivity.
Defined.

End VisualCounts.

(** ** The generated fallback profile *)

Module FallbackProfile.
Import Fallback FallbackFacts.

Lemma either_mentioned (answer : option str) (p1 p2 : string) :
  answer_includes answer p1 || answer_includes answer p2 = true
  <-> mentions answer p1 \/ mentions answer p2.
Proof. rewrite orb_true_iff, !answer_includes_mentions. reflexivity. Qed.

Lemma neither_mentioned (answer : option str) (p1 p2 : string) :
  answer_includes answer p1 || answer_includes answer p2 = false
  <-> ~ mentions answer p1 /\ ~ mentions answer p2.
Proof. rewrite orb_false_iff, !answer_includes_not_mentions. reflexivity. Qed.

(** The reading-style answer sets the sentence limit: 3 when it contains
    "shorter" or "2-3 sentences" (letter case aside), 4 otherwise (also
    when the answer is missing); the strategy is always sentence_limit. *)
Theorem reading_style_sets_the_limit :
  forall (created updated : str) (answers : OnboardingAnswers),
    exists (t : TextSettings) (c : Chunking),
      text (generateMockProfile created updated answers) = Some t
      /\ chunking t = Some c
      /\ strategy c = lit "sentence_limit"
      /\ (mentions (q1_reading_style answers) "shorter"
          \/ mentions (q1_reading_style answers) "2-3 sentences" ->
          maxLength c = 3%Z)
      /\ (~ mentions (q1_reading_style answers) "shorter" ->
          ~ mentions (q1_reading_style answers) "2-3 sentences" ->
          maxLength c = 4%Z).
Proof.
  intros created updated answers. unfold generateMockProfile.
  eexists _, _. cbn [text chunking strategy maxLength].
  split; [reflexivity|]. split; [reflexivity|]. split; [reflexivity|]. split.
  - intros H. apply either_mentioned in H. rewrite H. reflexivity.
  - intros H1 H2.
    rewrite (proj2 (neither_mentioned _ _ _) (conj H1 H2)). reflexivity.
Qed.

Lemma reading_style_sets_the_limit_witness :
  exists (t : TextSettings) (c : Chunking),
    text (generateMockProfile [] []
            {| q1_reading_style := Some (lit "I prefer SHORTER paragraphs.");
               q2_distractions := None;
               q3_complex_topics := None |}) = Some t
    /\ chunking t = Some c /\ maxLength c = 3%Z.
Proof.
  destruct (reading_style_sets_the_limit [] []
              {| q1_reading_style := Some (lit "I prefer SHORTER paragraphs.");
                 q2_distractions := None;
                 q3_complex_topics := None |})
    as (t & c & Ht & Hc & _ & Hthree & _).
  exists t, c. split; [exact Ht|]. split; [exact Hc|].
  apply Hthree. left. apply answer_includes_mentions. vm_compute. reflexivity.
Defined.

(** The complex-topics answer sets two fields at once: the vocabulary
    level is basic when it contains "simple" or "basic" and intermediate
    otherwise, and analogies are on exactly when it contains "analog" or
    "example". *)
Theorem complex_topics_set_vocabulary_and_analogies :
  forall (created updated : str) (answers : OnboardingAnswers),
    exists (t : TextSettings) (v : Vocabulary) (sm : Simplification),
      text (generateMockProfile created updated answers) = Some t
      /\ vocabulary t = Some v
      /\ simplification (generateMockProfile created updated answers) = Some sm
      /\ (mentions (q3_complex_topics answers) "simple"
          \/ mentions (q3_complex_topics answers) "basic" ->
          simplificationLevel v = lit "basic")
      /\ (~ mentions (q3_complex_topics answers) "simple" ->
          ~ mentions (q3_complex_topics answers) "basic" ->
          simplificationLevel v = lit "intermediate")
      /\ (useAnalogies sm = true <->
          mentions (q3_complex_topics answers) "analog"
          \/ mentions (q3_complex_topics answers) "example").
Proof.
  intros created updated answers. unfold generateMockProfile.
  eexists _, _, _. cbn [text vocabulary simplification simplificationLevel useAnalogies].
  split; [reflexivity|]. split; [reflexivity|]. split; [reflexivity|].
  split; [|split].
  - intros H. apply either_mentioned in H. rewrite H. reflexivity.
  - intros H1 H2.
    rewrite (proj2 (neither_mentioned _ _ _) (conj H1 H2)). reflexivity.
  - rewrite <- either_mentioned.
    destruct (answer_includes (q3_complex_topics answers) "analog"
              || answer_includes (q3_complex_topics answers) "example");
      tauto.
Qed.

Lemma complex_topics_set_vocabulary_and_analogies_witness :
  exists (t : TextSettings) (v : Vocabulary) (sm : Simplification),
    text (generateMockProfile [] []
            {| q1_reading_style := None;
               q2_distractions := None;
               q3_complex_topics := Some (lit "Simple examples help me.") |}) = Some t
    /\ vocabulary t = Some v
    /\ simplificationLevel v = lit "basic".
Proof.
  destruct (complex_topics_set_vocabulary_and_analogies [] []
              {| q1_reading_style := None;
                 q2_distractions := None;
                 q3_complex_topics := Some (lit "Simple examples help me.") |})
    as (t & v & sm & Ht & Hv & _ & Hbasic & _).
  exists t, v, sm. split; [exact Ht|]. split; [exact Hv|].
  apply Hbasic. left. apply answer_includes_mentions. vm_compute. reflexivity.
Defined.

Lemma generated_profile_complete (created updated : str) (answers : OnboardingAnswers) :
  Orchestrator.complete (generateMockProfile created updated answers).
Proof. unfold Orchestrator.complete, generateMockProfile. eexists _, _, _, _. repeat split. Qed.

Lemma generated_profile_limit (created updated : str) (answers : OnboardingAnswers) :
  Orchestrator.positive_limit (generateMockProfile created updated answers).
Proof.
  unfold Orchestrator.positive_limit, generateMockProfile. cbn [text].
  intros t c Ht Hc _. injection Ht as <-. cbn [chunking] in Hc. injection Hc as <-.
  cbn [maxLength].
  destruct (answer_includes (q1_reading_style answers) "shorter"
            || answer_includes (q1_reading_style answers) "2-3 sentences"); lia.
Qed.

Lemma pipeline_returns_no_error (dom : Dom) (fuel : nat) (content : str)
    (profile : CognitiveProfile) (r : Orchestrator.TextResult) :
  Orchestrator.transform_pipeline fuel content profile = Returns r ->
  Orchestrator.error r = None.
Proof.
  unfold Orchestrator.transform_pipeline.
  destruct (text profile) as [t|]; cbn [read bind]; [|discriminate].
  destruct (vocabulary t) as [v|]; cbn [read bind]; [|discriminate].
  destruct (chunking t) as [c|]; cbn [read bind]; [|discriminate].
  destruct (str_eqb (strategy c) (lit "sentence_limit")).
  - match goal with
    | |- context [Chunker.chunkParagraphs ?f ?x ?m] =>
        destruct (Chunker.chunkParagraphs f x m)
    end; cbn [bind]; try discriminate.
    destruct (simplification profile) as [sm|]; cbn [read bind]; [|discriminate].
    intros E; apply Returns_eq in E. rewrite <- E. reflexivity.
  - cbn [bind].
    destruct (simplification profile) as [sm|]; cbn [read bind]; [|discriminate].
    intros E; apply Returns_eq in E. rewrite <- E. reflexivity.
Qed.

(** Whatever the onboarding answers (also none at all), the profile of
    generateMockProfile is one transformText can work with: for every
    content the call returns, given enough fuel, and its result is a
    success, never the error fallback. *)
Theorem generated_profile_always_transforms :
  forall (dom : Dom) (created updated : str) (answers : OnboardingAnswers)
         (content : str),
    exists fuel0 : nat, forall fuel : nat, (fuel0 <= fuel)%nat ->
      exists r : Orchestrator.TextResult,
        Orchestrator.transformText fuel content
          (generateMockProfile created updated answers) = Returns r
        /\ Orchestrator.status r = lit "success"
        /\ Orchestrator.error r = None.
Proof.
  intros dom created updated answers content.
  destruct (@OrchestratorFacts.pipeline_ends dom content
              (generateMockProfile created updated answers)
              (@generated_profile_limit created updated answers)) as (fuel0 & Hends).
  exists fuel0. intros fuel Hfuel. specialize (Hends fuel Hfuel).
  unfold Orchestrator.transformText.
  destruct (Orchestrator.transform_pipeline fuel content
              (generateMockProfile created updated answers)) as [r|e|] eqn:Hp.
  - exists r. split; [reflexivity|]. split.
    + apply (@OrchestratorFacts.pipeline_returns_complete dom fuel content _ r Hp).
    + apply (@pipeline_returns_no_error dom fuel content _ r Hp).
  - exfalso.
    exact (@OrchestratorFacts.pipeline_complete_no_throw dom fuel content _ e
             (@generated_profile_complete created updated answers) Hp).
  - congruence.
Qed.

End FallbackProfile.

(** ** The rewriting passes only add text *)

Module Growth.
Import Pattern PatternFacts.

(** Putting a text at least as long as the key in place of every match
    never shortens the content, and lengthens it when the text is longer
    than the key and something matched. *)
Lemma cut_replace_length (key r : str) (prev : option char) (s : str)
    (segs : list segment) :
  cut key prev s segs ->
  (List.length key <= List.length r)%nat ->
  (List.length s
   <= List.length (flat_map (fun g => match g with
                                      | Kept c => [c]
                                      | Matched _ => r
                                      end) segs))%nat
  /\ (existsb is_matched segs = true ->
      (List.length key < List.length r)%nat ->
      (List.length s
       < List.length (flat_map (fun g => match g with
                                         | Kept c => [c]
                                         | Matched _ => r
                                         end) segs))%nat).
Proof.
  intros Hcut Hle.
  induction Hcut as [prev _ | prev s m rest segs Hm _ _ [IH1 IH2]
                    | prev c s segs _ _ [IH1 IH2]];
    cbn [flat_map existsb is_matched orb List.length].
  - split; [lia | discriminate].
  - destruct (match_here_sound _ _ _ Hm) as (-> & Hsame & _).
    apply same_text_length in Hsame.
    rewrite !length_app. split; [lia | intros _ Hlt; lia].
  - cbn [app List.length]. split; [lia | intros Hex Hlt; specialize (IH2 Hex Hlt); lia].
Qed.

Lemma regex_replace_length (key r s : str) :
  key <> [] -> (List.length key < List.length r)%nat ->
  (List.length s <= List.length (regex_replace key r s))%nat
  /\ (regex_test key s = true ->
      (List.length s < List.length (regex_replace key r s))%nat).
Proof.
  intros Hkey Hlt. unfold regex_replace, regex_test.
  destruct (@cut_replace_length key r None s (occurrences key s)
              (occurrences_cut s Hkey) ltac:(lia)) as [H1 H2].
  split; [exact H1 | intros Ht; apply H2; [exact Ht | exact Hlt]].
Qed.

Lemma span_longer (e : str * str) :
  (List.length (fst e)
   < List.length (Vocabulary.simplified_span (fst e) (snd e)))%nat.
Proof.
  unfold Vocabulary.simplified_span, quoted, dquote.
  rewrite !length_app. cbn [List.length]. lia.
Qed.

Lemma annotated_longer (e : str * str) :
  (List.length (fst e) < List.length (Analogy.annotated e))%nat.
Proof.
  unfold Analogy.annotated, Analogy.marker, Analogy.bulb, quoted, dquote.
  rewrite !length_app. cbn [List.length]. lia.
Qed.

Lemma independent_keys (table : list (str * str)) :
  Vocabulary.independent table = true ->
  forall e, In e table -> fst e <> [].
Proof.
  induction table as [|a table IH]; intros Hind e Hin; [contradiction|].
  cbn [Vocabulary.independent] in Hind.
  apply andb_true_iff in Hind. destruct Hind as [Hind Hlater].
  apply andb_true_iff in Hind. destruct Hind as [Hkey _].
  destruct Hin as [<- | Hin]; [|apply IH; assumption].
  apply word_key_spec in Hkey. apply Hkey.
Qed.

Lemma simplify_fold_grows (input : str) (table : list (str * str)) :
  (forall e, In e table -> fst e <> []) ->
  forall state : Vocabulary.Simplified,
    (List.length input <= List.length (Vocabulary.content state))%nat ->
    (Vocabulary.replacements state = [] -> Vocabulary.content state = input) ->
    (Vocabulary.replacements state <> [] ->
     (List.length input < List.length (Vocabulary.content state))%nat) ->
    let final := fold_left Vocabulary.simplify_step table state in
    (List.length input <= List.length (Vocabulary.content final))%nat
    /\ (Vocabulary.replacements final = [] -> Vocabulary.content final = input)
    /\ (Vocabulary.replacements final <> [] ->
        (List.length input < List.length (Vocabulary.content final))%nat).
Proof.
  induction table as [|e table IH]; intros Hkeys state H1 H2 H3; cbn [fold_left].
  - repeat split; assumption.
  - apply IH.
    + intros e' He'. apply Hkeys. right; exact He'.
    + unfold Vocabulary.simplify_step.
      destruct (regex_test (fst e) (Vocabulary.content state)) eqn:Ht; [|exact H1].
      cbn [Vocabulary.content].
      destruct (@regex_replace_length (fst e)
                  (Vocabulary.simplified_span (fst e) (snd e))
                  (Vocabulary.content state)
                  (Hkeys e (or_introl eq_refl)) (span_longer e)) as [Hle _]. lia.
    + unfold Vocabulary.simplify_step.
      destruct (regex_test (fst e) (Vocabulary.content state)) eqn:Ht; [|exact H2].
      cbn [Vocabulary.replacements]. intros E.
      destruct (Vocabulary.replacements state); discriminate E.
    + unfold Vocabulary.simplify_step.
      destruct (regex_test (fst e) (Vocabulary.content state)) eqn:Ht; [|exact H3].
      cbn [Vocabulary.content Vocabulary.replacements]. intros _.
      destruct (@regex_replace_length (fst e)
                  (Vocabulary.simplified_span (fst e) (snd e))
                  (Vocabulary.content state)
                  (Hkeys e (or_introl eq_refl)) (span_longer e)) as [_ Hlt].
      specialize (Hlt Ht). lia.
Qed.

(** The log of simplifyVocabulary tells whether the text changed: for
    every text and level the returned content is never shorter than the
    input, and the replacements list is empty exactly when the content
    is the input itself. *)
Theorem simplifyVocabulary_log_tells_change :
  forall (input level : str),
    (List.length input
     <= List.length (Vocabulary.content (Vocabulary.simplifyVocabulary input level)))%nat
    /\ (Vocabulary.replacements (Vocabulary.simplifyVocabulary input level) = []
        <-> Vocabulary.content (Vocabulary.simplifyVocabulary input level) = input).
Proof.
  intros input level. unfold Vocabulary.simplifyVocabulary.
  destruct (@simplify_fold_grows input (Vocabulary.vocabularyMappings level)
              (independent_keys _ (VocabularyFacts.vocabularyMappings_independent level))
              {| Vocabulary.content := input; Vocabulary.replacements := [] |})
    as (H1 & H2 & H3); cbn [Vocabulary.content Vocabulary.replacements];
    [lia | reflexivity | congruence |].
  split; [exact H1|]. split; [exact H2|].
  intros E.
  destruct (Vocabulary.replacements
              (fold_left Vocabulary.simplify_step (Vocabulary.vocabularyMappings level)
                 {| Vocabulary.content := input; Vocabulary.replacements := [] |}))
    eqn:Hlog; [reflexivity|].
  exfalso. assert (Hne : s :: l <> []) by discriminate.
  specialize (H3 Hne). rewrite E in H3. lia.
Qed.

Lemma annotate_fold_grows (input : str) (table : list (str * str)) :
  (forall e, In e table -> fst e <> []) ->
  forall state : Analogy.Annotated,
    (List.length input <= List.length (Analogy.content state))%nat ->
    (Analogy.analogies state = [] -> Analogy.content state = input) ->
    (Analogy.analogies state <> [] ->
     (List.length input < List.length (Analogy.content state))%nat) ->
    let final := fold_left Analogy.annotate_step table state in
    (List.length input <= List.length (Analogy.content final))%nat
    /\ (Analogy.analogies final = [] -> Analogy.content final = input)
    /\ (Analogy.analogies final <> [] ->
        (List.length input < List.length (Analogy.content final))%nat).
Proof.
  induction table as [|e table IH]; intros Hkeys state H1 H2 H3; cbn [fold_left].
  - repeat split; assumption.
  - apply IH.
    + intros e' He'. apply Hkeys. right; exact He'.
    + unfold Analogy.annotate_step.
      destruct (regex_test (fst e) (Analogy.content state)) eqn:Ht; [|exact H1].
      cbn [Analogy.content].
      destruct (@regex_replace_length (fst e) (Analogy.annotated e)
                  (Analogy.content state)
                  (Hkeys e (or_introl eq_refl)) (annotated_longer e)) as [Hle _]. lia.
    + unfold Analogy.annotate_step.
      destruct (regex_test (fst e) (Analogy.content state)) eqn:Ht; [|exact H2].
      cbn [Analogy.analogies]. intros E.
      destruct (Analogy.analogies state); discriminate E.
    + unfold Analogy.annotate_step.
      destruct (regex_test (fst e) (Analogy.content state)) eqn:Ht; [|exact H3].
      cbn [Analogy.content Analogy.analogies]. intros _.
      destruct (@regex_replace_length (fst e) (Analogy.annotated e)
                  (Analogy.content state)
                  (Hkeys e (or_introl eq_refl)) (annotated_longer e)) as [_ Hlt].
      specialize (Hlt Ht). lia.
Qed.

(** The same for addAnalogies: the content is never shorter than the
    input, and no analogy is logged exactly when the content comes back
    unchanged. *)
Theorem addAnalogies_log_tells_change :
  forall input : str,
    (List.length input
     <= List.length (Analogy.content (Analogy.addAnalogies input)))%nat
    /\ (Analogy.analogies (Analogy.addAnalogies input) = []
        <-> Analogy.content (Analogy.addAnalogies input) = input).
Proof.
  intros input. unfold Analogy.addAnalogies.
  destruct (@annotate_fold_grows input Analogy.analogyMap
              AnalogyFacts.analogy_keys_nonempty
              {| Analogy.content := input; Analogy.analogies := [] |})
    as (H1 & H2 & H3); cbn [Analogy.content Analogy.analogies];
    [lia | reflexivity | congruence |].
  split; [exact H1|]. split; [exact H2|].
  intros E.
  destruct (Analogy.analogies
              (fold_left Analogy.annotate_step Analogy.analogyMap
                 {| Analogy.content := input; Analogy.analogies := [] |}))
    eqn:Hlog; [reflexivity|].
  exfalso. assert (Hne : s :: l <> []) by discriminate.
  specialize (H3 Hne). rewrite E in H3. lia.
Qed.

End Growth.

(** ** What the sentence splitter keeps and what it drops *)

Module Sentences.
Import Chunker ChunkerFacts SentenceShape.

(** Text without a terminator, read with no marks pending, produces no
    match. *)
Lemma match_sentences_unterminated (tail : str) :
  forallb (fun x => negb (is_terminator x)) tail = true ->
  forall body : str, match_sentences body [] tail = [].
Proof.
  intros Htail body. rewrite <- (app_nil_r tail).
  rewrite (@match_sentences_body tail Htail). reflexivity.
Qed.

(** Text after the last terminator changes no match. *)
Lemma match_sentences_tail (tail : str) :
  forallb (fun x => negb (is_terminator x)) tail = true ->
  forall (t body marks : str),
    match_sentences body marks (t ++ tail) = match_sentences body marks t.
Proof.
  intros Htail. induction t as [|c t IH]; intros body marks.
  - cbn [app]. destruct tail as [|d tail]; [reflexivity|].
    cbn [forallb] in Htail. apply andb_true_iff in Htail. destruct Htail as [Hd Htail].
    apply negb_true_iff in Hd. cbn [match_sentences]. rewrite Hd.
    destruct marks as [|m marks].
    + apply match_sentences_unterminated; exact Htail.
    + rewrite (match_sentences_unterminated _ Htail). reflexivity.
  - cbn [app match_sentences]. destruct (is_terminator c).
    + destruct body; apply IH.
    + destruct marks; [apply IH | rewrite IH; reflexivity].
Qed.

(** When a paragraph has at least one terminated sentence, whatever
    follows its last terminator belongs to no sentence: the splitter
    returns the same sentences with or without that ending, so a
    paragraph that gets chunked loses it. *)
Theorem unterminated_ending_is_dropped :
  forall (t tail : str),
    forallb (fun x => negb (is_terminator x)) tail = true ->
    match_sentences [] [] t <> [] ->
    splitIntoSentences (t ++ tail) = splitIntoSentences t.
Proof.
  intros t tail Htail Hmatch. unfold splitIntoSentences.
  rewrite (@match_sentences_tail tail Htail t [] []).
  destruct (match_sentences [] [] t); [congruence | reflexivity].
Qed.

Lemma unterminated_ending_is_dropped_witness :
  splitIntoSentences (lit "One. Two." ++ lit " and a half")
    = splitIntoSentences (lit "One. Two.").
Proof.
  apply (@unterminated_ending_is_dropped (lit "One. Two.") (lit " and a half")).
  - vm_compute. reflexivity.
  - vm_compute. discriminate.
Defined.

Lemma match_sentences_terminated (text : str) :
  forall body marks : str,
    forallb (fun x => negb (is_terminator x)) body = true ->
    forallb is_terminator marks = true ->
    (marks <> [] -> body <> []) ->
    Forall terminated (match_sentences body marks text).
Proof.
  induction text as [|c text IH]; intros body marks Hbody Hmarks Hpair;
    cbn [match_sentences].
  - destruct marks as [|m marks]; constructor; [|constructor].
    exists body, (m :: marks). repeat split; try assumption; try discriminate.
    apply Hpair; discriminate.
  - destruct (is_terminator c) eqn:Hc.
    + destruct body as [|b body].
      * apply IH; [reflexivity | reflexivity | congruence].
      * apply IH; [exact Hbody | | discriminate].
        rewrite forallb_app, Hmarks. cbn. rewrite Hc. reflexivity.
    + destruct marks as [|m marks].
      * apply IH; [| reflexivity | congruence].
        rewrite forallb_app, Hbody. cbn. rewrite Hc. reflexivity.
      * constructor.
        -- exists body, (m :: marks). repeat split; try assumption; try discriminate.
           apply Hpair; discriminate.
        -- apply IH; [cbn; rewrite Hc; reflexivity | reflexivity | congruence].
Qed.

Lemma trimStart_idempotent (s : str) : trimStart (trimStart s) = trimStart s.
Proof.
  induction s as [|c s IH]; [reflexivity|]. cbn [trimStart].
  destruct (is_space c) eqn:Hc; [exact IH|]. cbn [trimStart]. rewrite Hc. reflexivity.
Qed.

Lemma trimEnd_last_kept (front : str) (c : char) :
  is_space c = false -> trimEnd (front ++ [c]) = front ++ [c].
Proof.
  intros Hc. unfold trimEnd. rewrite rev_unit. cbn [trimStart]. rewrite Hc.
  rewrite <- rev_unit, rev_involutive. reflexivity.
Qed.

(** What trimming leaves of a match: still some text ending in the
    marks. *)
Lemma trimStart_before_marks (body marks : str) :
  marks <> [] -> forallb is_terminator marks = true ->
  exists rest : str, trimStart (body ++ marks) = rest ++ marks.
Proof.
  intros Hne Hmarks. induction body as [|b body (rest & IH)].
  - exists []. cbn [app]. destruct marks as [|m marks]; [congruence|].
    cbn [forallb] in Hmarks. apply andb_true_iff in Hmarks.
    cbn [trimStart]. rewrite (terminator_not_space _ (proj1 Hmarks)). reflexivity.
  - cbn [app trimStart]. destruct (is_space b).
    + exists rest. exact IH.
    + exists (b :: body). reflexivity.
Qed.

(** Whenever the pattern matches in the text, every sentence returned
    is non-empty, ends in one of the terminators [. ! ?], and has no
    white space at either end. *)
Theorem sentences_are_terminated_and_trimmed :
  forall text : str,
    match_sentences [] [] text <> [] ->
    Forall (fun s => s <> []
                     /\ (exists front c, s = front ++ [c] /\ is_terminator c = true)
                     /\ trim s = s)
      (splitIntoSentences text).
Proof.
  intros text Hmatch. unfold splitIntoSentences.
  pose proof (@match_sentences_terminated text [] [] eq_refl eq_refl
                ltac:(congruence)) as Hall.
  destruct (match_sentences [] [] text) as [|m ms]; [congruence|].
  apply Forall_forall. intros s Hin. apply in_map_iff in Hin.
  destruct Hin as (x & <- & Hx).
  rewrite Forall_forall in Hall.
  destruct (Hall x Hx) as (body & marks & -> & _ & _ & Hne & Hmarks).
  destruct (@exists_last _ marks Hne) as (mfront & mlast & ->).
  assert (Hlast : is_terminator mlast = true).
  { rewrite forallb_app in Hmarks. apply andb_true_iff in Hmarks.
    destruct Hmarks as [_ H]. cbn in H. rewrite andb_true_r in H. exact H. }
  assert (Hend : trimEnd (body ++ mfront ++ [mlast]) = body ++ mfront ++ [mlast]).
  { rewrite app_assoc. apply trimEnd_last_kept.
    apply terminator_not_space; exact Hlast. }
  unfold trim. rewrite Hend.
  destruct (@trimStart_before_marks body (mfront ++ [mlast]) Hne Hmarks) as (rest & Hrest).
  rewrite Hrest. split; [|split].
  - destruct rest; destruct mfront; discriminate.
  - exists (rest ++ mfront), mlast. rewrite <- app_assoc. split; [reflexivity | exact Hlast].
  - assert (Hend' : trimEnd (rest ++ mfront ++ [mlast]) = rest ++ mfront ++ [mlast]).
    { rewrite app_assoc. apply trimEnd_last_kept.
      apply terminator_not_space; exact Hlast. }
    rewrite Hend'. rewrite <- Hrest. apply trimStart_idempotent.
Qed.

Lemma sentences_are_terminated_and_trimmed_witness :
  Forall (fun s => s <> []
                   /\ (exists front c, s = front ++ [c] /\ is_terminator c = true)
                   /\ trim s = s)
    (splitIntoSentences seven_sentences).
Proof.
  apply (@sentences_are_terminated_and_trimmed seven_sentences).
  vm_compute. discriminate.
Defined.

End Sentences.

(** ** The fail-safe of the text call *)

Module TextFailSafe.

Lemma pipeline_returns_metadata (dom : Dom) (fuel : nat) (content : str)
    (profile : CognitiveProfile) (r : Orchestrator.TextResult) :
  Orchestrator.transform_pipeline fuel content profile = Returns r ->
  Orchestrator.metadata r <> None.
Proof.
  unfold Orchestrator.transform_pipeline.
  destruct (text profile) as [t|]; cbn [read bind]; [|discriminate].
  destruct (vocabulary t) as [v|]; cbn [read bind]; [|discriminate].
  destruct (chunking t) as [c|]; cbn [read bind]; [|discriminate].
  destruct (str_eqb (strategy c) (lit "sentence_limit")).
  - match goal with
    | |- context [Chunker.chunkParagraphs ?f ?x ?m] =>
        destruct (Chunker.chunkParagraphs f x m)
    end; cbn [bind]; try discriminate.
    destruct (simplification profile) as [sm|]; cbn [read bind]; [|discriminate].
    intros E; apply Returns_eq in E. rewrite <- E. discriminate.
  - cbn [bind].
    destruct (simplification profile) as [sm|]; cbn [read bind]; [|discriminate].
    intros E; apply Returns_eq in E. rewrite <- E. discriminate.
Qed.

(** For every content and every profile whose sentence limit, where the
    pipeline gets to use it, is at least one, the text call returns and
    never throws: a success with metadata and no error exactly when the
    profile has its text, vocabulary, chunking and simplification
    settings, and otherwise a result tagged "error" that carries the
    content exactly as it was given (also when an earlier step had
    already rewritten it) and no metadata. *)
Theorem transformText_returns_success_or_original :
  forall (dom : Dom) (content : str) (profile : CognitiveProfile),
    Orchestrator.positive_limit profile ->
    exists fuel0 : nat, forall fuel : nat, (fuel0 <= fuel)%nat ->
      exists r : Orchestrator.TextResult,
        Orchestrator.transformText fuel content profile = Returns r
        /\ ((Orchestrator.complete profile
             /\ Orchestrator.status r = lit "success"
             /\ Orchestrator.error r = None
             /\ Orchestrator.metadata r <> None)
            \/ (~ Orchestrator.complete profile
                /\ Orchestrator.status r = lit "error"
                /\ Orchestrator.error r <> None
                /\ Orchestrator.transformedContent r = content
                /\ Orchestrator.metadata r = None)).
Proof.
  intros dom content profile Hl.
  destruct (@OrchestratorFacts.pipeline_ends dom content profile Hl) as (fuel0 & Hends).
  exists fuel0. intros fuel Hfuel. specialize (Hends fuel Hfuel).
  unfold Orchestrator.transformText.
  destruct (Orchestrator.transform_pipeline fuel content profile) as [r|e|] eqn:Hp.
  - exists r. split; [reflexivity|]. left.
    destruct (@OrchestratorFacts.pipeline_returns_complete dom fuel content profile r Hp)
      as [Hc Hs].
    split; [exact Hc|]. split; [exact Hs|]. split.
    + apply (@FallbackProfile.pipeline_returns_no_error dom fuel content profile r Hp).
    + apply (@pipeline_returns_metadata dom fuel content profile r Hp).
  - eexists. split; [reflexivity|]. right.
    cbn [Orchestrator.error_result Orchestrator.status Orchestrator.error
         Orchestrator.transformedContent Orchestrator.metadata].
    split.
    + intros Hc.
      exact (@OrchestratorFacts.pipeline_complete_no_throw dom fuel content profile e
               Hc Hp).
    + split; [reflexivity|]. split; [discriminate|]. split; reflexivity.
  - congruence.
Qed.

(** A failure after the first step: the vocabulary step rewrites the
    text, the read of the missing chunking settings throws, and the
    result carries the original text. *)
Lemma transformText_returns_success_or_original_witness :
  exists fuel0 : nat, forall fuel : nat, (fuel0 <= fuel)%nat ->
    exists r : Orchestrator.TextResult,
      @Orchestrator.transformText one_paragraph_dom fuel (lit "A ubiquitous thing.")
        profile_without_chunking = Returns r
      /\ ((Orchestrator.complete profile_without_chunking
           /\ Orchestrator.status r = lit "success"
           /\ Orchestrator.error r = None
           /\ Orchestrator.metadata r <> None)
          \/ (~ Orchestrator.complete profile_without_chunking
              /\ Orchestrator.status r = lit "error"
              /\ Orchestrator.error r <> None
              /\ Orchestrator.transformedContent r = lit "A ubiquitous thing."
              /\ Orchestrator.metadata r = None)).
Proof.
  apply (@transformText_returns_success_or_original one_paragraph_dom
           (lit "A ubiquitous thing.") profile_without_chunking).
  intros t c Ht Hc _. injection Ht as <-. discriminate Hc.
Defined.

End TextFailSafe.

(** ** Elements of a page *)

Module PageFacts.
Import Page.

Lemma nth_error_combine_seq (A : Type) (l : list A) :
  forall (a i : nat) (x : A),
    nth_error l i = Some x ->
    nth_error (combine (seq a (List.length l)) l) i = Some ((a + i)%nat, x).
Proof.
  induction l as [|y l IH]; intros a [|i] x H; cbn in *; try discriminate.
  - injection H as ->. rewrite Nat.add_0_r. reflexivity.
  - rewrite (IH (S a) i x H). f_equal. f_equal. lia.
Qed.

Lemma nth_error_indexed (A : Type) (l : list A) (i : nat) (x : A) :
  nth_error l i = Some x -> nth_error (indexed l) i = Some (i, x).
Proof. intros H. unfold indexed. rewrite (nth_error_combine_seq l 0 i H). reflexivity. Qed.

Lemma length_indexed (A : Type) (l : list A) :
  List.length (indexed l) = List.length l.
Proof. unfold indexed. rewrite length_combine, length_seq. apply Nat.min_id. Qed.

Lemma length_extracted (document : Elements) :
  List.length (extractVisualElements document)
  = (List.length (images document) + List.length (iframes document)
     + asides document)%nat.
Proof.
  unfold extractVisualElements.
  rewrite !length_app, !length_map, !length_indexed, length_seq. lia.
Qed.

(** The elements of a page by their place in the extracted list. *)
Lemma extracted_image (document : Elements) (index : nat) (img : Image) :
  nth_error (images document) index = Some img ->
  nth_error (extractVisualElements document) index
    = Some (image_element (index, img)).
Proof.
  intros H. unfold extractVisualElements.
  rewrite nth_error_app1.
  - rewrite nth_error_map, (nth_error_indexed _ _ H). reflexivity.
  - rewrite length_map, length_indexed. apply nth_error_Some. congruence.
Qed.

Lemma extracted_iframe (document : Elements) (index : nat) (iframe : Iframe) :
  nth_error (iframes document) index = Some iframe ->
  nth_error (extractVisualElements document)
    (List.length (images document) + index)
    = Some (iframe_element (index, iframe)).
Proof.
  intros H. unfold extractVisualElements.
  rewrite nth_error_app2 by (rewrite length_map, length_indexed; lia).
  rewrite length_map, length_indexed.
  replace (List.length (images document) + index - List.length (images document))%nat
    with index by lia.
  rewrite nth_error_app1.
  - rewrite nth_error_map, (nth_error_indexed _ _ H). reflexivity.
  - rewrite length_map, length_indexed. apply nth_error_Some. congruence.
Qed.

Lemma extracted_aside (document : Elements) (index : nat) :
  (index < asides document)%nat ->
  nth_error (extractVisualElements document)
    (List.length (images document) + List.length (iframes document) + index)
    = Some (aside_element index).
Proof.
  intros H. unfold extractVisualElements.
  rewrite nth_error_app2 by (rewrite length_map, length_indexed; lia).
  rewrite length_map, length_indexed.
  rewrite nth_error_app2 by (rewrite length_map, length_indexed; lia).
  rewrite length_map, length_indexed.
  replace (List.length (images document) + List.length (iframes document) + index
           - List.length (images document) - List.length (iframes document))%nat
    with index by lia.
  rewrite nth_error_map, nth_error_seq.
  apply Nat.ltb_lt in H. rewrite H. reflexivity.
Qed.

(** The entries of the analysis, element by element. *)
Lemma analysis_entries (elements : list Visual.VisualElement)
    (profile : CognitiveProfile) (df : DistractionFilter) :
  Visual.has_filter profile df ->
  exists r,
    Visual.analyzeVisuals elements profile = Returns r
    /\ Visual.status r = lit "success"
    /\ Visual.visualActions r
       = map (fun el =>
                if enabled df then Visual.classify_element (sensitivity df) el
                else {| Visual.va_id := Visual.id el;
                        Visual.va_action := Visual.keep_visible;
                        Visual.va_reasoning := None |}) elements.
Proof.
  intros (v & Hv & Hdf). unfold Visual.analyzeVisuals.
  rewrite Hv; cbn [read bind]. rewrite Hdf.
  destruct (enabled df); cbn [negb];
    (eexists; split; [reflexivity|]; split; reflexivity).
Qed.

(** An image whose address or class contains the letters "ad" is
    treated as a sidebar advertisement, also when it lies inside an
    article or has "figure" in its alternative text, the marks of the
    always-kept article figures: under an enabled filter it is hidden at
    high sensitivity and faded to 30 percent otherwise. *)
Theorem advertising_mark_overrides_article_figure :
  forall (document : Elements) (profile : CognitiveProfile)
         (df : DistractionFilter) (index : nat) (img : Image),
    Visual.has_filter profile df -> enabled df = true ->
    nth_error (images document) index = Some img ->
    includes (toLowerCase (src img)) (lit "ad") = true
    \/ includes (toLowerCase (className img)) (lit "ad") = true ->
    exists r a,
      Visual.analyzeVisuals (extractVisualElements document) profile = Returns r
      /\ nth_error (Visual.visualActions r) index = Some a
      /\ Visual.va_id a = element_id "img-" index
      /\ Visual.va_action a
         = if str_eqb (sensitivity df) (lit "high") then Visual.hide
           else Visual.fade_to_30_percent_opacity.
Proof.
  intros document profile df index img Hf Hen Hnth Had.
  destruct (analysis_entries (extractVisualElements document) Hf)
    as (r & Hr & _ & Hactions).
  exists r. eexists. split; [exact Hr|].
  rewrite Hactions, nth_error_map, (extracted_image _ _ Hnth), Hen.
  cbn [option_map]. split; [reflexivity|]. split; [reflexivity|].
  cbn [Visual.classify_element Visual.va_action].
  unfold Visual.decide_action.
  cbn [image_element Visual.semantic_context snd].
  assert (Hctx : classifyImageContext img = lit "sidebar_advertisement").
  { unfold classifyImageContext.
    destruct Had as [-> | ->]; rewrite ?orb_true_r; reflexivity. }
  rewrite Hctx. reflexivity.
Qed.

(** An upload shown as a figure of the article: "uploads" contains
    "ad". *)
Lemma advertising_mark_overrides_article_figure_witness :
  exists r a,
    Visual.analyzeVisuals
      (extractVisualElements (@elements_after two_node_page [] []))
      (Visual.profile_with_filter true (lit "high")) = Returns r
    /\ nth_error (Visual.visualActions r) 0 = Some a
    /\ Visual.va_id a = lit "img-0"
    /\ Visual.va_action a = Visual.hide.
Proof.
  apply (@advertising_mark_overrides_article_figure
           (@elements_after two_node_page [] [])
           (Visual.profile_with_filter true (lit "high"))
           {| enabled := true; sensitivity := lit "high" |} 0%nat
           {| src := lit "/uploads/figure-1.png";
              alt := lit "Figure 1";
              className := [];
              closest_article := true;
              img_closest := {| aside_or_sidebar := false;
                                header := false;
                                footer := false;
                                article_or_main := true |} |}).
  - eexists; split; reflexivity.
  - reflexivity.
  - reflexivity.
  - left. vm_compute. reflexivity.
Defined.

(** A frame whose address contains "youtube" or "vimeo" is kept visible
    under every filter setting, wherever it lies and whatever else its
    address contains: the test comes before the one for "ads" and
    "doubleclick". *)
Theorem video_frames_are_always_kept :
  forall (document : Elements) (profile : CognitiveProfile)
         (df : DistractionFilter) (index : nat) (iframe : Iframe),
    Visual.has_filter profile df ->
    nth_error (iframes document) index = Some iframe ->
    includes (toLowerCase (iframe_src iframe)) (lit "youtube") = true
    \/ includes (toLowerCase (iframe_src iframe)) (lit "vimeo") = true ->
    exists r a,
      Visual.analyzeVisuals (extractVisualElements document) profile = Returns r
      /\ nth_error (Visual.visualActions r)
           (List.length (images document) + index) = Some a
      /\ Visual.va_id a = element_id "iframe-" index
      /\ Visual.va_action a = Visual.keep_visible.
Proof.
  intros document profile df index iframe Hf Hnth Hvideo.
  destruct (analysis_entries (extractVisualElements document) Hf)
    as (r & Hr & _ & Hactions).
  exists r. eexists. split; [exact Hr|].
  rewrite Hactions, nth_error_map, (extracted_iframe _ _ Hnth).
  cbn [option_map]. split; [reflexivity|].
  destruct (enabled df); [|split; reflexivity].
  split; [reflexivity|].
  cbn [Visual.classify_element Visual.va_action].
  unfold Visual.decide_action.
  cbn [iframe_element Visual.semantic_context snd].
  assert (Hctx : classifyIframeContext iframe = lit "educational_content").
  { unfold classifyIframeContext.
    destruct Hvideo as [-> | ->]; rewrite ?orb_true_r; reflexivity. }
  rewrite Hctx. reflexivity.
Qed.

Lemma video_frames_are_always_kept_witness :
  exists r a,
    Visual.analyzeVisuals
      (extractVisualElements
         {| images := [];
            iframes := [ {| iframe_src := lit "https://ads.doubleclick.net/f?ref=YouTube";
                            iframe_closest := {| aside_or_sidebar := true;
                                                 header := false;
                                                 footer := false;
                                                 article_or_main := false |} |} ];
            asides := 0 |})
      (Visual.profile_with_filter true (lit "high")) = Returns r
    /\ nth_error (Visual.visualActions r) 0 = Some a
    /\ Visual.va_id a = lit "iframe-0"
    /\ Visual.va_action a = Visual.keep_visible.
Proof.
  apply (@video_frames_are_always_kept
           {| images := [];
              iframes := [ {| iframe_src := lit "https://ads.doubleclick.net/f?ref=YouTube";
                              iframe_closest := {| aside_or_sidebar := true;
                                                   header := false;
                                                   footer := false;
                                                   article_or_main := false |} |} ];
              asides := 0 |}
           (Visual.profile_with_filter true (lit "high"))
           {| enabled := true; sensitivity := lit "high" |} 0%nat
           {| iframe_src := lit "https://ads.doubleclick.net/f?ref=YouTube";
              iframe_closest := {| aside_or_sidebar := true;
                                   header := false;
                                   footer := false;
                                   article_or_main := false |} |}).
  - eexists; split; reflexivity.
  - reflexivity.
  - left. vm_compute. reflexivity.
Defined.

(** Every [aside] of the page is faded to 40 percent when the filter is
    enabled with high sensitivity and kept visible under every other
    setting; no setting hides it. *)
Theorem asides_fade_only_at_high_sensitivity :
  forall (document : Elements) (profile : CognitiveProfile)
         (df : DistractionFilter) (index : nat),
    Visual.has_filter profile df ->
    (index < asides document)%nat ->
    exists r a,
      Visual.analyzeVisuals (extractVisualElements document) profile = Returns r
      /\ nth_error (Visual.visualActions r)
           (List.length (images document) + List.length (iframes document) + index)
         = Some a
      /\ Visual.va_id a = element_id "aside-" index
      /\ Visual.va_action a
         = if enabled df && str_eqb (sensitivity df) (lit "high")
           then Visual.fade_to_40_percent_opacity
           else Visual.keep_visible.
Proof.
  intros document profile df index Hf Hindex.
  destruct (analysis_entries (extractVisualElements document) Hf)
    as (r & Hr & _ & Hactions).
  exists r. eexists. split; [exact Hr|].
  rewrite Hactions, nth_error_map, (extracted_aside _ Hindex).
  cbn [option_map]. split; [reflexivity|].
  destruct (enabled df); [|split; reflexivity].
  split; [reflexivity|].
  cbn [Visual.classify_element Visual.va_action andb].
  unfold Visual.decide_action.
  cbn [aside_element Visual.semantic_context Visual.position].
  change (str_eqb (lit "sidebar_content") (lit "sidebar_advertisement")
          || str_eqb (lit "sidebar_content") (lit "popup_advertisement")
          || str_eqb (lit "sidebar_content") (lit "newsletter_signup")) with false.
  change (str_eqb (lit "sidebar_content") (lit "decorative_stock_photo")) with false.
  change (str_eqb (lit "sidebar_content") (lit "main_article_figure")
          || str_eqb (lit "sidebar_content") (lit "educational_content")) with false.
  change (str_eqb (lit "sidebar") (lit "sidebar")) with true.
  cbv iota. rewrite andb_true_r. reflexivity.
Qed.

Lemma asides_fade_only_at_high_sensitivity_witness :
  exists r a,
    Visual.analyzeVisuals
      (extractVisualElements (@elements_after two_node_page [] []))
      (Visual.profile_with_filter true (lit "medium")) = Returns r
    /\ nth_error (Visual.visualActions r) 1 = Some a
    /\ Visual.va_id a = lit "aside-0"
    /\ Visual.va_action a = Visual.keep_visible.
Proof.
  apply (@asides_fade_only_at_high_sensitivity
           (@elements_after two_node_page [] [])
           (Visual.profile_with_filter true (lit "medium"))
           {| enabled := true; sensitivity := lit "medium" |} 0%nat).
  - eexists; split; reflexivity.
  - cbn. lia.
Defined.

End PageFacts.

(** ** Identifiers of the extracted elements *)

Module PageIds.
Import Page.

Lemma lit_inj (a b : string) : lit a = lit b -> a = b.
Proof.
  unfold lit. intros H.
  rewrite <- (string_of_list_ascii_of_string a), <- (string_of_list_ascii_of_string b).
  f_equal. revert H.
  generalize (list_ascii_of_string a) (list_ascii_of_string b).
  induction l as [|x l IH]; intros [|y l']; cbn [map]; intros H;
    try discriminate; [reflexivity|].
  injection H as Hx Hl. f_equal; [|apply IH; exact Hl].
  rewrite <- (ascii_N_embedding x), <- (ascii_N_embedding y), Hx. reflexivity.
Qed.

Lemma show_count_inj (n m : nat) :
  Orchestrator.show_count n = Orchestrator.show_count m -> n = m.
Proof.
  unfold Orchestrator.show_count. intros H. apply lit_inj in H.
  assert (E : Some (Nat.to_uint n) = Some (Nat.to_uint m))
    by (rewrite <- !NilEmpty.usu, H; reflexivity).
  injection E as E.
  rewrite <- (DecimalNat.Unsigned.of_to n), <- (DecimalNat.Unsigned.of_to m), E.
  reflexivity.
Qed.

Lemma element_id_inj (prefix : string) (n m : nat) :
  element_id prefix n = element_id prefix m -> n = m.
Proof. unfold element_id. intros H. apply app_inv_head in H. apply show_count_inj, H. Qed.

Lemma map_fst_combine_seq (A : Type) (l : list A) :
  forall a : nat, map fst (combine (seq a (List.length l)) l) = seq a (List.length l).
Proof.
  induction l as [|x l IH]; intros a; cbn; [reflexivity|].
  rewrite IH. reflexivity.
Qed.

Lemma ids_of_prefix (prefix : string) (n : nat) :
  NoDup (map (element_id prefix) (seq 0 n)).
Proof.
  apply NoDup_map_NoDup_ForallPairs; [|apply seq_NoDup].
  intros x y _ _ H. apply (element_id_inj _ _ _ H).
Qed.

Lemma extracted_ids (document : Elements) :
  map Visual.id (extractVisualElements document)
  = map (element_id "img-") (seq 0 (List.length (images document)))
    ++ map (element_id "iframe-") (seq 0 (List.length (iframes document)))
    ++ map (element_id "aside-") (seq 0 (asides document)).
Proof.
  unfold extractVisualElements. rewrite !map_app, !map_map.
  cbn [image_element iframe_element aside_element Visual.id].
  f_equal; [|f_equal].
  - rewrite <- (map_fst_combine_seq (images document) 0), map_map. reflexivity.
  - rewrite <- (map_fst_combine_seq (iframes document) 0), map_map. reflexivity.
Qed.

(** No two elements of a page get the same id: the ids count from 0
    within each kind, and the three prefixes differ. *)
Theorem extracted_ids_are_distinct :
  forall document : Elements,
    NoDup (map Visual.id (extractVisualElements document)).
Proof.
  intros document. rewrite extracted_ids.
  apply NoDup_app; [apply ids_of_prefix | apply NoDup_app |];
    try apply ids_of_prefix.
  - intros x Hx Hy. apply in_map_iff in Hx. apply in_map_iff in Hy.
    destruct Hx as (i & <- & _). destruct Hy as (j & E & _).
    apply (f_equal (fun s => nth 0 s 0%N)) in E. cbn in E. discriminate E.
  - intros x Hx Hy. apply in_map_iff in Hx. destruct Hx as (i & <- & _).
    apply in_app_or in Hy. destruct Hy as [Hy|Hy];
      apply in_map_iff in Hy; destruct Hy as (j & E & _).
    + apply (f_equal (fun s => nth 1 s 0%N)) in E. cbn in E. discriminate E.
    + apply (f_equal (fun s => nth 0 s 0%N)) in E. cbn in E. discriminate E.
Qed.

End PageIds.

(** ** Page transformation *)

Module PageTransform.
Import Page.

Lemma transformText_ends (dom : Dom) (content : str) (profile : CognitiveProfile) :
  Orchestrator.positive_limit profile ->
  exists fuel0 : nat, forall fuel : nat, (fuel0 <= fuel)%nat ->
    exists r, Orchestrator.transformText fuel content profile = Returns r.
Proof.
  intros Hl.
  destruct (@OrchestratorFacts.pipeline_ends dom content profile Hl) as (fuel0 & Hends).
  exists fuel0. intros fuel Hfuel. specialize (Hends fuel Hfuel).
  unfold Orchestrator.transformText.
  destruct (Orchestrator.transform_pipeline fuel content profile) as [r|e|];
    [exists r; reflexivity | eexists; reflexivity | congruence].
Qed.

Lemma transformText_succeeds (dom : Dom) (content : str) (profile : CognitiveProfile) :
  Orchestrator.complete profile -> Orchestrator.positive_limit profile ->
  exists fuel0 : nat, forall fuel : nat, (fuel0 <= fuel)%nat ->
    exists r, Orchestrator.transformText fuel content profile = Returns r
              /\ Orchestrator.status r = lit "success".
Proof.
  intros Hc Hl.
  destruct (@OrchestratorFacts.pipeline_ends dom content profile Hl) as (fuel0 & Hends).
  exists fuel0. intros fuel Hfuel. specialize (Hends fuel Hfuel).
  unfold Orchestrator.transformText.
  destruct (Orchestrator.transform_pipeline fuel content profile) as [r|e|] eqn:Hp.
  - exists r. split; [reflexivity|].
    apply (@OrchestratorFacts.pipeline_returns_complete dom fuel content profile r Hp).
  - exfalso.
    exact (@OrchestratorFacts.pipeline_complete_no_throw dom fuel content profile e Hc Hp).
  - congruence.
Qed.

(** Without chunking settings the text pipeline fails at its second
    step, for every text. *)
Lemma transformText_without_chunking (dom : Dom) (fuel : nat) (content : str)
    (profile : CognitiveProfile) (t : TextSettings) (v : Vocabulary) :
  text profile = Some t -> vocabulary t = Some v -> chunking t = None ->
  Orchestrator.transformText fuel content profile
    = Returns (Orchestrator.error_result (ReadOfUndefined (lit "strategy")) content).
Proof.
  intros Ht Hv Hc. unfold Orchestrator.transformText, Orchestrator.transform_pipeline.
  rewrite Ht; cbn [read bind]. rewrite Hv; cbn [read bind].
  rewrite Hc; cbn [read bind]. reflexivity.
Qed.

Lemma forEach_node_ends (dom : Dom) (profile : CognitiveProfile) :
  Orchestrator.positive_limit profile ->
  forall nodes : list str,
    exists fuel0 : nat, forall fuel : nat, (fuel0 <= fuel)%nat ->
      forall count : nat,
        exists r, forEach_node fuel profile nodes count = Returns r.
Proof.
  intros Hl. induction nodes as [|n rest (f2 & IH)].
  - exists 0%nat. intros fuel _ count. eexists. reflexivity.
  - destruct (@transformText_ends dom n profile Hl) as (f1 & H1).
    exists (Nat.max f1 f2). intros fuel Hfuel count.
    destruct (H1 fuel ltac:(lia)) as (r & Hr).
    cbn [forEach_node]. rewrite Hr. cbn [bind].
    destruct (str_eqb (Orchestrator.status r) (lit "success")).
    + destruct (IH fuel ltac:(lia) (S count)) as (r' & ->). eexists. reflexivity.
    + destruct (IH fuel ltac:(lia) count) as (r' & ->). eexists. reflexivity.
Qed.

Lemma forEach_node_complete (dom : Dom) (profile : CognitiveProfile) :
  Orchestrator.complete profile -> Orchestrator.positive_limit profile ->
  forall nodes : list str,
    exists fuel0 : nat, forall fuel : nat, (fuel0 <= fuel)%nat ->
      forall count : nat,
        exists edits,
          forEach_node fuel profile nodes count
            = Returns (edits, (count + List.length nodes)%nat)
          /\ List.length edits = List.length nodes
          /\ Forall (fun e => e <> None) edits.
Proof.
  intros Hc Hl. induction nodes as [|n rest (f2 & IH)].
  - exists 0%nat. intros fuel _ count. exists []. cbn.
    rewrite Nat.add_0_r. repeat split. constructor.
  - destruct (@transformText_succeeds dom n profile Hc Hl) as (f1 & H1).
    exists (Nat.max f1 f2). intros fuel Hfuel count.
    destruct (H1 fuel ltac:(lia)) as (r & Hr & Hs).
    destruct (IH fuel ltac:(lia) (S count)) as (edits & He & Hlen & Hall).
    exists (Some (Orchestrator.transformedContent r) :: edits).
    cbn [forEach_node]. rewrite Hr. cbn [bind]. rewrite Hs, str_eqb_refl, He.
    cbn [bind fst snd List.length]. split; [|split].
    + do 2 f_equal. lia.
    + rewrite Hlen. reflexivity.
    + constructor; [discriminate | exact Hall].
Qed.

Lemma forEach_node_without_chunking (dom : Dom) (fuel : nat)
    (profile : CognitiveProfile) (t : TextSettings) (v : Vocabulary) :
  text profile = Some t -> vocabulary t = Some v -> chunking t = None ->
  forall (nodes : list str) (count : nat),
    forEach_node fuel profile nodes count
      = Returns (map (fun _ => None) nodes, count).
Proof.
  intros Ht Hv Hc. induction nodes as [|n rest IH]; intros count; [reflexivity|].
  cbn [forEach_node].
  rewrite (@transformText_without_chunking dom fuel n profile t v Ht Hv Hc).
  cbn [bind Orchestrator.error_result Orchestrator.status].
  change (str_eqb (lit "error") (lit "success")) with false. cbv iota.
  rewrite IH. reflexivity.
Qed.

(** With a complete profile and a sentence limit of at least one, the
    page call returns a success whose text counter is the number of
    selected nodes with text other than white space: every one of them
    got new markup.  Its visual counter is the number of images, frames
    and asides of the page after these assignments. *)
Theorem page_counts_every_text_node :
  forall (dom : Dom) (page : PageDom) (htmlContent : str)
         (profile : CognitiveProfile) (df : DistractionFilter),
    Orchestrator.complete profile -> Orchestrator.positive_limit profile ->
    Visual.has_filter profile df ->
    exists fuel0 : nat, forall fuel : nat, (fuel0 <= fuel)%nat ->
      exists r m edits actions,
        transformPage fuel htmlContent profile = Returns r
        /\ status r = lit "success"
        /\ metadata r = Some m
        /\ List.length edits = List.length (extractTextContent htmlContent)
        /\ Forall (fun e => e <> None) edits
        /\ transformedHtml r = serialize htmlContent edits actions
        /\ textTransformations m = List.length (extractTextContent htmlContent)
        /\ visualTransformations m
           = (List.length (images (elements_after htmlContent edits))
              + List.length (iframes (elements_after htmlContent edits))
              + asides (elements_after htmlContent edits))%nat.
Proof.
  intros dom page htmlContent profile df Hc Hl Hf.
  destruct (@forEach_node_complete dom profile Hc Hl (extractTextContent htmlContent))
    as (fuel0 & Hnodes).
  exists fuel0. intros fuel Hfuel.
  destruct (Hnodes fuel Hfuel 0%nat) as (edits & He & Hlen & Hall).
  destruct (@PageFacts.analysis_entries
              (extractVisualElements (elements_after htmlContent edits)) profile df Hf)
    as (va & Hva & Hst & Hactions).
  destruct Hc as (t & v & c & sm & Ht & Hv & Hch & Hsm).
  destruct Hf as (vis & Hvis & Hdf).
  unfold transformPage, page_pipeline. rewrite He. cbn [bind fst snd].
  rewrite Hva. cbn [bind]. rewrite Ht; cbn [read bind]. rewrite Hv; cbn [read bind].
  rewrite Hsm; cbn [read bind]. rewrite Hvis; cbn [read bind].
  eexists. eexists. exists edits. eexists.
  split; [reflexivity|]. cbn [status metadata transformedHtml].
  split; [reflexivity|]. split; [reflexivity|].
  split; [exact Hlen|]. split; [exact Hall|]. split; [reflexivity|].
  cbn [textTransformations visualTransformations]. split; [reflexivity|].
  rewrite Hactions, length_map. apply PageFacts.length_extracted.
Qed.

Lemma page_counts_every_text_node_witness :
  exists fuel0 : nat, forall fuel : nat, (fuel0 <= fuel)%nat ->
    exists r m edits actions,
      @transformPage one_paragraph_dom two_node_page fuel [] 
        (Visual.profile_with_filter true (lit "high")) = Returns r
      /\ status r = lit "success"
      /\ metadata r = Some m
      /\ List.length edits = 2%nat
      /\ Forall (fun e => e <> None) edits
      /\ transformedHtml r = @serialize two_node_page [] edits actions
      /\ textTransformations m = 2%nat
      /\ visualTransformations m = 2%nat.
Proof.
  apply (@page_counts_every_text_node one_paragraph_dom two_node_page []
           (Visual.profile_with_filter true (lit "high"))
           {| enabled := true; sensitivity := lit "high" |}).
  - eexists _, _, _, _. repeat split.
  - intros t c Ht Hc _. injection Ht as <-. injection Hc as <-. cbn. lia.
  - eexists; split; reflexivity.
Defined.

(** A profile without chunking settings is no error for the page call:
    the result is a success with a text counter of 0 and no node
    changed, because each node's own transformation failed and was
    skipped. *)
Theorem page_without_chunking_changes_no_text :
  forall (dom : Dom) (page : PageDom) (fuel : nat) (htmlContent : str)
         (profile : CognitiveProfile) (t : TextSettings) (v : Vocabulary)
         (sm : Simplification) (df : DistractionFilter),
    text profile = Some t -> vocabulary t = Some v -> chunking t = None ->
    simplification profile = Some sm -> Visual.has_filter profile df ->
    exists r m actions,
      transformPage fuel htmlContent profile = Returns r
      /\ status r = lit "success"
      /\ error r = None
      /\ metadata r = Some m
      /\ textTransformations m = 0%nat
      /\ profile_chunking m = None
      /\ transformedHtml r
         = serialize htmlContent
             (map (fun _ => None) (extractTextContent htmlContent)) actions.
Proof.
  intros dom page fuel htmlContent profile t v sm df Ht Hv Hch Hsm Hf.
  destruct (@PageFacts.analysis_entries
              (extractVisualElements
                 (elements_after htmlContent
                    (map (fun _ => None) (extractTextContent htmlContent))))
              profile df Hf) as (va & Hva & Hst & Hactions).
  destruct Hf as (vis & Hvis & Hdf).
  unfold transformPage, page_pipeline.
  rewrite (@forEach_node_without_chunking dom fuel profile t v Ht Hv Hch).
  cbn [bind fst snd]. rewrite Hva. cbn [bind].
  rewrite Ht; cbn [read bind]. rewrite Hv; cbn [read bind].
  rewrite Hsm; cbn [read bind]. rewrite Hvis; cbn [read bind].
  eexists. eexists. eexists.
  split; [reflexivity|]. cbn [status error metadata transformedHtml].
  split; [reflexivity|]. split; [reflexivity|]. split; [reflexivity|].
  cbn [textTransformations profile_chunking].
  split; [reflexivity|]. split; [exact Hch | reflexivity].
Qed.

Lemma page_without_chunking_changes_no_text_witness :
  exists r m actions,
    @transformPage one_paragraph_dom two_node_page 10 [] filter_without_chunking
      = Returns r
    /\ status r = lit "success"
    /\ error r = None
    /\ metadata r = Some m
    /\ textTransformations m = 0%nat
    /\ profile_chunking m = None
    /\ transformedHtml r = @serialize two_node_page [] [None; None] actions.
Proof.
  apply (@page_without_chunking_changes_no_text one_paragraph_dom two_node_page
           10%nat [] filter_without_chunking
           {| chunking := None;
              vocabulary := Some {| simplificationLevel := lit "basic" |} |}
           {| simplificationLevel := lit "basic" |}
           {| useAnalogies := true; summarization := None |}
           {| enabled := true; sensitivity := lit "high" |}).
  - reflexivity.
  - reflexivity.
  - reflexivity.
  - reflexivity.
  - eexists; split; reflexivity.
Defined.

(** Closes a case in which a read through the profile throws. *)
Ltac page_fails :=
  eexists; split; [reflexivity|]; right;
  cbn [status error transformedHtml metadata];
  split;
    [ intros (t' & v' & sm' & vis' & df' & Ht' & Hv' & Hsm' & Hvis' & Hdf');
      congruence
    | split; [reflexivity|]; split; [discriminate|]; split; reflexivity ].

(** Whatever the profile, a page call with a sentence limit of at least
    one returns, and never throws: a success when the profile has its
    text, vocabulary, simplification, visuals and distraction-filter
    settings, and otherwise an error result that carries the page as it
    was given and no metadata. *)
Theorem transformPage_fails_safe :
  forall (dom : Dom) (page : PageDom) (htmlContent : str)
         (profile : CognitiveProfile),
    Orchestrator.positive_limit profile ->
    exists fuel0 : nat, forall fuel : nat, (fuel0 <= fuel)%nat ->
      exists r,
        transformPage fuel htmlContent profile = Returns r
        /\ ((page_ready profile /\ status r = lit "success" /\ error r = None
             /\ metadata r <> None)
            \/ (~ page_ready profile /\ status r = lit "error" /\ error r <> None
                /\ transformedHtml r = htmlContent /\ metadata r = None)).
Proof.
  intros dom page htmlContent profile Hl.
  destruct (@forEach_node_ends dom profile Hl (extractTextContent htmlContent))
    as (fuel0 & Hnodes).
  exists fuel0. intros fuel Hfuel.
  destruct (Hnodes fuel Hfuel 0%nat) as (edits & He).
  unfold transformPage, page_pipeline. rewrite He. cbn [bind].
  unfold Visual.analyzeVisuals.
  destruct (visuals profile) as [vis|] eqn:Hvis; cbn [read bind]; [|page_fails].
  destruct (distractionFilter vis) as [df|] eqn:Hdf; [|page_fails].
  destruct (negb (enabled df)); cbn [bind];
    (destruct (text profile) as [t|] eqn:Ht; cbn [read bind]; [|page_fails];
     destruct (vocabulary t) as [v|] eqn:Hv; cbn [read bind]; [|page_fails];
     destruct (simplification profile) as [sm|] eqn:Hsm; cbn [read bind];
       [|page_fails];
     eexists; split; [reflexivity|]; left; cbn [status error metadata];
     split; [exists t, v, sm, vis, df; repeat split; assumption|];
     split; [reflexivity|]; split; [reflexivity | discriminate]).
Qed.

(** A stored profile without visual settings: the text nodes are
    transformed, then the visual analysis throws, and the page comes
    back as it was. *)
Lemma transformPage_fails_safe_witness :
  exists fuel0 : nat, forall fuel : nat, (fuel0 <= fuel)%nat ->
    exists r,
      @transformPage one_paragraph_dom two_node_page fuel (lit "<p>A. B.</p>")
        profile_without_chunking = Returns r
      /\ ((page_ready profile_without_chunking /\ status r = lit "success"
           /\ error r = None /\ metadata r <> None)
          \/ (~ page_ready profile_without_chunking /\ status r = lit "error"
              /\ error r <> None
              /\ transformedHtml r = lit "<p>A. B.</p>" /\ metadata r = None)).
Proof.
  apply (@transformPage_fails_safe one_paragraph_dom two_node_page
           (lit "<p>A. B.</p>") profile_without_chunking).
  intros t c Ht Hc _. injection Ht as <-. discriminate Hc.
Defined.

End PageTransform.

(** ** Demo authentication *)

Module AuthFacts.
Import Auth.

Lemma chosen_id (header query param : value) :
  In (id (mockAuth header query param)) validDemoUsers.
Proof.
  unfold mockAuth. cbn [id].
  destruct (or_else (or_else (or_else header query) param)
              (Text (lit "alex-chen-2025"))) as [|s|];
    [left; reflexivity | | left; reflexivity].
  cbn [is_demo_user].
  destruct (existsb (str_eqb s) validDemoUsers) eqn:E; [|left; reflexivity].
  apply existsb_exists in E. destruct E as (u & Hin & Hu).
  apply str_eqb_eq in Hu. subst u. exact Hin.
Qed.

Lemma role_of_id (header query param : value) :
  role (mockAuth header query param)
  = if includes (id (mockAuth header query param)) (lit "dr-")
    then lit "admin" else lit "student".
Proof. reflexivity. Qed.

(** Whatever a request carries in its header, query and route
    parameters, the user attached to it is one of the four demo users,
    and it is an administrator exactly when it is dr-lena-hassen-2025:
    a role check for "admin" passes for that id and no other. *)
Theorem mockAuth_attaches_a_demo_user :
  forall header query param : value,
    let user := mockAuth header query param in
    In (id user) validDemoUsers
    /\ (role user = lit "admin" <-> id user = lit "dr-lena-hassen-2025")
    /\ (role user = lit "student" <-> id user <> lit "dr-lena-hassen-2025")
    /\ (requireRole [lit "admin"] (Some user) = true
        <-> id user = lit "dr-lena-hassen-2025").
Proof.
  intros header query param user.
  pose proof (chosen_id header query param) as Hin. fold user in Hin.
  split; [exact Hin|].
  unfold requireRole. subst user. rewrite role_of_id.
  destruct Hin as [<- | [<- | [<- | [<- | []]]]];
    (split; [|split]; (split; [intros H | intros H];
       try reflexivity; try (apply str_eqb_eq in H; vm_compute in H; discriminate H);
       try (vm_compute in H; discriminate H);
       try (exfalso; apply H; reflexivity);
       try (intros E; apply str_eqb_eq in E; vm_compute in E; discriminate E))).
Qed.

(** A header id outside the demo list is not passed over in favour of a
    valid id in the query or in the route: the request gets the default
    student user. *)
Theorem unknown_header_shadows_other_ids :
  forall (header : str) (query param : value),
    header <> [] -> existsb (str_eqb header) validDemoUsers = false ->
    id (mockAuth (Text header) query param) = lit "alex-chen-2025"
    /\ role (mockAuth (Text header) query param) = lit "student".
Proof.
  intros header query param Hne Hno.
  assert (E : id (mockAuth (Text header) query param) = lit "alex-chen-2025").
  { unfold mockAuth. cbn [id]. destruct header as [|c header]; [congruence|].
    cbn [or_else truthy is_demo_user]. rewrite Hno. reflexivity. }
  split; [exact E|]. rewrite role_of_id, E. reflexivity.
Qed.

Lemma unknown_header_shadows_other_ids_witness :
  id (mockAuth (Text (lit "dr-lena")) (Text (lit "dr-lena-hassen-2025")) Undefined)
    = lit "alex-chen-2025"
  /\ role (mockAuth (Text (lit "dr-lena")) (Text (lit "dr-lena-hassen-2025")) Undefined)
    = lit "student".
Proof.
  apply (@unknown_header_shadows_other_ids (lit "dr-lena")
           (Text (lit "dr-lena-hassen-2025")) Undefined).
  - discriminate.
  - reflexivity.
Defined.

End AuthFacts.

(** ** Sentence breaks of the local fallback *)

Module LocalFallbackFacts.
Import LocalFallback.

Lemma break_head (s : str) :
  hd_error (break_sentences false s) = hd_error s.
Proof.
  destruct s as [|c rest]; [reflexivity|]. cbn [break_sentences andb].
  destruct (Chunker.is_terminator c
            && match rest with w :: _ => Chunker.is_space w | [] => false end);
    reflexivity.
Qed.

Lemma break_pending_head (s : str) :
  match break_sentences true s with
  | c :: _ => Chunker.is_space c = false
  | [] => True
  end.
Proof.
  induction s as [|c rest IH]; [exact I|]. cbn [break_sentences andb].
  destruct (Chunker.is_space c) eqn:Hc; [exact IH|].
  destruct (Chunker.is_terminator c
            && match rest with w :: _ => Chunker.is_space w | [] => false end);
    exact Hc.
Qed.

Lemma break_pending_no_space (s : str) :
  match s with
  | c :: _ => Chunker.is_space c = false
  | [] => True
  end ->
  break_sentences true s = break_sentences false s.
Proof.
  destruct s as [|c rest]; [reflexivity|]. intros Hc.
  cbn [break_sentences andb]. rewrite Hc. reflexivity.
Qed.

Lemma next_space_head (s' s : str) :
  hd_error s' = hd_error s ->
  match s' with w :: _ => Chunker.is_space w | [] => false end
  = match s with w :: _ => Chunker.is_space w | [] => false end.
Proof.
  destruct s' as [|a s']; destruct s as [|b s]; cbn [hd_error]; intros H;
    try discriminate H; [reflexivity|].
  injection H as ->. reflexivity.
Qed.

(** The sentence-break replacement is idempotent: applied to its own
    result it changes nothing, because after a first pass every
    terminator that is followed by white space is followed by exactly
    two line feeds and then by no further white space.  The same holds
    for the result of a pass that starts inside a run of white space
    after a terminator. *)
Theorem sentence_breaks_are_idempotent :
  forall (s : str) (pending : bool),
    break_sentences false (break_sentences pending s) = break_sentences pending s.
Proof.
  induction s as [|c rest IH]; intros pending; [destruct pending; reflexivity|].
  assert (Hf : break_sentences false (break_sentences false (c :: rest))
               = break_sentences false (c :: rest)).
  { cbn [break_sentences andb].
    destruct (Chunker.is_terminator c
              && match rest with w :: _ => Chunker.is_space w | [] => false end)
      eqn:Hcase.
    - apply andb_true_iff in Hcase. destruct Hcase as [Hc _].
      cbn [break_sentences andb]. rewrite Hc.
      change (Chunker.is_space 10%N) with true. cbn [andb].
      rewrite (break_pending_no_space _ (break_pending_head rest)), (IH true).
      reflexivity.
    - cbn [break_sentences andb].
      rewrite (next_space_head _ _ (break_head rest)), Hcase, (IH false).
      reflexivity. }
  destruct pending; [|exact Hf].
  cbn [break_sentences andb] in *.
  destruct (Chunker.is_space c); [exact (IH true) | exact Hf].
Qed.

(** The sentence breaks touch white space only: the code units of the
    result that are not white space are those of the text, in the same
    order. *)
Theorem sentence_breaks_change_white_space_only :
  forall (s : str) (pending : bool),
    filter (fun c => negb (Chunker.is_space c)) (break_sentences pending s)
    = filter (fun c => negb (Chunker.is_space c)) s.
Proof.
  induction s as [|c rest IH]; intros pending; [reflexivity|].
  cbn [break_sentences].
  destruct (pending && Chunker.is_space c) eqn:Hskip.
  - apply andb_true_iff in Hskip. destruct Hskip as [_ Hc].
    cbn [filter]. rewrite Hc. cbn [negb]. apply IH.
  - destruct (Chunker.is_terminator c
              && match rest with w :: _ => Chunker.is_space w | [] => false end).
    + cbn [filter]. change (Chunker.is_space 10%N) with true. cbn [negb].
      rewrite IH. reflexivity.
    + cbn [filter]. rewrite IH. reflexivity.
Qed.

End LocalFallbackFacts.

(** ** The pipeline without the chunking step *)

Module PipelineGrowth.

Lemma simplify_grows (input level : str) :
  let r := Vocabulary.simplifyVocabulary input level in
  (List.length input <= List.length (Vocabulary.content r))%nat
  /\ (Vocabulary.replacements r = [] -> Vocabulary.content r = input)
  /\ (Vocabulary.replacements r <> [] ->
      (List.length input < List.length (Vocabulary.content r))%nat).
Proof.
  unfold Vocabulary.simplifyVocabulary.
  apply (@Growth.simplify_fold_grows input (Vocabulary.vocabularyMappings level)
           (Growth.independent_keys _
              (VocabularyFacts.vocabularyMappings_independent level))
           {| Vocabulary.content := input; Vocabulary.replacements := [] |});
    cbn [Vocabulary.content Vocabulary.replacements];
    [lia | reflexivity | congruence].
Qed.

Lemma annotate_grows (input : str) :
  let r := Analogy.addAnalogies input in
  (List.length input <= List.length (Analogy.content r))%nat
  /\ (Analogy.analogies r = [] -> Analogy.content r = input)
  /\ (Analogy.analogies r <> [] ->
      (List.length input < List.length (Analogy.content r))%nat).
Proof.
  unfold Analogy.addAnalogies.
  apply (@Growth.annotate_fold_grows input Analogy.analogyMap
           AnalogyFacts.analogy_keys_nonempty
           {| Analogy.content := input; Analogy.analogies := [] |});
    cbn [Analogy.content Analogy.analogies];
    [lia | reflexivity | congruence].
Qed.

Lemma log_and_length (input middle final : str) (log1 log2 : list str) :
  (List.length input <= List.length middle)%nat ->
  (log1 = [] -> middle = input) ->
  (log1 <> [] -> (List.length input < List.length middle)%nat) ->
  (List.length middle <= List.length final)%nat ->
  (log2 = [] -> final = middle) ->
  (log2 <> [] -> (List.length middle < List.length final)%nat) ->
  (List.length input <= List.length final)%nat
  /\ (log1 ++ log2 = [] <-> final = input).
Proof.
  intros H1 H2 H3 H4 H5 H6. split; [lia|]. split.
  - intros E. apply app_eq_nil in E. destruct E as [E1 E2].
    rewrite (H5 E2). apply H2, E1.
  - intros E.
    destruct log1 as [|x log1].
    + destruct log2 as [|y log2]; [reflexivity|]. exfalso.
      assert (Hlt : (List.length middle < List.length final)%nat)
        by (apply H6; discriminate).
      rewrite E in Hlt. lia.
    + exfalso.
      assert (Hlt : (List.length input < List.length middle)%nat)
        by (apply H3; discriminate).
      rewrite E in H4. lia.
Qed.

(** With a chunking strategy other than sentence_limit the text call
    needs no document and no fuel: it returns a success whose content is
    never shorter than the input, whose metadata has the two lengths,
    and whose transformations log is empty exactly when the content
    came back unchanged. *)
Theorem log_tells_change_without_chunking :
  forall (dom : Dom) (fuel : nat) (content : str) (profile : CognitiveProfile)
         (t : TextSettings) (v : Vocabulary) (c : Chunking) (sm : Simplification),
    text profile = Some t -> vocabulary t = Some v -> chunking t = Some c ->
    simplification profile = Some sm ->
    strategy c <> lit "sentence_limit" ->
    exists r m,
      Orchestrator.transformText fuel content profile = Returns r
      /\ Orchestrator.status r = lit "success"
      /\ Orchestrator.metadata r = Some m
      /\ Orchestrator.originalLength m = List.length content
      /\ Orchestrator.transformedLength m
         = List.length (Orchestrator.transformedContent r)
      /\ (List.length content
          <= List.length (Orchestrator.transformedContent r))%nat
      /\ (Orchestrator.transformations m = []
          <-> Orchestrator.transformedContent r = content).
Proof.
  intros dom fuel content profile t v c sm Ht Hv Hc Hsm Hstrategy.
  apply str_eqb_neq in Hstrategy.
  unfold Orchestrator.transformText, Orchestrator.transform_pipeline.
  rewrite Ht; cbn [read bind]. rewrite Hv; cbn [read bind].
  rewrite Hc; cbn [read bind]. rewrite Hstrategy; cbn [bind].
  rewrite Hsm; cbn [read bind].
  eexists. eexists. split; [reflexivity|].
  cbn [Orchestrator.status Orchestrator.metadata Orchestrator.transformedContent
       Orchestrator.originalLength Orchestrator.transformedLength
       Orchestrator.transformations].
  split; [reflexivity|]. split; [reflexivity|]. split; [reflexivity|].
  split; [reflexivity|].
  pose proof (simplify_grows content (simplificationLevel v)) as (S1 & S2 & S3).
  destruct (negb (str_eqb (simplificationLevel v) (lit "none")));
    destruct (useAnalogies sm); cbn [fst snd].
  - pose proof (annotate_grows
                  (Vocabulary.content
                     (Vocabulary.simplifyVocabulary content (simplificationLevel v))))
      as (A1 & A2 & A3).
    apply (log_and_length S1 S2 S3 A1 A2 A3).
  - rewrite <- (app_nil_r (Vocabulary.replacements _)).
    apply (log_and_length S1 S2 S3 (Nat.le_refl _));
      [reflexivity | intros H; contradiction H; reflexivity].
  - pose proof (annotate_grows content) as (A1 & A2 & A3).
    apply (@log_and_length content content _ [] _ (Nat.le_refl _));
      [reflexivity | intros H; contradiction H; reflexivity
      | exact A1 | exact A2 | exact A3].
  - split; [lia|]. split; reflexivity.
Qed.

Lemma log_tells_change_without_chunking_witness :
  exists r m,
    @Orchestrator.transformText one_paragraph_dom 0 (lit "A ubiquitous thing.")
      Levels.advanced_profile = Returns r
    /\ Orchestrator.status r = lit "success"
    /\ Orchestrator.metadata r = Some m
    /\ Orchestrator.originalLength m = 19%nat
    /\ Orchestrator.transformedLength m
       = List.length (Orchestrator.transformedContent r)
    /\ (19 <= List.length (Orchestrator.transformedContent r))%nat
    /\ (Orchestrator.transformations m = []
        <-> Orchestrator.transformedContent r = lit "A ubiquitous thing.").
Proof.
  apply (@log_tells_change_without_chunking one_paragraph_dom 0%nat
           (lit "A ubiquitous thing.") Levels.advanced_profile
           {| chunking := Some {| strategy := lit "none"; maxLength := 4 |};
              vocabulary := Some {| simplificationLevel := lit "advanced" |} |}
           {| simplificationLevel := lit "advanced" |}
           {| strategy := lit "none"; maxLength := 4 |}
           {| useAnalogies := false;
              summarization := Some {| defaultState := lit "expanded";
                                       summaryLength := 25 |} |}).
  - reflexivity.
  - reflexivity.
  - reflexivity.
  - reflexivity.
  - vm_compute. discriminate.
Defined.

(** A vocabulary level that has no table (the schema's "advanced", like
    "none") leaves the text as it is: with no sentence-limit chunking
    and analogies off, the text call returns the content unchanged with
    an empty log, while its metadata reports the level asked for. *)
Theorem level_without_table_changes_nothing :
  forall (dom : Dom) (fuel : nat) (content : str) (profile : CognitiveProfile)
         (t : TextSettings) (v : Vocabulary) (c : Chunking) (sm : Simplification),
    text profile = Some t -> vocabulary t = Some v -> chunking t = Some c ->
    simplification profile = Some sm ->
    strategy c <> lit "sentence_limit" -> useAnalogies sm = false ->
    simplificationLevel v <> lit "basic" ->
    simplificationLevel v <> lit "intermediate" ->
    exists r m,
      Orchestrator.transformText fuel content profile = Returns r
      /\ Orchestrator.status r = lit "success"
      /\ Orchestrator.transformedContent r = content
      /\ Orchestrator.metadata r = Some m
      /\ Orchestrator.transformations m = []
      /\ Orchestrator.vocabularyLevel m = simplificationLevel v.
Proof.
  intros dom fuel content profile t v c sm Ht Hv Hc Hsm Hstrategy Hoff Hb Hi.
  apply str_eqb_neq in Hstrategy. apply str_eqb_neq in Hb. apply str_eqb_neq in Hi.
  unfold Orchestrator.transformText, Orchestrator.transform_pipeline.
  rewrite Ht; cbn [read bind]. rewrite Hv; cbn [read bind].
  rewrite Hc; cbn [read bind]. rewrite Hstrategy; cbn [bind].
  rewrite Hsm; cbn [read bind]. rewrite Hoff.
  unfold Vocabulary.simplifyVocabulary, Vocabulary.vocabularyMappings.
  rewrite Hb, Hi. cbn [fold_left Vocabulary.content Vocabulary.replacements].
  eexists. eexists. split; [reflexivity|].
  cbn [Orchestrator.status Orchestrator.metadata Orchestrator.transformedContent
       Orchestrator.transformations Orchestrator.vocabularyLevel].
  destruct (negb (str_eqb (simplificationLevel v) (lit "none")));
    repeat split.
Qed.

Lemma level_without_table_changes_nothing_witness :
  exists r m,
    @Orchestrator.transformText one_paragraph_dom 0 (lit "A ubiquitous thing.")
      Levels.advanced_profile = Returns r
    /\ Orchestrator.status r = lit "success"
    /\ Orchestrator.transformedContent r = lit "A ubiquitous thing."
    /\ Orchestrator.metadata r = Some m
    /\ Orchestrator.transformations m = []
    /\ Orchestrator.vocabularyLevel m = lit "advanced".
Proof.
  apply (@level_without_table_changes_nothing one_paragraph_dom 0%nat
           (lit "A ubiquitous thing.") Levels.advanced_profile
           {| chunking := Some {| strategy := lit "none"; maxLength := 4 |};
              vocabulary := Some {| simplificationLevel := lit "advanced" |} |}
           {| simplificationLevel := lit "advanced" |}
           {| strategy := lit "none"; maxLength := 4 |}
           {| useAnalogies := false;
              summarization := Some {| defaultState := lit "expanded";
                                       summaryLength := 25 |} |}).
  - reflexivity.
  - reflexivity.
  - reflexivity.
  - reflexivity.
  - vm_compute. discriminate.
  - reflexivity.
  - vm_compute. discriminate.
  - vm_compute. discriminate.
Defined.

End PipelineGrowth.

(** ** The generated fallback profile on a page *)

Module GeneratedPages.
Import Page.

Lemma generated_profile_filter (created updated : str)
    (answers : Fallback.OnboardingAnswers) :
  exists df,
    Visual.has_filter (Fallback.generateMockProfile created updated answers) df.
Proof.
  unfold Visual.has_filter, Fallback.generateMockProfile. cbn [visuals].
  eexists. eexists. split; reflexivity.
Qed.

(** Whatever the onboarding answers (also none), the profile of
    generateMockProfile carries a page through transformPage: for every
    page the call returns a success without error, and every selected
    node with text other than white space is counted as transformed. *)
Theorem generated_profile_transforms_every_page :
  forall (dom : Dom) (page : PageDom) (created updated : str)
         (answers : Fallback.OnboardingAnswers) (htmlContent : str),
    exists fuel0 : nat, forall fuel : nat, (fuel0 <= fuel)%nat ->
      exists r m,
        transformPage fuel htmlContent
          (Fallback.generateMockProfile created updated answers) = Returns r
        /\ status r = lit "success"
        /\ error r = None
        /\ metadata r = Some m
        /\ textTransformations m = List.length (extractTextContent htmlContent).
Proof.
  intros dom page created updated answers htmlContent.
  set (profile := Fallback.generateMockProfile created updated answers).
  pose proof (@FallbackProfile.generated_profile_complete created updated answers)
    as Hc.
  pose proof (@FallbackProfile.generated_profile_limit created updated answers)
    as Hl.
  destruct (generated_profile_filter created updated answers) as (df & Hf).
  fold profile in Hc, Hl, Hf.
  destruct (@PageTransform.forEach_node_complete dom profile Hc Hl
              (extractTextContent htmlContent)) as (fuel0 & Hnodes).
  exists fuel0. intros fuel Hfuel.
  destruct (Hnodes fuel Hfuel 0%nat) as (edits & He & _ & _).
  destruct (@PageFacts.analysis_entries
              (extractVisualElements (elements_after htmlContent edits)) profile df Hf)
    as (va & Hva & _ & _).
  destruct Hc as (t & v & c & sm & Ht & Hv & _ & Hsm).
  destruct Hf as (vis & Hvis & _).
  unfold transformPage, page_pipeline. rewrite He. cbn [bind fst snd].
  rewrite Hva. cbn [bind]. rewrite Ht; cbn [read bind]. rewrite Hv; cbn [read bind].
  rewrite Hsm; cbn [read bind]. rewrite Hvis; cbn [read bind].
  eexists. eexists. split; [reflexivity|].
  cbn [status error metadata textTransformations]. repeat split.
Qed.

End GeneratedPages.
